(** * A shallow embedding of [app.py]: the playlist acquisition pipeline

    The Flask application resolves a playlist, locates a media source for
    each track (primary search, then fallback), downloads and transcodes it
    into a per-session folder, lists and archives the folder, and sweeps old
    files in the background.

    Python code is embedded as state-passing programs over a [world] (the
    download folder and the history of observable events) that finish with a
    value or a raised exception.  The external collaborators (catalogue
    client, search APIs, media tools, random source, clock) are an
    [environment] whose answers may depend on the whole history. *)

From Stdlib Require Import ZArith QArith Lqa Lia List.
From Stdlib Require Import Strings.String Strings.Ascii DecimalString.
From stdpp Require Import gmap strings list fin_maps.

Local Open Scope string_scope.
Local Open Scope Z_scope.

(** ** Python values *)

(** An exception: its class and [str(e)]. *)
Record exn := Exn { exn_class : string; exn_msg : string }.

Inductive outcome (A : Type) : Type :=
| Ok (a : A)
| Raise (e : exn).
Arguments Ok {A} a.
Arguments Raise {A} e.

Definition is_ok {A} (r : outcome A) : bool :=
  match r with Ok _ => true | Raise _ => false end.

(** [str(n)] for a Python int. *)
Definition str_int (n : Z) : string := NilZero.string_of_int (Z.to_int n).

(** [s.split(sep)] for a non-empty separator: left to right, matches do not
    overlap.  [skip] counts the characters of a matched separator still to
    be dropped, [cur] is the piece being read. *)
Fixpoint split_go (sep : string) (skip : nat) (cur s : string) : list string :=
  match s with
  | EmptyString => [cur]
  | String c s' =>
      match skip with
      | S k => split_go sep k cur s'
      | O =>
          if String.prefix sep s
          then cur :: split_go sep (String.length sep - 1) "" s'
          else split_go sep 0 (cur ++ String c "") s'
      end
  end.

Definition py_split (sep s : string) : list string := split_go sep 0 "" s.

(** [l[i]] *)
Definition py_index {A} (l : list A) (i : nat) : outcome A :=
  match nth_error l i with
  | Some x => Ok x
  | None => Raise (Exn "IndexError" "list index out of range")
  end.

(** [s.endswith(suffix)] *)
Definition endswith (s suffix : string) : bool :=
  let n := String.length s in
  let m := String.length suffix in
  (m <=? n)%nat && String.eqb (String.substring (n - m) m s) suffix.

(** [sub in s] *)
Fixpoint contains (s sub : string) : bool :=
  String.prefix sub s ||
  match s with
  | EmptyString => false
  | String _ s' => contains s' sub
  end.

(** ** The download folder *)

(** What a session folder holds: regular files (last-modified time in
    microseconds, bytes) and entries that are not regular files. *)
Inductive node :=
| RegularFile (mtime : Z) (content : string)
| SubDirectory.

(** What [BASE_DOWNLOAD_FOLDER] holds. *)
Inductive entry :=
| Folder (files : gmap string node)
| PlainFile (mtime : Z) (content : string).

Definition BASE_DOWNLOAD_FOLDER := "./downloads".

(** A path below the download folder: [os.path.join(folder, name)] for a
    [name] without "/" is the entry [name] of the session folder [folder].
    A name with a slash would lead into a sub-directory instead; the
    statements about file names made from track titles exclude it. *)
Definition path : Type := string * string.
Definition path_join (folder name : string) : path := (folder, name).

(** ** Events, worlds and the environment *)

Inductive level := INFO | WARNING | ERROR.

Inductive call :=
| CallOp (name : string)
| CallPlaylistTracks (playlist_id : string)
| CallNext
| CallYoutubeSearch (query : string)
| CallExtractInfo (query : string)
| CallDownload (video_url : string) (output_path : path)
| CallFromFile (input_file : path)
| CallExport (output_path : path).

Inductive event :=
| EvCall (c : call)
| EvSleep (delay : Q)
| EvLog (lvl : level) (msg : string)
| EvRetryWarning (fname : string) (e : exn) (delay : Q).

(** The working directory and what has happened so far.  [fs] is what
    the download folder holds; the folder itself exists when [base_dir]
    says so and in any case when it holds something.  [cwd] is what the
    working directory holds beside the download folder. *)
Record world := World {
  fs : gmap string entry;
  trace : list event;
  base_dir : bool;
  cwd : gmap string node
}.

(** A page of the catalogue: its items and, when it has a next link, what
    following the link gives.  An item's ['track'] may be null; a track has
    a name and a list of artist names. *)
Record track_obj := TrackObj { tr_name : string; tr_artists : list string }.

#[warnings="-register-all"]
Inductive page :=
| Page (items : list (option track_obj)) (next : option (outcome page)).

Record environment := Env {
  random_uniform : list event -> Q;
  clock : list event -> Z;
  uuid4 : list event -> string;
  sp_playlist_tracks : list event -> string -> outcome page;
  youtube_search_list : list event -> string -> outcome (list (option string));
  ytdl_extract_info : list event -> string -> outcome (list string);
  ytdl_download : list event -> string -> outcome string;
  audio_from_file : list event -> string -> outcome string;
  audio_export : list event -> string -> outcome string
}.

(** ** Programs *)

Definition prog (A : Type) : Type := world -> outcome A * world.

Definition ret {A} (a : A) : prog A := fun w => (Ok a, w).
Definition raise {A} (e : exn) : prog A := fun w => (Raise e, w).
Definition bind {A B} (m : prog A) (k : A -> prog B) : prog B :=
  fun w => match m w with
           | (Ok a, w1) => k a w1
           | (Raise e, w1) => (Raise e, w1)
           end.
Definition lift {A} (r : outcome A) : prog A := fun w => (r, w).

(** [try: body / except Exception as e: handler e] *)
Definition try_except {A} (body : prog A) (handler : exn -> prog A) : prog A :=
  fun w => match body w with
           | (Ok a, w1) => (Ok a, w1)
           | (Raise e, w1) => handler e w1
           end.

#[global] Instance prog_ret : MRet prog := @ret.
#[global] Instance prog_bind : MBind prog := fun A B k m => bind m k.

Definition emit (ev : event) : prog unit :=
  fun w => (Ok tt, World (fs w) (trace w ++ [ev]) (base_dir w) (cwd w)).

Definition history : prog (list event) := fun w => (Ok (trace w), w).

Definition logging (lvl : level) (msg : string) : prog unit := emit (EvLog lvl msg).

(** [time.sleep(delay)]: a negative length is a [ValueError]. *)
Definition sleep (delay : Q) : prog unit :=
  if Qle_bool 0 delay then emit (EvSleep delay)
  else raise (Exn "ValueError" "sleep length must be non-negative").

(** The delays slept so far, oldest first. *)
Fixpoint delays (t : list event) : list Q :=
  match t with
  | [] => []
  | EvSleep d :: t' => d :: delays t'
  | _ :: t' => delays t'
  end.

Definition call_eqb (c1 c2 : call) : bool :=
  match c1, c2 with
  | CallOp a, CallOp b => String.eqb a b
  | CallPlaylistTracks a, CallPlaylistTracks b => String.eqb a b
  | CallNext, CallNext => true
  | CallYoutubeSearch a, CallYoutubeSearch b => String.eqb a b
  | CallExtractInfo a, CallExtractInfo b => String.eqb a b
  | CallDownload u (d, f), CallDownload u' (d', f') =>
      String.eqb u u' && String.eqb d d' && String.eqb f f'
  | CallFromFile (d, f), CallFromFile (d', f') => String.eqb d d' && String.eqb f f'
  | CallExport (d, f), CallExport (d', f') => String.eqb d d' && String.eqb f f'
  | _, _ => false
  end.

(** How many times the call [c] was made. *)
Fixpoint calls (c : call) (t : list event) : nat :=
  match t with
  | [] => 0%nat
  | EvCall c' :: t' => ((if call_eqb c c' then 1 else 0) + calls c t')%nat
  | _ :: t' => calls c t'
  end.

(** ** The retry decorator *)

Section RetryOnFailure.
Context (env : environment).
Context (retries : Z) (backoff_factor : Z) (jitter : bool).
Context {A : Type} (func_name : string) (func : prog A).

(** The delay computed in the [except] branch. *)
Definition backoff_delay (attempt : Z) (t : list event) : Q :=
  let delay := inject_Z (backoff_factor ^ attempt) in
  if jitter then (delay + random_uniform env t)%Q else delay.

(** The body of the [except] branch after [attempt += 1]. *)
Definition back_off (e : exn) (attempt : Z) : prog unit :=
  t ← history;
  let delay := backoff_delay attempt t in
  emit (EvRetryWarning func_name e delay);;
  sleep delay.

Definition retries_exhausted : exn :=
  Exn "Exception" (func_name ++ " failed after " ++ str_int retries ++ " retries.").

(** [while attempt < retries]: [remaining] is [retries - attempt]. *)
Fixpoint retry_loop (remaining : nat) (attempt : Z) : prog A :=
  match remaining with
  | O => raise retries_exhausted
  | S remaining' =>
      try_except func
        (fun e =>
           let attempt := attempt + 1 in
           back_off e attempt;;
           retry_loop remaining' attempt)
  end.

Definition retry_on_failure : prog A := retry_loop (Z.to_nat retries) 0.
End RetryOnFailure.

(** An operation known only by its name and by what its [n]-th call
    (counting from 0) does; every call is recorded. *)
Definition scripted {A} (name : string) (script : nat -> outcome A) : prog A :=
  t ← history;
  emit (EvCall (CallOp name));;
  lift (script (calls (CallOp name) t)).

(** ** File-system operations on the download folder *)

Definition FileNotFoundError : exn := Exn "FileNotFoundError" "No such file or directory".
Definition NotADirectoryError : exn := Exn "NotADirectoryError" "Not a directory".
Definition IsADirectoryError : exn := Exn "IsADirectoryError" "Is a directory".
Definition FileExistsError : exn := Exn "FileExistsError" "File exists".

Definition path_str (p : path) : string :=
  BASE_DOWNLOAD_FOLDER ++ "/" ++ p.1 ++ "/" ++ p.2.

Definition lookup_node (p : path) (root : gmap string entry) : option node :=
  match root !! p.1 with
  | Some (Folder files) => files !! p.2
  | _ => None
  end.

(** Whether [BASE_DOWNLOAD_FOLDER] exists. *)
Definition base_exists (w : world) : bool :=
  base_dir w || negb (bool_decide (fs w = ∅)).

(** [os.listdir(BASE_DOWNLOAD_FOLDER)] *)
Definition os_listdir_base : prog (list string) :=
  fun w => if base_exists w then (Ok (map_to_list (fs w)).*1, w)
           else (Raise FileNotFoundError, w).

(** What [os.path.join(BASE_DOWNLOAD_FOLDER, name)] leads to, for a [name]
    without slash (the routes of the handlers admit no other): an entry of
    the download folder; or else, once the download folder exists, the
    download folder itself for the empty name and for ".", and the working
    directory, in which "downloads" is a directory, for "..". *)
Inductive located :=
| Missing
| NotDirectory
| Directory (contents : gmap string node).

Definition as_node (e : entry) : node :=
  match e with
  | Folder _ => SubDirectory
  | PlainFile mtime content => RegularFile mtime content
  end.

Definition locate (name : string) (w : world) : located :=
  match fs w !! name with
  | Some (Folder files) => Directory files
  | Some (PlainFile _ _) => NotDirectory
  | None =>
      if base_exists w then
        if String.eqb name "" || String.eqb name "." then Directory (as_node <$> fs w)
        else if String.eqb name ".."
             then Directory (<["downloads" := SubDirectory]> (cwd w))
             else Missing
      else Missing
  end.

(** [os.listdir(os.path.join(BASE_DOWNLOAD_FOLDER, folder))] *)
Definition os_listdir (folder : string) : prog (list string) :=
  fun w => match locate folder w with
           | Directory contents => (Ok (map_to_list contents).*1, w)
           | NotDirectory => (Raise NotADirectoryError, w)
           | Missing => (Raise FileNotFoundError, w)
           end.

(** [os.path.exists(os.path.join(BASE_DOWNLOAD_FOLDER, folder))] *)
Definition os_path_exists (folder : string) : prog bool :=
  fun w => (Ok (match locate folder w with Missing => false | _ => true end), w).

Definition os_path_isdir (folder : string) : prog bool :=
  fun w => (Ok (match fs w !! folder with Some (Folder _) => true | _ => false end), w).

Definition os_path_isfile (p : path) : prog bool :=
  fun w => (Ok (match lookup_node p (fs w) with
                | Some (RegularFile _ _) => true
                | _ => false
                end), w).

Definition os_path_getmtime (p : path) : prog Z :=
  fun w => match lookup_node p (fs w) with
           | Some (RegularFile mtime _) => (Ok mtime, w)
           | _ => (Raise FileNotFoundError, w)
           end.

Definition read_file (p : path) : prog string :=
  fun w => match lookup_node p (fs w) with
           | Some (RegularFile _ content) => (Ok content, w)
           | Some SubDirectory => (Raise IsADirectoryError, w)
           | None => (Raise FileNotFoundError, w)
           end.

(** Writing creates the session folder when it is missing, as the media
    tools do, and replaces a regular file of the same name. *)
Definition write_file (p : path) (mtime : Z) (content : string) : prog unit :=
  fun w =>
    let put files :=
      (Ok tt, World (<[p.1 := Folder (<[p.2 := RegularFile mtime content]> files)]> (fs w))
                    (trace w) (base_dir w) (cwd w)) in
    match fs w !! p.1 with
    | Some (PlainFile _ _) => (Raise NotADirectoryError, w)
    | Some (Folder files) =>
        match files !! p.2 with
        | Some SubDirectory => (Raise IsADirectoryError, w)
        | _ => put files
        end
    | None => put ∅
    end.

(** [open(path, 'wb+')] followed by a write and a close: as [write_file],
    except that the folder must exist. *)
Definition open_write (p : path) (mtime : Z) (content : string) : prog unit :=
  fun w => match fs w !! p.1 with
           | None => (Raise FileNotFoundError, w)
           | Some _ => write_file p mtime content w
           end.

(** [os.remove(path)] *)
Definition os_remove (p : path) : prog unit :=
  fun w => match fs w !! p.1 with
           | Some (Folder files) =>
               match files !! p.2 with
               | Some (RegularFile _ _) =>
                   (Ok tt, World (<[p.1 := Folder (delete p.2 files)]> (fs w)) (trace w) (base_dir w) (cwd w))
               | Some SubDirectory => (Raise IsADirectoryError, w)
               | None => (Raise FileNotFoundError, w)
               end
           | _ => (Raise FileNotFoundError, w)
           end.

(** [os.rmdir(folder_path)] *)
Definition os_rmdir (folder : string) : prog unit :=
  fun w => match fs w !! folder with
           | Some (Folder files) =>
               if decide (files = ∅)
               then (Ok tt, World (delete folder (fs w)) (trace w) true (cwd w))
               else (Raise (Exn "OSError" "Directory not empty"), w)
           | Some (PlainFile _ _) => (Raise NotADirectoryError, w)
           | None => (Raise FileNotFoundError, w)
           end.

(** [os.makedirs(user_folder, exist_ok=True)] *)
Definition os_makedirs (folder : string) : prog unit :=
  fun w => match fs w !! folder with
           | Some (Folder _) => (Ok tt, w)
           | Some (PlainFile _ _) => (Raise FileExistsError, w)
           | None => (Ok tt, World (<[folder := Folder ∅]> (fs w)) (trace w) (base_dir w) (cwd w))
           end.

(** [for x in l: body x] *)
Fixpoint for_each {A} (l : list A) (body : A -> prog unit) : prog unit :=
  match l with
  | [] => mret tt
  | x :: l' => body x;; for_each l' body
  end.

(** ** The retention sweeper *)

(** [timedelta(days=d)] in microseconds. *)
Definition timedelta_days (d : Z) : Z := d * 86400 * 1000000.

(** One pass of the inner loop of [cleanup_old_files] over a file name. *)
Definition cleanup_file (now : Z) (folder file : string) : prog unit :=
  let file_path := path_join folder file in
  isfile ← os_path_isfile file_path;
  if isfile : bool then
    mtime ← os_path_getmtime file_path;
    let file_age := now - mtime in
    if timedelta_days 5 <? file_age then
      os_remove file_path;;
      logging INFO ("Deleted old file: " ++ path_str file_path)
    else mret tt
  else mret tt.

(** One pass of the outer loop over an entry of the download folder. *)
Definition cleanup_folder (now : Z) (folder : string) : prog unit :=
  isdir ← os_path_isdir folder;
  if isdir : bool then
    files ← os_listdir folder;
    for_each files (cleanup_file now folder);;
    remaining ← os_listdir folder;
    match remaining with
    | [] => os_rmdir folder
    | _ => mret tt
    end
  else mret tt.

(** The body of [while True] up to the hourly sleep, [now] being what
    [datetime.now()] returned. *)
Definition cleanup_cycle (now : Z) : prog unit :=
  folders ← os_listdir_base;
  for_each folders (cleanup_folder now).

(** The first [cycles] iterations of [cleanup_old_files]. *)
Fixpoint cleanup_old_files (env : environment) (cycles : nat) : prog unit :=
  match cycles with
  | O => mret tt
  | S cycles' =>
      t ← history;
      cleanup_cycle (clock env t);;
      sleep (inject_Z 3600);;
      cleanup_old_files env cycles'
  end.

(** ** The acquisition pipeline *)

Record track := Track { name : string; artist : string }.

Section Pipeline.
Context (env : environment).

(** [{'name': track['name'], 'artist': track['artists'][0]['name']}] for
    [track = item['track']]. *)
Definition project_item (item : option track_obj) : outcome track :=
  match item with
  | None => Raise (Exn "TypeError" "'NoneType' object is not subscriptable")
  | Some t =>
      match py_index (tr_artists t) 0 with
      | Ok a => Ok (Track (tr_name t) a)
      | Raise e => Raise e
      end
  end.

(** [for item in results['items']: tracks.append(...)] *)
Fixpoint project_items (items : list (option track_obj)) (tracks : list track)
  : outcome (list track) :=
  match items with
  | [] => Ok tracks
  | item :: items' =>
      match project_item item with
      | Ok t => project_items items' (tracks ++ [t])
      | Raise e => Raise e
      end
  end.

(** [while results: ...; results = sp.next(results) if results['next'] else None] *)
Fixpoint collect_pages (results : page) (tracks : list track) : prog (list track) :=
  match results with
  | Page items next =>
      tracks ← lift (project_items items tracks);
      match next with
      | Some following =>
          emit (EvCall CallNext);;
          match following with
          | Ok p => collect_pages p tracks
          | Raise e => raise e
          end
      | None => mret tracks
      end
  end.

Definition fetch_spotify_playlist_tracks_wrapped (playlist_url : string)
  : prog (list track) :=
  rest ← lift (py_index (py_split "/playlist/" playlist_url) 1);
  playlist_id ← lift (py_index (py_split "?" rest) 0);
  t ← history;
  emit (EvCall (CallPlaylistTracks playlist_id));;
  results ← lift (sp_playlist_tracks env t playlist_id);
  tracks ← collect_pages results [];
  logging INFO ("Fetched " ++ str_int (Z.of_nat (length tracks))
                 ++ " tracks from Spotify.");;
  mret tracks.

Definition fetch_spotify_playlist_tracks (playlist_url : string) : prog (list track) :=
  retry_on_failure env 5 2 true "fetch_spotify_playlist_tracks"
    (fetch_spotify_playlist_tracks_wrapped playlist_url).

(** Building the client with a key picked at random and executing the
    request are one call to the environment; its answer lists, for each
    item of the response, the ['videoId'] of its ['id'] if it has one. *)
Definition search_youtube_api_wrapped (query : string) : prog string :=
  t ← history;
  emit (EvCall (CallYoutubeSearch query));;
  items ← lift (youtube_search_list env t query);
  match items with
  | first :: _ =>
      match first with
      | Some video_id =>
          let video_url := "https://www.youtube.com/watch?v=" ++ video_id in
          logging INFO ("Found video for '" ++ query ++ "' using YouTube API: "
                         ++ video_url);;
          mret video_url
      | None => raise (Exn "KeyError" "'videoId'")
      end
  | [] => raise (Exn "Exception" ("No YouTube results found for '" ++ query ++ "'"))
  end.

Definition search_youtube_api (query : string) : prog string :=
  retry_on_failure env 5 2 true "search_youtube_api" (search_youtube_api_wrapped query).

Definition search_youtube_yt_dlp_wrapped (query : string) : prog string :=
  logging INFO ("Searching for '" ++ query ++ "' on YouTube using yt-dlp...");;
  t ← history;
  emit (EvCall (CallExtractInfo query));;
  entries ← lift (ytdl_extract_info env t ("ytsearch:" ++ query));
  match entries with
  | video_url :: _ =>
      logging INFO ("Found video for '" ++ query ++ "' using yt-dlp: " ++ video_url);;
      mret video_url
  | [] => raise (Exn "Exception" ("No results found for '" ++ query ++ "'"))
  end.

Definition search_youtube_yt_dlp (query : string) : prog string :=
  retry_on_failure env 5 2 true "search_youtube_yt_dlp"
    (search_youtube_yt_dlp_wrapped query).

(** [AudioSegment.from_file(input_file)] *)
Definition AudioSegment_from_file (input_file : path) : prog string :=
  t ← history;
  emit (EvCall (CallFromFile input_file));;
  content ← read_file input_file;
  lift (audio_from_file env t content).

(** [audio.export(mp3_output_path, format="mp3")]: the library opens the
    output file for writing, which empties it, before it runs the encoder,
    and fills it when the encoder has succeeded. *)
Definition AudioSegment_export (audio : string) (output_path : path) : prog unit :=
  t ← history;
  emit (EvCall (CallExport output_path));;
  open_write output_path (clock env t) "";;
  encoded ← lift (audio_export env t audio);
  write_file output_path (clock env t) encoded.

Definition convert_to_mp3 (input_file : path) (query output_dir : string) : prog unit :=
  try_except
    (logging INFO ("Converting " ++ query ++ " to MP3...");;
     audio ← AudioSegment_from_file input_file;
     let mp3_output_path := path_join output_dir (query ++ ".mp3") in
     AudioSegment_export audio mp3_output_path;;
     os_remove input_file;;
     logging INFO ("Converted " ++ query ++ " to MP3 successfully."))
    (fun e => logging ERROR ("Error converting " ++ query ++ " to MP3: " ++ exn_msg e)).

(** The wrapped body of [download_song].  The downloader is given
    "<query>.webm" as its output template and writes the media there; this
    is what it does for a query without "%" (which the template syntax
    uses) when no file of that name is in the folder yet. *)
Definition download_song_wrapped (video_url query output_dir : string) : prog unit :=
  let output_path := path_join output_dir (query ++ ".webm") in
  logging INFO ("Downloading " ++ query ++ "...");;
  t ← history;
  emit (EvCall (CallDownload video_url output_path));;
  media ← lift (ytdl_download env t video_url);
  write_file output_path (clock env t) media;;
  logging INFO ("Downloaded " ++ query ++ " successfully.");;
  convert_to_mp3 output_path query output_dir.

Definition download_song (video_url query output_dir : string) : prog unit :=
  retry_on_failure env 5 2 true "download_song"
    (download_song_wrapped video_url query output_dir).

(** ** The request handlers *)

Inductive json_value :=
| JStr (s : string)
| JList (l : list string).

Inductive response :=
| Jsonify (fields : list (string * json_value))
| SendFile (archive : list (string * string)) (as_attachment : bool)
           (download_name mimetype : string)
| Html (body : string).

Definition query_of (t : track) : string := name t ++ " " ++ artist t.

(** The body of [for track in tracks] in [index]. *)
Definition acquire_track (user_folder : string) (t : track) : prog unit :=
  let query := query_of t in
  try_except
    (video_url ← try_except (search_youtube_api query)
                            (fun _ => search_youtube_yt_dlp query);
     download_song video_url query user_folder)
    (fun e => logging ERROR ("Failed to download " ++ query ++ ": " ++ exn_msg e)).

Definition success_envelope (user_id : string) : response :=
  Jsonify [("status", JStr "success"); ("user_id", JStr user_id);
           ("message", JStr "Download complete!")].

Definition error_envelope (message : string) : response :=
  Jsonify [("status", JStr "error"); ("message", JStr message)].

Definition form_page : response :=
  Html "<form method=POST> Spotify Playlist URL: <input type=text name=playlist_url> <button type=submit>Download</button> </form>".

(** [index] for a request with the given method and [playlist_url] form
    field. *)
Definition index (method playlist_url : string) : prog response :=
  if String.eqb method "POST" then
    t ← history;
    let user_id := uuid4 env t in
    let user_folder := user_id in
    os_makedirs user_folder;;
    try_except
      (tracks ← fetch_spotify_playlist_tracks playlist_url;
       for_each tracks (acquire_track user_folder);;
       mret (success_envelope user_id))
      (fun e => mret (error_envelope (exn_msg e)))
  else mret form_page.

Definition session_not_found : response :=
  error_envelope "No files found for this user.".

Definition list_files (user_id : string) : prog response :=
  let user_folder := user_id in
  found ← os_path_exists user_folder;
  if negb found then mret session_not_found
  else
    names ← os_listdir user_folder;
    let files := List.filter (fun f => endswith f ".mp3") names in
    mret (Jsonify [("files", JList files)]).

(** [zip_file.write(os.path.join(user_folder, filename), filename)]: a
    regular file is stored with its bytes, a directory as an empty entry
    whose name ends in a slash. *)
Definition zip_write (p : path) (arcname : string) (zip : list (string * string))
  : prog (list (string * string)) :=
  fun w => match locate p.1 w with
           | Directory contents =>
               match contents !! p.2 with
               | Some (RegularFile _ content) =>
                   (Ok (zip ++ [(arcname, content)])%list, w)
               | Some SubDirectory => (Ok (zip ++ [((arcname ++ "/")%string, "")])%list, w)
               | None => (Raise FileNotFoundError, w)
               end
           | _ => (Raise FileNotFoundError, w)
           end.

(** [for filename in os.listdir(user_folder): if filename.endswith('.mp3'): ...] *)
Fixpoint zip_folder (user_folder : string) (names : list string)
         (zip : list (string * string)) : prog (list (string * string)) :=
  match names with
  | [] => mret zip
  | filename :: names' =>
      if endswith filename ".mp3" then
        zip ← zip_write (path_join user_folder filename) filename zip;
        zip_folder user_folder names' zip
      else zip_folder user_folder names' zip
  end.

Definition download_all (user_id : string) : prog response :=
  let user_folder := user_id in
  found ← os_path_exists user_folder;
  if negb found then mret session_not_found
  else
    names ← os_listdir user_folder;
    zip ← zip_folder user_folder names [];
    mret (SendFile zip true (user_id ++ "_songs.zip") "application/zip").
End Pipeline.

(** ** What the claims speak about *)

(** The random source honours its contract: a value in [[0,1)]. *)
Definition jitter_in_unit (env : environment) : Prop :=
  forall t, (0 <= random_uniform env t)%Q /\ (random_uniform env t < 1)%Q.

(** [backoff_factor ** k], plus the jitter when there is one. *)
Definition delay_with (backoff_factor k : Z) (u : option Q) : Q :=
  match u with
  | Some j => (inject_Z (backoff_factor ^ k) + j)%Q
  | None => inject_Z (backoff_factor ^ k)
  end.

(** The jitter of a delay is absent exactly when jitter is off, and lies in
    [[0,1)] otherwise. *)
Definition jitter_ok (jitter : bool) (u : option Q) : Prop :=
  match u with
  | Some j => jitter = true /\ (0 <= j)%Q /\ (j < 1)%Q
  | None => jitter = false
  end.

(** The world the wrapper is in once it has backed off after a failure. *)
Definition backed_off (env : environment) (backoff_factor : Z) (jitter : bool)
    (func_name : string) (e : exn) (attempt : Z) (w : world) : world :=
  (back_off env backoff_factor jitter func_name e attempt w).2.

(** [func] fails on each of the next [n] attempts the wrapper makes from
    [w], and does not sleep itself. *)
Fixpoint fails_on_attempts {A} (env : environment) (backoff_factor : Z) (jitter : bool)
    (func_name : string) (func : prog A) (n : nat) (attempt : Z) (w : world) : Prop :=
  match n with
  | O => True
  | S n' =>
      exists e w1,
        func w = (Raise e, w1) /\
        delays (trace w1) = delays (trace w) /\
        fails_on_attempts env backoff_factor jitter func_name func n' (attempt + 1)
          (backed_off env backoff_factor jitter func_name e (attempt + 1) w1)
  end.

(** [func] fails whenever it is called, and does not sleep itself. *)
Definition always_fails {A} (func : prog A) : Prop :=
  forall w, exists e w1, func w = (Raise e, w1) /\ delays (trace w1) = delays (trace w).

(** An environment in which nothing is found and nothing works, with a
    jitter of one half. *)
Definition barren_env : environment :=
  {| random_uniform := fun _ => (1 # 2)%Q;
     clock := fun _ => 0;
     uuid4 := fun _ => "session-1";
     sp_playlist_tracks := fun _ _ => Raise (Exn "SpotifyException" "not found");
     youtube_search_list := fun _ _ => Ok [];
     ytdl_extract_info := fun _ _ => Ok [];
     ytdl_download := fun _ _ => Raise (Exn "DownloadError" "unavailable");
     audio_from_file := fun _ _ => Raise (Exn "CouldntDecodeError" "decoding failed");
     audio_export := fun _ _ => Raise (Exn "CouldntEncodeError" "encoding failed") |}.

Definition empty_world : world := World ∅ [] false ∅.

(** An operation that fails with "boom" whenever it is called. *)
Definition boom : prog Z := scripted "op" (fun _ => Raise (Exn "Exception" "boom")).

(** An operation that fails twice and then returns 42. *)
Definition third_time_lucky : prog Z :=
  scripted "op" (fun n => if (n <? 2)%nat then Raise (Exn "Exception" "boom") else Ok 42).

(** The spec's reading of exhaustion: the error raised carries the
    description of the last failure. *)
Definition carries_description (raised last : exn) : Prop :=
  contains (exn_msg raised) (exn_msg last) = true.

(** A regular file whose age exceeds the retention threshold. *)
Definition expired (now : Z) (n : node) : bool :=
  match n with
  | RegularFile mtime _ => timedelta_days 5 <? now - mtime
  | SubDirectory => false
  end.

Definition keep (now : Z) (n : node) : option node :=
  if expired now n then None else Some n.

(** A folder without its expired files. *)
Definition swept (now : Z) (files : gmap string node) : gmap string node :=
  omap (keep now) files.

(** What a cycle leaves of an entry of the download folder. *)
Definition sweep_entry (now : Z) (o : option entry) : option entry :=
  match o with
  | Some (Folder files) =>
      if decide (swept now files = ∅) then None else Some (Folder (swept now files))
  | _ => o
  end.

(** A download folder with one session holding a six-day-old and a
    four-day-old file, at a clock of ten days. *)
Definition ten_days : Z := timedelta_days 10.

Definition aged_files : gmap string node :=
  <["old.mp3" := RegularFile (ten_days - timedelta_days 6) "old"]>
    (<["new.mp3" := RegularFile (ten_days - timedelta_days 4) "new"]> ∅).

Definition aged_world : world := World (<["s1" := Folder aged_files]> ∅) [] true ∅.

(** A session folder holding two finished tracks and a leftover raw file. *)
Definition mixed_files : gmap string node :=
  <["a.mp3" := RegularFile 0 "A"]>
    (<["b.mp3" := RegularFile 0 "B"]> (<["a.webm" := RegularFile 0 "raw"]> ∅)).

Definition mixed_world : world := World (<["s1" := Folder mixed_files]> ∅) [] true ∅.

(** A session folder holding only a raw file. *)
Definition raw_world : world :=
  World (<["s1" := Folder (<["a.webm" := RegularFile 0 "raw"]> ∅)]> ∅) [] true ∅.

(** The archive member written for a name of the folder. *)
Definition archive_member (files : gmap string node) (filename : string)
  : option (string * string) :=
  if endswith filename ".mp3" then
    match files !! filename with
    | Some (RegularFile _ content) => Some (filename, content)
    | Some SubDirectory => Some (filename ++ "/", "")
    | None => None
    end
  else None.

(** An environment in which everything works: a playlist of two tracks,
    a first search hit, a download, a decoder and an encoder. *)
Definition obliging_env : environment :=
  {| random_uniform := fun _ => (1 # 2)%Q;
     clock := fun _ => 7;
     uuid4 := fun _ => "session-1";
     sp_playlist_tracks := fun _ _ =>
       Ok (Page [Some (TrackObj "Song A" ["Artist X"]);
                 Some (TrackObj "Song B" ["Artist Y"; "Artist Z"])] None);
     youtube_search_list := fun _ _ => Ok [Some "dQw4"];
     ytdl_extract_info := fun _ _ => Ok ["https://media.example/1"];
     ytdl_download := fun _ _ => Ok "raw";
     audio_from_file := fun _ _ => Ok "pcm";
     audio_export := fun _ _ => Ok "mp3" |}.

(** A session folder holding the raw download of one track. *)
Definition downloaded_world : world :=
  World (<["s1" := Folder (<["Song.webm" := RegularFile 0 "raw"]> ∅)]> ∅) [] true ∅.

(** The identifier expression of [fetch_spotify_playlist_tracks]:
    [playlist_url.split('/playlist/')[1].split('?')[0]]. *)
Definition playlist_id_of (playlist_url : string) : outcome string :=
  match py_index (py_split "/playlist/" playlist_url) 1 with
  | Ok rest => py_index (py_split "?" rest) 0
  | Raise e => Raise e
  end.

(** The spec's reading of a primary search without results: it fails at
    once, after one call and without any delay. *)
Definition fails_without_retrying (env : environment) (query : string) (w : world)
  : Prop :=
  exists e w1,
    search_youtube_api env query w = (Raise e, w1) /\
    calls (CallYoutubeSearch query) (trace w1)
    = S (calls (CallYoutubeSearch query) (trace w)) /\
    delays (trace w1) = delays (trace w).

(** The spec's reading of the playlist reference: it parses to a non-empty
    identifier, or the request touches neither the download folder nor any
    collaborator. *)
Definition parses_or_fails_before_io (env : environment) (playlist_url : string)
    (w : world) : Prop :=
  (exists playlist_id, playlist_id_of playlist_url = Ok playlist_id /\ playlist_id ≠ "") \/
  (let w' := (index env "POST" playlist_url w).2 in
   fs w' = fs w /\ forall c, calls c (trace w') = calls c (trace w)).

(** A program only ever appends to the history. *)
Definition grows {A} (m : prog A) : Prop :=
  forall w, exists seg, trace (m w).2 = (trace w ++ seg)%list.

(** A program whose first recorded event is [ev]. *)
Definition starts_with {A} (ev : event) (m : prog A) : Prop :=
  forall w, exists rest, trace (m w).2 = (trace w ++ ev :: rest)%list.

(** An environment whose catalogue knows a playlist of two tracks, while no
    search finds anything. *)
Definition fruitless_env : environment :=
  {| random_uniform := fun _ => (1 # 2)%Q;
     clock := fun _ => 7;
     uuid4 := fun _ => "session-1";
     sp_playlist_tracks := fun _ _ =>
       Ok (Page [Some (TrackObj "Song A" ["Artist X"])]
                (Some (Ok (Page [Some (TrackObj "Song B" ["Artist Y"; "Artist Z"])] None))));
     youtube_search_list := fun _ _ => Ok [];
     ytdl_extract_info := fun _ _ => Ok [];
     ytdl_download := fun _ _ => Raise (Exn "DownloadError" "unavailable");
     audio_from_file := fun _ _ => Raise (Exn "CouldntDecodeError" "decoding failed");
     audio_export := fun _ _ => Raise (Exn "CouldntEncodeError" "encoding failed") |}.

(** The same catalogue, with a primary search that finds "Song A" only. *)
Definition partial_env : environment :=
  {| random_uniform := fun _ => (1 # 2)%Q;
     clock := fun _ => 7;
     uuid4 := fun _ => "session-1";
     sp_playlist_tracks := sp_playlist_tracks fruitless_env;
     youtube_search_list := fun _ query =>
       if String.eqb query "Song A Artist X" then Ok [Some "dQw4"] else Ok [];
     ytdl_extract_info := fun _ _ => Ok [];
     ytdl_download := fun _ _ => Ok "raw";
     audio_from_file := fun _ _ => Ok "pcm";
     audio_export := fun _ _ => Ok "mp3" |}.

Definition two_tracks : list track :=
  [Track "Song A" "Artist X"; Track "Song B" "Artist Y"].

Definition playlist_link : string := "https://open.spotify.com/playlist/37i9dQ?si=1".

(** The world in which the wrapper makes its next attempt once [func] has
    failed [k] times in a row from [w]. *)
Fixpoint after_failures {A} (env : environment) (backoff_factor : Z) (jitter : bool)
    (func_name : string) (func : prog A) (k : nat) (attempt : Z) (w : world) : world :=
  match k with
  | O => w
  | S k' =>
      match func w with
      | (Raise e, w1) =>
          after_failures env backoff_factor jitter func_name func k' (attempt + 1)
            (backed_off env backoff_factor jitter func_name e (attempt + 1) w1)
      | (Ok _, w1) => w1
      end
  end.

(** No occurrence of [sep] in [base ++ rest] starts inside [base]. *)
Fixpoint no_match_within (sep base rest : string) : bool :=
  match base with
  | EmptyString => true
  | String c b =>
      negb (String.prefix sep (String c (b ++ rest))) && no_match_within sep b rest
  end.

(** The character [c] does not occur in [s]. *)
Fixpoint avoids (c : ascii) (s : string) : bool :=
  match s with
  | EmptyString => true
  | String c' s' => negb (Ascii.eqb c c') && avoids c s'
  end.

(** All the items of a chain of pages, in order, when no next link fails. *)
Fixpoint page_items (p : page) : option (list (option track_obj)) :=
  match p with
  | Page items next =>
      match next with
      | None => Some items
      | Some (Ok p') =>
          match page_items p' with
          | Some more => Some (items ++ more)%list
          | None => None
          end
      | Some (Raise _) => None
      end
  end.

(** The number of next links followed along a chain of pages. *)
Fixpoint page_links (p : page) : nat :=
  match p with
  | Page _ next =>
      match next with
      | Some (Ok p') => S (page_links p')
      | Some (Raise _) => 1
      | None => 0
      end
  end.

(** An item with a track that has a first artist, and the track it gives. *)
Definition gives (item : option track_obj) (t : track) : Prop :=
  exists title first others,
    item = Some (TrackObj title (first :: others)) /\ t = Track title first.

(** An item the projection cannot use: no track, or a track without
    artists. *)
Definition unusable (item : option track_obj) : Prop :=
  item = None \/ exists title, item = Some (TrackObj title []).

(** A catalogue whose only page holds an item without track. *)
Definition broken_env : environment :=
  {| random_uniform := fun _ => (1 # 2)%Q;
     clock := fun _ => 7;
     uuid4 := fun _ => "session-1";
     sp_playlist_tracks := fun _ _ =>
       Ok (Page [Some (TrackObj "Song A" ["Artist X"]); None] None);
     youtube_search_list := fun _ _ => Ok [Some "dQw4"];
     ytdl_extract_info := fun _ _ => Ok ["https://media.example/1"];
     ytdl_download := fun _ _ => Ok "raw";
     audio_from_file := fun _ _ => Ok "pcm";
     audio_export := fun _ _ => Ok "mp3" |}.

(** A program that leaves the download folder as it is. *)
Definition keeps_folder {A} (m : prog A) : Prop :=
  forall w, fs (m w).2 = fs w.

(** An environment whose download and decoder work and whose encoder
    does not. *)
Definition codecless_env : environment :=
  {| random_uniform := fun _ => (1 # 2)%Q;
     clock := fun _ => 7;
     uuid4 := fun _ => "session-1";
     sp_playlist_tracks := sp_playlist_tracks fruitless_env;
     youtube_search_list := fun _ _ => Ok [Some "dQw4"];
     ytdl_extract_info := fun _ _ => Ok ["https://media.example/1"];
     ytdl_download := fun _ _ => Ok "raw";
     audio_from_file := fun _ _ => Ok "pcm";
     audio_export := fun _ _ => Raise (Exn "CouldntEncodeError" "no codec") |}.

(** A download folder with one empty session folder. *)
Definition fresh_session_world : world := World (<["s1" := Folder ∅]> ∅) [] true ∅.


(** The spec's reading of a transcode: afterwards the raw file is gone and
    the MP3 is there, or the folder holds no MP3 for the track. *)
Definition converts_or_leaves_no_mp3 (env : environment) (input_file : path)
    (query output_dir : string) (w : world) : Prop :=
  let mp3_output_path := path_join output_dir (query ++ ".mp3") in
  let w' := (convert_to_mp3 env input_file query output_dir w).2 in
  (lookup_node input_file (fs w') = None /\ is_Some (lookup_node mp3_output_path (fs w'))) \/
  lookup_node mp3_output_path (fs w') = None.


(** A name that can only lead to an entry of the download folder: it has
    no slash and is neither empty nor "." nor "..". *)
Definition entry_name (s : string) : bool :=
  avoids "/" s && negb (String.eqb s "") && negb (String.eqb s ".")
  && negb (String.eqb s "..").

(** * Proofs *)

(** ** Running programs *)

Lemma bind_Ok {A B} (m : prog A) (k : A -> prog B) w a w1 :
  m w = (Ok a, w1) -> (m ≫= k) w = k a w1.
Proof. intros H. unfold mbind, prog_bind, bind. now rewrite H. Qed.

Lemma bind_Raise {A B} (m : prog A) (k : A -> prog B) w e w1 :
  m w = (Raise e, w1) -> (m ≫= k) w = (Raise e, w1).
Proof. intros H. unfold mbind, prog_bind, bind. now rewrite H. Qed.

Lemma try_Ok {A} (body : prog A) handler w a w1 :
  body w = (Ok a, w1) -> try_except body handler w = (Ok a, w1).
Proof. intros H. unfold try_except. now rewrite H. Qed.

Lemma try_Raise {A} (body : prog A) handler w e w1 :
  body w = (Raise e, w1) -> try_except body handler w = handler e w1.
Proof. intros H. unfold try_except. now rewrite H. Qed.

Lemma delays_app t1 t2 : delays (t1 ++ t2) = (delays t1 ++ delays t2)%list.
Proof.
  induction t1 as [|ev t1 IH]; [reflexivity|].
  destruct ev; simpl; now rewrite IH.
Qed.

Lemma calls_app c t1 t2 : calls c (t1 ++ t2) = (calls c t1 + calls c t2)%nat.
Proof.
  induction t1 as [|ev t1 IH]; [reflexivity|].
  destruct ev; simpl; rewrite IH; lia.
Qed.

(** ** The retry decorator *)

Section RetryFacts.
Context (env : environment) (retries backoff_factor : Z) (jitter : bool).
Context {A : Type} (func_name : string) (func : prog A).

#[local] Abbreviation back_off' := (back_off env backoff_factor jitter func_name).
#[local] Abbreviation retry_loop' := (retry_loop env retries backoff_factor jitter func_name func).

Lemma backoff_delay_nonneg attempt t :
  0 <= backoff_factor -> jitter_in_unit env ->
  Qle_bool 0 (backoff_delay env backoff_factor jitter attempt t) = true.
Proof.
  intros Hb Hj. apply Qle_bool_iff. unfold backoff_delay.
  assert (Hp : (0 <= inject_Z (backoff_factor ^ attempt))%Q).
  { unfold Qle; simpl. pose proof (Z.pow_nonneg backoff_factor attempt Hb). lia. }
  destruct jitter; [|exact Hp].
  destruct (Hj t) as [H0 _]. lra.
Qed.

(** With a sane random source the back-off warns, sleeps and goes on. *)
Lemma back_off_runs e attempt w :
  0 <= backoff_factor -> jitter_in_unit env ->
  back_off' e attempt w =
    (Ok tt, World (fs w)
              (trace w ++ [EvRetryWarning func_name e
                             (backoff_delay env backoff_factor jitter attempt (trace w));
                           EvSleep (backoff_delay env backoff_factor jitter attempt (trace w))]) (base_dir w) (cwd w)).
Proof.
  intros Hb Hj. unfold back_off, history, sleep, emit, mbind, prog_bind, bind. simpl.
  rewrite (backoff_delay_nonneg attempt (trace w) Hb Hj). simpl.
  now rewrite <- app_assoc.
Qed.

Lemma backoff_delay_with attempt t :
  jitter_in_unit env ->
  exists u, backoff_delay env backoff_factor jitter attempt t
            = delay_with backoff_factor attempt u /\ jitter_ok jitter u.
Proof.
  intros Hj. unfold backoff_delay. destruct jitter.
  - exists (Some (random_uniform env t)). split; [reflexivity|].
    destruct (Hj t). now repeat split.
  - exists None. now split.
Qed.

(** All attempts failing: one delay per failure, then the exhaustion
    error. *)
Lemma retry_loop_exhausted n : forall attempt w,
  0 <= backoff_factor -> jitter_in_unit env ->
  fails_on_attempts env backoff_factor jitter func_name func n attempt w ->
  exists w' (us : list (option Q)),
    retry_loop' n attempt w = (Raise (retries_exhausted retries func_name), w') /\
    length us = n /\
    delays (trace w') =
      (delays (trace w)
         ++ imap (fun k u => delay_with backoff_factor (attempt + Z.of_nat k + 1) u) us)%list /\
    Forall (jitter_ok jitter) us.
Proof.
  induction n as [|n IH]; intros attempt w Hb Hj Hf.
  - exists w, []. simpl. rewrite app_nil_r. repeat split; constructor.
  - destruct Hf as (e & w1 & Hfun & Hd & Hrest).
    unfold backed_off in Hrest. rewrite (back_off_runs _ _ _ Hb Hj) in Hrest.
    simpl in Hrest.
    destruct (IH _ _ Hb Hj Hrest) as (w' & us & Hrun & Hlen & Hdel & Hus).
    destruct (backoff_delay_with (attempt + 1) (trace w1) Hj) as (u & Hu & Huok).
    exists w', (u :: us). split; [|split; [|split]].
    + simpl. rewrite (try_Raise _ _ _ _ _ Hfun).
      rewrite (bind_Ok _ _ _ _ _ (back_off_runs _ _ _ Hb Hj)). exact Hrun.
    + simpl. now rewrite Hlen.
    + rewrite Hdel. simpl. rewrite delays_app. simpl. rewrite Hd, Hu.
      rewrite <- app_assoc. simpl. f_equal. f_equal.
      * f_equal. lia.
      * apply imap_ext. intros k x _. simpl. f_equal. lia.
    + now constructor.
Qed.

Lemma always_fails_on_attempts n :
  always_fails func ->
  forall attempt w,
    fails_on_attempts env backoff_factor jitter func_name func n attempt w.
Proof.
  intros Hall. induction n as [|n IH]; intros attempt w; simpl; [exact I|].
  destruct (Hall w) as (e & w1 & H1 & H2). exists e, w1. auto.
Qed.
End RetryFacts.

Lemma scripted_runs {A} name (script : nat -> outcome A) w :
  scripted name script w =
    (script (calls (CallOp name) (trace w)),
     World (fs w) (trace w ++ [EvCall (CallOp name)]) (base_dir w) (cwd w)).
Proof. reflexivity. Qed.

Lemma call_eqb_refl c : call_eqb c c = true.
Proof.
  destruct c as [?|?| |?|?|? [? ?]|[? ?]|[? ?]]; simpl;
    rewrite ?String.eqb_refl; reflexivity.
Qed.

Lemma boom_always_fails : always_fails boom.
Proof.
  intros w. eexists _, _. split; [reflexivity|].
  simpl. rewrite delays_app. apply app_nil_r.
Qed.

(** C9: when the wrapped operation fails on every attempt, the wrapper
    sleeps after each failure, the last one included: exactly [retries]
    delays are added before the exhaustion error is raised, and the k-th of
    them (counting from 1) is [backoff_factor ** k], plus a jitter in
    [[0,1)] when jitter is on.  Arithmetic is exact. *)
Theorem retry_sleeps_after_every_failure
    (env : environment) (retries backoff_factor : Z) (jitter : bool)
    {A : Type} (func_name : string) (func : prog A) (w : world) :
  0 <= backoff_factor ->
  jitter_in_unit env ->
  fails_on_attempts env backoff_factor jitter func_name func (Z.to_nat retries) 0 w ->
  exists w' (us : list (option Q)),
    retry_on_failure env retries backoff_factor jitter func_name func w
      = (Raise (retries_exhausted retries func_name), w') /\
    length us = Z.to_nat retries /\
    delays (trace w') =
      (delays (trace w)
         ++ imap (fun k u => delay_with backoff_factor (Z.of_nat k + 1) u) us)%list /\
    Forall (jitter_ok jitter) us.
Proof.
  intros Hb Hj Hf. unfold retry_on_failure.
  exact (retry_loop_exhausted env retries backoff_factor jitter func_name func
           (Z.to_nat retries) 0 w Hb Hj Hf).
Qed.

Lemma barren_jitter : jitter_in_unit barren_env.
Proof. intros t. simpl. split; [discriminate | reflexivity]. Qed.

Lemma retry_sleeps_after_every_failure_witness :
  exists w' (us : list (option Q)),
    retry_on_failure barren_env 3 2 true "op" boom empty_world
      = (Raise (retries_exhausted 3 "op"), w') /\
    length us = 3%nat /\
    delays (trace w') =
      (delays (trace empty_world)
         ++ imap (fun k u => delay_with 2 (Z.of_nat k + 1) u) us)%list /\
    Forall (jitter_ok true) us.
Proof.
  apply (retry_sleeps_after_every_failure barren_env 3 2 true "op" boom empty_world).
  - lia.
  - exact barren_jitter.
  - apply always_fails_on_attempts, boom_always_fails.
Defined.

Lemma calls_snoc_same c t : calls c (t ++ [EvCall c]) = S (calls c t).
Proof. rewrite calls_app. simpl. rewrite call_eqb_refl. lia. Qed.

(** One failed attempt of a scripted operation followed by the back-off. *)
Lemma scripted_attempt_fails
    (env : environment) (retries backoff_factor : Z) (jitter : bool)
    {A : Type} (name : string) (script : nat -> outcome A)
    (remaining : nat) (attempt : Z) (w : world) (e : exn) :
  0 <= backoff_factor -> jitter_in_unit env ->
  script (calls (CallOp name) (trace w)) = Raise e ->
  exists w1,
    retry_loop env retries backoff_factor jitter name (scripted name script)
      (S remaining) attempt w
    = retry_loop env retries backoff_factor jitter name (scripted name script)
        remaining (attempt + 1) w1 /\
    calls (CallOp name) (trace w1) = S (calls (CallOp name) (trace w)) /\
    length (delays (trace w1)) = S (length (delays (trace w))).
Proof.
  intros Hb Hj He. eexists. split; [|split].
  - simpl. erewrite try_Raise; [|rewrite scripted_runs, He; reflexivity].
    erewrite bind_Ok; [reflexivity|]. apply back_off_runs; assumption.
  - simpl. rewrite calls_app, calls_snoc_same. simpl. lia.
  - simpl. rewrite !delays_app, !length_app. simpl. lia.
Qed.

(** C3 (amended): with [retries = 3], an operation that fails on its first
    two calls and succeeds on the third returns the success value after
    exactly 2 delays and 3 calls; an operation that always fails is called
    exactly 3 times and the wrapper then raises an exception whose message
    is "<name> failed after 3 retries.", whatever the failures were. *)
Theorem retry_three_attempts
    (env : environment) (backoff_factor : Z) (jitter : bool)
    {A : Type} (name : string) (script : nat -> outcome A) (w : world) :
  0 <= backoff_factor ->
  jitter_in_unit env ->
  calls (CallOp name) (trace w) = 0%nat ->
  (forall e1 e2 v,
      script 0%nat = Raise e1 -> script 1%nat = Raise e2 -> script 2%nat = Ok v ->
      exists w',
        retry_on_failure env 3 backoff_factor jitter name (scripted name script) w
          = (Ok v, w') /\
        length (delays (trace w')) = (length (delays (trace w)) + 2)%nat /\
        calls (CallOp name) (trace w') = 3%nat) /\
  ((forall n, exists e, script n = Raise e) ->
      exists w',
        retry_on_failure env 3 backoff_factor jitter name (scripted name script) w
          = (Raise (Exn "Exception" (name ++ " failed after 3 retries.")), w') /\
        length (delays (trace w')) = (length (delays (trace w)) + 3)%nat /\
        calls (CallOp name) (trace w') = 3%nat).
Proof.
  intros Hb Hj H0. unfold retry_on_failure.
  change (Z.to_nat 3) with 3%nat. split.
  - intros e1 e2 v H1 H2 H3.
    destruct (scripted_attempt_fails env 3 backoff_factor jitter name script 2 0 w e1
                Hb Hj) as (w1 & R1 & C1 & D1); [now rewrite H0|].
    destruct (scripted_attempt_fails env 3 backoff_factor jitter name script 1 (0 + 1) w1 e2
                Hb Hj) as (w2 & R2 & C2 & D2); [now rewrite C1, H0|].
    rewrite R1, R2. eexists. split; [|split].
    + simpl. erewrite try_Ok; [reflexivity|].
      rewrite scripted_runs, C2, C1, H0. now rewrite H3.
    + simpl. rewrite delays_app, length_app. simpl. lia.
    + simpl. rewrite calls_snoc_same. lia.
  - intros Hall.
    destruct (Hall 0%nat) as [e1 H1]. destruct (Hall 1%nat) as [e2 H2].
    destruct (Hall 2%nat) as [e3 H3].
    destruct (scripted_attempt_fails env 3 backoff_factor jitter name script 2 0 w e1
                Hb Hj) as (w1 & R1 & C1 & D1); [now rewrite H0|].
    destruct (scripted_attempt_fails env 3 backoff_factor jitter name script 1 (0 + 1) w1 e2
                Hb Hj) as (w2 & R2 & C2 & D2); [now rewrite C1, H0|].
    destruct (scripted_attempt_fails env 3 backoff_factor jitter name script 0 (0 + 1 + 1) w2 e3
                Hb Hj) as (w3 & R3 & C3 & D3); [now rewrite C2, C1, H0|].
    rewrite R1, R2, R3. exists w3. split; [reflexivity|]. split; lia.
Qed.

Lemma retry_three_attempts_witness :
  (forall e1 e2 v,
      (if (0 <? 2)%nat then Raise (Exn "Exception" "boom") else Ok 42) = Raise e1 ->
      (if (1 <? 2)%nat then Raise (Exn "Exception" "boom") else Ok 42) = Raise e2 ->
      (if (2 <? 2)%nat then Raise (Exn "Exception" "boom") else Ok 42) = Ok v ->
      exists w',
        retry_on_failure barren_env 3 2 true "op" third_time_lucky empty_world
          = (Ok v, w') /\
        length (delays (trace w')) = (length (delays (trace empty_world)) + 2)%nat /\
        calls (CallOp "op") (trace w') = 3%nat) /\
  exists w',
    retry_on_failure barren_env 3 2 true "op" third_time_lucky empty_world = (Ok 42, w') /\
    length (delays (trace w')) = 2%nat /\
    calls (CallOp "op") (trace w') = 3%nat.
Proof.
  pose proof (retry_three_attempts barren_env 2 true "op"
                (fun n => if (n <? 2)%nat then Raise (Exn "Exception" "boom") else Ok 42)
                empty_world ltac:(lia) barren_jitter eq_refl) as [Hflaky _].
  split; [exact Hflaky|].
  exact (Hflaky (Exn "Exception" "boom") (Exn "Exception" "boom") 42
           eq_refl eq_refl eq_refl).
Defined.

(** C3, as stated, fails: the exception raised on exhaustion does not carry
    the description of the last failure. *)
Lemma exhaustion_drops_last_failure :
  exists raised w',
    retry_on_failure barren_env 3 2 true "op" boom empty_world = (Raise raised, w') /\
    ~ carries_description raised (Exn "Exception" "boom").
Proof.
  eexists _, _. split; [vm_compute; reflexivity|].
  unfold carries_description. vm_compute. discriminate.
Qed.

(** ** The retention sweeper *)

Lemma keep_idem now (o : option node) :
  (o ≫= keep now) ≫= keep now = o ≫= keep now.
Proof.
  destruct o as [n|]; [|reflexivity]. simpl. unfold keep.
  destruct (expired now n) eqn:E; simpl; [reflexivity|]. now rewrite E.
Qed.

(** The inner loop body on a name of the folder. *)
Lemma cleanup_file_runs now folder file w files :
  fs w !! folder = Some (Folder files) ->
  exists w' files',
    cleanup_file now folder file w = (Ok tt, w') /\
    fs w' = <[folder := Folder files']> (fs w) /\
    forall k, files' !! k
              = if decide (k = file) then files !! k ≫= keep now else files !! k.
Proof.
  intros Hf. unfold cleanup_file.
  unfold os_path_isfile, os_path_getmtime, os_remove, logging, emit, lookup_node,
    path_join, mbind, prog_bind, bind, mret, prog_ret, ret. simpl. rewrite Hf.
  destruct (files !! file) as [[m c|]|] eqn:E; simpl.
  - rewrite Hf. rewrite E. destruct (timedelta_days 5 <? now - m) eqn:Ho.
    + rewrite Hf, E. simpl. eexists _, (delete file files). split; [reflexivity|].
      split; [reflexivity|]. intros k. destruct (decide (k = file)) as [->|Hne].
      * rewrite lookup_delete_eq, E. simpl. unfold keep. simpl. now rewrite Ho.
      * now rewrite lookup_delete_ne.
    + exists w, files. split; [reflexivity|]. split; [now rewrite insert_id|].
      intros k. destruct (decide (k = file)) as [->|Hne]; [|reflexivity].
      rewrite E. simpl. unfold keep. simpl. now rewrite Ho.
  - exists w, files. split; [reflexivity|]. split; [now rewrite insert_id|].
    intros k. destruct (decide (k = file)) as [->|Hne]; [|reflexivity].
    now rewrite E.
  - exists w, files. split; [reflexivity|]. split; [now rewrite insert_id|].
    intros k. destruct (decide (k = file)) as [->|Hne]; [|reflexivity].
    now rewrite E.
Qed.

(** The inner loop over a list of names. *)
Lemma cleanup_files_run now folder l : forall w files,
  fs w !! folder = Some (Folder files) ->
  exists w' files',
    for_each l (cleanup_file now folder) w = (Ok tt, w') /\
    fs w' = <[folder := Folder files']> (fs w) /\
    forall k, files' !! k
              = if decide (k ∈ l) then files !! k ≫= keep now else files !! k.
Proof.
  induction l as [|a l IH]; intros w files Hf.
  - exists w, files. split; [reflexivity|]. split; [now rewrite insert_id|].
    intros k. destruct (decide (k ∈ [])) as [Hin|_]; [|reflexivity].
    now apply not_elem_of_nil in Hin.
  - destruct (cleanup_file_runs now folder a w files Hf) as (w1 & files1 & R1 & F1 & L1).
    assert (Hf1 : fs w1 !! folder = Some (Folder files1))
      by (rewrite F1; apply lookup_insert_eq).
    destruct (IH w1 files1 Hf1) as (w' & files' & R & F & L).
    exists w', files'. split; [|split].
    + simpl. erewrite bind_Ok; [exact R | exact R1].
    + rewrite F, F1. apply insert_insert_eq.
    + intros k. rewrite L, L1.
      destruct (decide (k ∈ l)) as [Hl|Hl]; destruct (decide (k = a)) as [->|Hne];
        destruct (decide (_ ∈ a :: l)) as [Hal|Hal]; try reflexivity.
      * apply keep_idem.
      * exfalso. apply Hal. now right.
      * exfalso. apply Hal. now right.
      * exfalso. apply Hal. now left.
      * apply elem_of_cons in Hal as [?|?]; contradiction.
Qed.

Lemma elem_of_listing {V} (m : gmap string V) k :
  k ∈ (map_to_list m).*1 <-> is_Some (m !! k).
Proof.
  rewrite list_elem_of_fmap. split.
  - intros ([k' v] & -> & Hin). apply elem_of_map_to_list in Hin. simpl. eauto.
  - intros [v Hv]. exists (k, v). split; [reflexivity|]. now apply elem_of_map_to_list.
Qed.

Lemma listing_nil {V} (m : gmap string V) :
  (map_to_list m).*1 = [] <-> m = ∅.
Proof.
  split.
  - intros H. apply fmap_nil_inv in H. now apply map_to_list_empty_iff.
  - intros ->. now rewrite map_to_list_empty.
Qed.

(** The outer loop body on an entry of the download folder. *)
Lemma cleanup_folder_runs now folder w :
  exists w',
    cleanup_folder now folder w = (Ok tt, w') /\
    fs w' = match fs w !! folder with
            | Some (Folder files) =>
                if decide (swept now files = ∅) then delete folder (fs w)
                else <[folder := Folder (swept now files)]> (fs w)
            | _ => fs w
            end.
Proof.
  unfold cleanup_folder.
  destruct (fs w !! folder) as [[files|m c]|] eqn:Hf.
  - destruct (cleanup_files_run now folder (map_to_list files).*1 w files Hf)
      as (w1 & files1 & R1 & F1 & L1).
    assert (Hsw : files1 = swept now files).
    { apply map_eq. intros k. rewrite L1. unfold swept. rewrite lookup_omap.
      destruct (decide (k ∈ (map_to_list files).*1)) as [Hin|Hin]; [reflexivity|].
      rewrite elem_of_listing in Hin.
      destruct (files !! k) eqn:E; [|reflexivity]. exfalso. apply Hin. eauto. }
    subst files1.
    assert (Hf1 : fs w1 !! folder = Some (Folder (swept now files)))
      by (rewrite F1; apply lookup_insert_eq).
    unfold os_path_isdir, os_listdir, locate, os_rmdir, mbind, prog_bind, bind, mret,
      prog_ret, ret. rewrite Hf. simpl. rewrite Hf, R1, Hf1.
    destruct ((map_to_list (swept now files)).*1) as [|x l] eqn:El.
    + apply listing_nil in El. rewrite Hf1.
      destruct (decide (swept now files = ∅)) as [He|He]; [|contradiction].
      eexists. split; [reflexivity|]. simpl. rewrite F1. apply delete_insert_eq.
    + destruct (decide (swept now files = ∅)) as [He|He].
      * apply listing_nil in He. rewrite He in El. discriminate.
      * exists w1. split; [reflexivity|]. exact F1.
  - exists w. unfold os_path_isdir, mbind, prog_bind, bind, mret, prog_ret, ret.
    rewrite Hf. split; reflexivity.
  - exists w. unfold os_path_isdir, mbind, prog_bind, bind, mret, prog_ret, ret.
    rewrite Hf. split; reflexivity.
Qed.

Lemma cleanup_folders_run now l : forall w,
  NoDup l ->
  exists w',
    for_each l (cleanup_folder now) w = (Ok tt, w') /\
    forall k, fs w' !! k
              = if decide (k ∈ l) then sweep_entry now (fs w !! k) else fs w !! k.
Proof.
  induction l as [|a l IH]; intros w Hnd.
  - exists w. split; [reflexivity|]. intros k.
    destruct (decide (k ∈ [])) as [Hin|_]; [|reflexivity].
    now apply not_elem_of_nil in Hin.
  - apply NoDup_cons in Hnd as [Ha Hnd].
    destruct (cleanup_folder_runs now a w) as (w1 & R1 & F1).
    destruct (IH w1 Hnd) as (w' & R & L).
    assert (L1 : forall k, fs w1 !! k
                          = if decide (k = a) then sweep_entry now (fs w !! k)
                            else fs w !! k).
    { intros k. rewrite F1. destruct (decide (k = a)) as [->|Hne].
      - unfold sweep_entry. destruct (fs w !! a) as [[files|m c]|] eqn:E;
          [|now rewrite E|now rewrite E].
        destruct (decide (swept now files = ∅));
          [apply lookup_delete_eq | apply lookup_insert_eq].
      - destruct (fs w !! a) as [[files|m c]|]; try reflexivity.
        destruct (decide (swept now files = ∅));
          [now apply lookup_delete_ne | now apply lookup_insert_ne]. }
    exists w'. split.
    + simpl. erewrite bind_Ok; [exact R | exact R1].
    + intros k. rewrite L, L1.
      destruct (decide (k ∈ l)) as [Hl|Hl]; destruct (decide (k = a)) as [->|Hne];
        destruct (decide (_ ∈ a :: l)) as [Hal|Hal]; try reflexivity;
        try contradiction.
      * exfalso. apply Hal. now right.
      * exfalso. apply Hal. now left.
      * apply elem_of_cons in Hal as [?|?]; contradiction.
Qed.

Lemma base_exists_of_entry w k e : fs w !! k = Some e -> base_exists w = true.
Proof.
  intros H. unfold base_exists. apply orb_true_iff. right.
  apply negb_true_iff, bool_decide_eq_false. intros He.
  rewrite He, lookup_empty in H. discriminate H.
Qed.

Lemma base_missing_empty w : base_exists w = false -> fs w = ∅.
Proof.
  unfold base_exists. intros H. apply orb_false_iff in H as [_ H].
  apply negb_false_iff, bool_decide_eq_true in H. exact H.
Qed.

(** Once the download folder exists, a whole cycle ends normally and sweeps
    every entry. *)
Lemma cleanup_cycle_runs now w :
  base_exists w = true ->
  exists w',
    cleanup_cycle now w = (Ok tt, w') /\
    forall k, fs w' !! k = sweep_entry now (fs w !! k).
Proof.
  intros Hbase.
  destruct (cleanup_folders_run now (map_to_list (fs w)).*1 w) as (w' & R & L).
  { apply NoDup_fst_map_to_list. }
  exists w'. split.
  - unfold cleanup_cycle, os_listdir_base, mbind, prog_bind, bind. rewrite Hbase.
    exact R.
  - intros k. rewrite L.
    destruct (decide (k ∈ (map_to_list (fs w)).*1)) as [Hin|Hin]; [reflexivity|].
    rewrite elem_of_listing in Hin.
    destruct (fs w !! k) eqn:E; [|reflexivity]. exfalso. apply Hin. eauto.
Qed.

(** Without the download folder, the listing raises and nothing happens. *)
Lemma cleanup_cycle_without_base now w :
  base_exists w = false ->
  cleanup_cycle now w = (Raise FileNotFoundError, w).
Proof.
  intros Hbase. unfold cleanup_cycle, os_listdir_base, mbind, prog_bind, bind.
  now rewrite Hbase.
Qed.

(** Either way, this is what a cycle leaves of each entry. *)
Lemma cleanup_cycle_lookup now w k :
  fs (cleanup_cycle now w).2 !! k = sweep_entry now (fs w !! k).
Proof.
  destruct (base_exists w) eqn:Hbase.
  - destruct (cleanup_cycle_runs now w Hbase) as (w' & R & L). rewrite R. apply L.
  - rewrite (cleanup_cycle_without_base now w Hbase). cbn [snd].
    now rewrite (base_missing_empty w Hbase), lookup_empty.
Qed.

(** C4: in a sweeper cycle, a file of a session folder is deleted exactly
    when its age (now minus last-modified time) is strictly more than five
    days, nothing else in the folder is touched, and the folder itself is
    deleted exactly when it is empty once its files have been evaluated.  A
    file six days old is deleted, a file four days old is retained. *)
Theorem cleanup_cycle_retention (now : Z) (w : world) (folder : string)
    (files : gmap string node) :
  fs w !! folder = Some (Folder files) ->
  exists w' (files' : gmap string node),
    cleanup_cycle now w = (Ok tt, w') /\
    (forall file mtime content,
        files !! file = Some (RegularFile mtime content) ->
        (files' !! file = None <-> timedelta_days 5 < now - mtime) /\
        (~ timedelta_days 5 < now - mtime ->
         files' !! file = Some (RegularFile mtime content))) /\
    (forall file, files !! file = Some SubDirectory -> files' !! file = Some SubDirectory) /\
    (forall file, files !! file = None -> files' !! file = None) /\
    (fs w' !! folder = None <-> files' = ∅) /\
    (files' ≠ ∅ -> fs w' !! folder = Some (Folder files')) /\
    (forall file content,
        files !! file = Some (RegularFile (now - timedelta_days 6) content) ->
        files' !! file = None) /\
    (forall file content,
        files !! file = Some (RegularFile (now - timedelta_days 4) content) ->
        files' !! file = Some (RegularFile (now - timedelta_days 4) content)).
Proof.
  intros Hf.
  destruct (cleanup_cycle_runs now w (base_exists_of_entry w folder _ Hf))
    as (w' & R & L).
  exists w', (swept now files). split; [exact R|].
  assert (Hreg : forall file mtime content,
             files !! file = Some (RegularFile mtime content) ->
             swept now files !! file
             = if timedelta_days 5 <? now - mtime then None
               else Some (RegularFile mtime content)).
  { intros file mtime content E. unfold swept. rewrite lookup_omap, E. reflexivity. }
  assert (Hfolder : fs w' !! folder
                    = if decide (swept now files = ∅) then None
                      else Some (Folder (swept now files))).
  { rewrite L, Hf. reflexivity. }
  repeat split.
  - intros Hnone. rewrite (Hreg _ _ _ H) in Hnone.
    destruct (timedelta_days 5 <? now - mtime) eqn:E; [lia | discriminate].
  - intros Hold. rewrite (Hreg _ _ _ H).
    destruct (timedelta_days 5 <? now - mtime) eqn:E; [reflexivity | lia].
  - intros Hyoung. rewrite (Hreg _ _ _ H).
    destruct (timedelta_days 5 <? now - mtime) eqn:E; [lia | reflexivity].
  - intros file E. unfold swept. rewrite lookup_omap, E. reflexivity.
  - intros file E. unfold swept. rewrite lookup_omap, E. reflexivity.
  - rewrite Hfolder. destruct (decide (swept now files = ∅)); [trivial | discriminate].
  - intros He. rewrite Hfolder. destruct (decide (swept now files = ∅));
      [reflexivity | contradiction].
  - intros Hne. rewrite Hfolder. destruct (decide (swept now files = ∅));
      [contradiction | reflexivity].
  - intros file content E. rewrite (Hreg _ _ _ E).
    destruct (timedelta_days 5 <? now - (now - timedelta_days 6)) eqn:Ho; [reflexivity|].
    unfold timedelta_days in Ho. lia.
  - intros file content E. rewrite (Hreg _ _ _ E).
    destruct (timedelta_days 5 <? now - (now - timedelta_days 4)) eqn:Ho; [|reflexivity].
    unfold timedelta_days in Ho. lia.
Qed.

Lemma cleanup_cycle_retention_witness :
  fs aged_world !! "s1" = Some (Folder aged_files) /\
  exists w' (files' : gmap string node),
    cleanup_cycle ten_days aged_world = (Ok tt, w') /\
    files' !! "old.mp3" = None /\
    files' !! "new.mp3" = Some (RegularFile (ten_days - timedelta_days 4) "new") /\
    fs w' !! "s1" = Some (Folder files').
Proof.
  split; [reflexivity|].
  destruct (cleanup_cycle_retention ten_days aged_world "s1" aged_files eq_refl)
    as (w' & files' & R & _ & _ & _ & _ & Hkeep & Hold & Hnew).
  exists w', files'. split; [exact R|].
  assert (Hn : files' !! "new.mp3"
               = Some (RegularFile (ten_days - timedelta_days 4) "new"))
    by (apply Hnew; reflexivity).
  split; [apply (Hold "old.mp3" "old"); reflexivity|].
  split; [exact Hn|].
  apply Hkeep. intros He. rewrite He in Hn. discriminate.
Defined.

(** The same cycle, evaluated. *)
Example cleanup_cycle_aged :
  let w' := (cleanup_cycle ten_days aged_world).2 in
  lookup_node ("s1", "old.mp3") (fs w') = None /\
  lookup_node ("s1", "new.mp3") (fs w')
    = Some (RegularFile (ten_days - timedelta_days 4) "new") /\
  trace w' = [EvLog INFO "Deleted old file: ./downloads/s1/old.mp3"].
Proof. vm_compute. repeat split. Qed.

(** ** The session store *)

Lemma filter_mp3_spec (names : list string) f :
  f ∈ List.filter (fun f => endswith f ".mp3") names
  <-> f ∈ names /\ endswith f ".mp3" = true.
Proof.
  rewrite !list_elem_of_In.
  exact (List.filter_In (fun f => endswith f ".mp3") f names).
Qed.

Lemma locate_folder w name files :
  fs w !! name = Some (Folder files) -> locate name w = Directory files.
Proof. intros H. unfold locate. now rewrite H. Qed.

Lemma locate_plain_file w name mtime content :
  fs w !! name = Some (PlainFile mtime content) -> locate name w = NotDirectory.
Proof. intros H. unfold locate. now rewrite H. Qed.

Lemma locate_missing w name :
  fs w !! name = None -> entry_name name = true -> locate name w = Missing.
Proof.
  intros H Hname. unfold entry_name in Hname.
  apply andb_true_iff in Hname as [Hname Hup].
  apply andb_true_iff in Hname as [Hname Hdot].
  apply andb_true_iff in Hname as [_ Hempty].
  apply negb_true_iff in Hup, Hdot, Hempty.
  unfold locate. rewrite H, Hempty, Hdot, Hup. now destruct (base_exists w).
Qed.

Lemma list_files_missing w user_id :
  locate user_id w = Missing -> list_files user_id w = (Ok session_not_found, w).
Proof.
  intros H. unfold list_files, os_path_exists, mbind, prog_bind, bind. now rewrite H.
Qed.

Lemma list_files_at w user_id contents :
  locate user_id w = Directory contents ->
  list_files user_id w
  = (Ok (Jsonify [("files",
                   JList (List.filter (fun f => endswith f ".mp3")
                            (map_to_list contents).*1))]), w).
Proof.
  intros H. unfold list_files, os_path_exists, os_listdir, mbind, prog_bind, bind.
  rewrite H. simpl. now rewrite H.
Qed.


(** The listing of the spec's example folder, evaluated. *)
Example list_files_mixed :
  exists l,
    list_files "s1" mixed_world = (Ok (Jsonify [("files", JList l)]), mixed_world) /\
    l ≡ₚ ["a.mp3"; "b.mp3"] /\
    list_files "s2" mixed_world = (Ok session_not_found, mixed_world).
Proof.
  eexists. split; [vm_compute; reflexivity|]. split; [|vm_compute; reflexivity].
  reflexivity.
Qed.

Lemma zip_folder_at user_folder contents w :
  locate user_folder w = Directory contents ->
  forall names zip,
    (forall f, f ∈ names -> is_Some (contents !! f)) ->
    zip_folder user_folder names zip w
    = (Ok (zip ++ omap (archive_member contents) names)%list, w).
Proof.
  intros Hf. induction names as [|f names IH]; intros zip Hall.
  - simpl. now rewrite app_nil_r.
  - assert (Hrest : forall g, g ∈ names -> is_Some (contents !! g))
      by (intros g Hg; apply Hall; now right).
    destruct (Hall f) as [n Hn]; [now left|].
    simpl. unfold archive_member at 1. destruct (endswith f ".mp3").
    + unfold mbind, prog_bind, bind, zip_write, path_join. simpl.
      rewrite Hf, Hn. destruct n as [m c|]; rewrite IH by exact Hrest;
        now rewrite <- app_assoc.
    + now apply IH.
Qed.

Lemma download_all_missing w user_id :
  locate user_id w = Missing -> download_all user_id w = (Ok session_not_found, w).
Proof.
  intros H. unfold download_all, os_path_exists, mbind, prog_bind, bind. now rewrite H.
Qed.

Lemma download_all_at w user_id contents :
  locate user_id w = Directory contents ->
  download_all user_id w
  = (Ok (SendFile (omap (archive_member contents) (map_to_list contents).*1) true
           (user_id ++ "_songs.zip") "application/zip"), w).
Proof.
  intros Hf. unfold download_all, os_path_exists, os_listdir, mbind, prog_bind, bind.
  rewrite Hf. simpl. rewrite Hf.
  rewrite (zip_folder_at user_id contents w Hf); [reflexivity|].
  intros f. apply elem_of_listing.
Qed.

Lemma download_all_runs w user_id files :
  fs w !! user_id = Some (Folder files) ->
  download_all user_id w
  = (Ok (SendFile (omap (archive_member files) (map_to_list files).*1) true
           (user_id ++ "_songs.zip") "application/zip"), w).
Proof. intros Hf. apply download_all_at. now apply locate_folder. Qed.


(** The archive of the spec's example folder, evaluated: both tracks, the
    raw file left out, the folder untouched. *)
Example download_all_mixed :
  exists zip,
    download_all "s1" mixed_world
    = (Ok (SendFile zip true "s1_songs.zip" "application/zip"), mixed_world) /\
    zip ≡ₚ [("a.mp3", "A"); ("b.mp3", "B")] /\
    download_all "s2" mixed_world = (Ok session_not_found, mixed_world).
Proof.
  eexists. split; [vm_compute; reflexivity|]. split; [|vm_compute; reflexivity].
  reflexivity.
Qed.

(** C10: for a session folder that exists but holds no name ending in
    ".mp3", [download_all] sends an archive without members, not the
    not-found envelope and not an error. *)
Theorem download_all_empty_archive (w : world) (user_id : string)
    (files : gmap string node) :
  fs w !! user_id = Some (Folder files) ->
  (forall f, is_Some (files !! f) -> endswith f ".mp3" = false) ->
  download_all user_id w
  = (Ok (SendFile [] true (user_id ++ "_songs.zip") "application/zip"), w).
Proof.
  intros Hf Hnone. rewrite (download_all_runs w user_id files Hf).
  assert (Hempty : forall names,
             (forall f, f ∈ names -> is_Some (files !! f)) ->
             omap (archive_member files) names = []).
  { induction names as [|f names IH]; intros Hall; [reflexivity|].
    simpl. unfold archive_member at 1. rewrite Hnone by (apply Hall; now left).
    apply IH. intros g Hg. apply Hall. now right. }
  rewrite Hempty; [reflexivity|]. intros f. apply elem_of_listing.
Qed.

Lemma download_all_empty_archive_witness :
  download_all "s1" raw_world
  = (Ok (SendFile [] true ("s1" ++ "_songs.zip") "application/zip"), raw_world).
Proof.
  apply (download_all_empty_archive raw_world "s1"
           (<["a.webm" := RegularFile 0 "raw"]> ∅)).
  - reflexivity.
  - intros f [n Hn]. destruct (decide (f = "a.webm")) as [->|Hne]; [reflexivity|].
    rewrite lookup_insert_ne in Hn by congruence. rewrite lookup_empty in Hn.
    discriminate.
Defined.

(** ** Transcoding *)

Lemma write_file_spec p mtime content w :
  (exists e, write_file p mtime content w = (Raise e, w)) \/
  (exists w',
      write_file p mtime content w = (Ok tt, w') /\
      trace w' = trace w /\
      lookup_node p (fs w') = Some (RegularFile mtime content) /\
      forall q, q ≠ p -> lookup_node q (fs w') = lookup_node q (fs w)).
Proof.
  destruct p as [d f]. unfold write_file. simpl.
  assert (Hput : forall files,
             (forall g, match fs w !! d with
                        | Some (Folder fl) => fl !! g
                        | _ => None
                        end = files !! g) ->
             let w' := World (<[d := Folder (<[f := RegularFile mtime content]> files)]> (fs w))
                         (trace w) (base_dir w) (cwd w) in
             trace w' = trace w /\
             lookup_node (d, f) (fs w') = Some (RegularFile mtime content) /\
             forall q, q ≠ (d, f) -> lookup_node q (fs w') = lookup_node q (fs w)).
  { intros files Hfiles w'. split; [reflexivity|]. split.
    - unfold lookup_node. simpl. rewrite lookup_insert_eq. apply lookup_insert_eq.
    - intros [d' f'] Hne. unfold lookup_node. simpl.
      destruct (decide (d' = d)) as [->|Hd].
      + rewrite lookup_insert_eq, lookup_insert_ne by congruence.
        symmetry. apply Hfiles.
      + now rewrite lookup_insert_ne by congruence. }
  destruct (fs w !! d) as [[files|m c]|] eqn:Hd.
  - destruct (files !! f) as [[m c|]|] eqn:Hf.
    + right. eexists. split; [reflexivity|]. apply Hput. reflexivity.
    + left. eauto.
    + right. eexists. split; [reflexivity|]. apply Hput. reflexivity.
  - left. eauto.
  - right. eexists. split; [reflexivity|]. apply Hput. intros g.
    symmetry. apply lookup_empty.
Qed.

Lemma os_remove_spec p w mtime content :
  lookup_node p (fs w) = Some (RegularFile mtime content) ->
  exists w',
    os_remove p w = (Ok tt, w') /\
    trace w' = trace w /\
    lookup_node p (fs w') = None /\
    forall q, q ≠ p -> lookup_node q (fs w') = lookup_node q (fs w).
Proof.
  destruct p as [d f]. unfold lookup_node, os_remove. simpl. intros H.
  destruct (fs w !! d) as [[files|m c]|] eqn:Hd; try discriminate.
  rewrite H. eexists. split; [reflexivity|]. split; [reflexivity|]. simpl. split.
  - rewrite lookup_insert_eq. apply lookup_delete_eq.
  - intros [d' f'] Hne. simpl. destruct (decide (d' = d)) as [->|Hd'].
    + rewrite lookup_insert_eq, Hd. apply lookup_delete_ne. congruence.
    + now rewrite lookup_insert_ne by congruence.
Qed.

(** Decoding reads the file and leaves the folder alone. *)
Lemma from_file_spec env p w :
  match AudioSegment_from_file env p w with
  | (Ok _, w1) =>
      fs w1 = fs w /\ exists mtime content,
        lookup_node p (fs w) = Some (RegularFile mtime content)
  | (Raise _, w1) => fs w1 = fs w
  end.
Proof.
  unfold AudioSegment_from_file, history, emit, read_file, lift, mbind, prog_bind, bind.
  simpl. destruct (lookup_node p (fs w)) as [[m c|]|]; try reflexivity.
  destruct (audio_from_file env (trace w) c); simpl; eauto.
Qed.

(** Opening the output file empties it, or raises and changes nothing. *)
Lemma open_write_spec p mtime content w :
  (exists e, open_write p mtime content w = (Raise e, w)) \/
  (exists files,
      fs w !! p.1 = Some (Folder files) /\
      open_write p mtime content w
      = (Ok tt, World (<[p.1 := Folder (<[p.2 := RegularFile mtime content]> files)]> (fs w))
                  (trace w) (base_dir w) (cwd w))).
Proof.
  unfold open_write, write_file.
  destruct (fs w !! p.1) as [[files|m c]|] eqn:Hd; [| left; eauto | left; eauto].
  destruct (files !! p.2) as [[m c|]|] eqn:Hf; [right | left | right]; eauto.
Qed.

(** Encoding writes the output file when it succeeds; when it fails, the
    folder is as before, except that the output file may have been
    emptied. *)
Lemma export_spec env audio p w :
  match AudioSegment_export env audio p w with
  | (Ok _, w1) =>
      (exists mtime content, lookup_node p (fs w1) = Some (RegularFile mtime content)) /\
      forall q, q ≠ p -> lookup_node q (fs w1) = lookup_node q (fs w)
  | (Raise _, w1) =>
      fs w1 = fs w \/
      exists files mtime,
        fs w !! p.1 = Some (Folder files) /\
        fs w1 = <[p.1 := Folder (<[p.2 := RegularFile mtime ""]> files)]> (fs w)
  end.
Proof.
  unfold AudioSegment_export, history, emit, lift, mbind, prog_bind, bind. simpl.
  set (w0 := World (fs w) (trace w ++ [EvCall (CallExport p)]) (base_dir w) (cwd w)).
  destruct (open_write_spec p (clock env (trace w)) "" w0) as [[e He]|(files & Hd & Hw)].
  - rewrite He. now left.
  - rewrite Hw. simpl in Hd.
    destruct (audio_export env (trace w) audio) as [encoded|e]; [|right; eauto].
    match goal with |- context [write_file _ _ _ ?w1] =>
      destruct (write_file_spec p (clock env (trace w)) encoded w1)
        as [[e He]|(w' & Hw' & _ & Hp & Hq)] end.
    + exfalso. revert He. unfold write_file. simpl.
      rewrite !lookup_insert_eq. discriminate.
    + rewrite Hw'. split; [eauto|]. intros [d f] Hne. rewrite Hq by exact Hne.
      unfold lookup_node. simpl. destruct p as [d0 f0]. simpl in *.
      destruct (decide (d = d0)) as [->|Hdd].
      * rewrite lookup_insert_eq, Hd. apply lookup_insert_ne. congruence.
      * now rewrite lookup_insert_ne by congruence.
Qed.

(** A failed export leaves every other path as it was. *)
Lemma export_failure_frame (root root' : gmap string entry) p :
  (root' = root \/
   exists files mtime,
     root !! p.1 = Some (Folder files) /\
     root' = <[p.1 := Folder (<[p.2 := RegularFile mtime ""]> files)]> root) ->
  forall q, q ≠ p -> lookup_node q root' = lookup_node q root.
Proof.
  intros [->|(files & mtime & Hd & ->)] [d f] Hne; [reflexivity|].
  destruct p as [d0 f0]. unfold lookup_node. simpl in *.
  destruct (decide (d = d0)) as [->|Hdd].
  - rewrite lookup_insert_eq, Hd. apply lookup_insert_ne. congruence.
  - now rewrite lookup_insert_ne by congruence.
Qed.

(** C6 (amended): [convert_to_mp3] never raises.  When decoding and
    encoding both succeed, the raw input file is gone and the MP3 is in the
    folder.  When decoding fails, the error is logged and the folder is
    exactly as before.  When encoding fails, the error is logged and the
    raw file is not removed, but the output file has been opened for
    writing by then: the folder is as before, or as before with an empty
    file under the MP3 name. *)
Theorem convert_to_mp3_outcomes (env : environment) (input_file : path)
    (query output_dir : string) (w : world) :
  let mp3_output_path := path_join output_dir (query ++ ".mp3") in
  let started :=
    World (fs w) (trace w ++ [EvLog INFO ("Converting " ++ query ++ " to MP3...")])
      (base_dir w) (cwd w) in
  let failure e := EvLog ERROR ("Error converting " ++ query ++ " to MP3: " ++ exn_msg e) in
  exists w',
    convert_to_mp3 env input_file query output_dir w = (Ok tt, w') /\
    match AudioSegment_from_file env input_file started with
    | (Raise e, _) => fs w' = fs w /\ last (trace w') = Some (failure e)
    | (Ok audio, w1) =>
        match AudioSegment_export env audio mp3_output_path w1 with
        | (Raise e, _) =>
            last (trace w') = Some (failure e) /\
            (fs w' = fs w \/
             exists files mtime,
               fs w !! output_dir = Some (Folder files) /\
               fs w' = <[output_dir :=
                           Folder (<[query ++ ".mp3" := RegularFile mtime ""]> files)]>
                         (fs w)) /\
            (forall q, q ≠ mp3_output_path ->
                       lookup_node q (fs w') = lookup_node q (fs w))
        | (Ok _, _) =>
            lookup_node input_file (fs w') = None /\
            (input_file ≠ mp3_output_path ->
             exists mtime content,
               lookup_node mp3_output_path (fs w') = Some (RegularFile mtime content)) /\
            last (trace w')
            = Some (EvLog INFO ("Converted " ++ query ++ " to MP3 successfully."))
        end
    end.
Proof.
  intros mp3 started failure. unfold convert_to_mp3.
  assert (Hlog : logging INFO ("Converting " ++ query ++ " to MP3...") w = (Ok tt, started))
    by reflexivity.
  pose proof (from_file_spec env input_file started) as Hdec.
  destruct (AudioSegment_from_file env input_file started) as [[audio|e] w1] eqn:Edec.
  - destruct Hdec as (Hfs1 & m & c & Hin).
    pose proof (export_spec env audio mp3 w1) as Henc.
    destruct (AudioSegment_export env audio mp3 w1) as [[[]|e] w2] eqn:Eenc.
    + destruct Henc as ((m' & c' & Hmp3) & Hframe).
      assert (Hin2 : exists m2 c2, lookup_node input_file (fs w2) = Some (RegularFile m2 c2)).
      { destruct (decide (input_file = mp3)) as [->|Hne]; [eauto|].
        exists m, c. rewrite Hframe by exact Hne. now rewrite Hfs1. }
      destruct Hin2 as (m2 & c2 & Hin2).
      destruct (os_remove_spec input_file w2 m2 c2 Hin2)
        as (w3 & Hrm & Htr & Hgone & Hrest).
      eexists. split.
      * erewrite try_Ok; [reflexivity|].
        erewrite bind_Ok by exact Hlog. erewrite bind_Ok by exact Edec.
        fold mp3. erewrite bind_Ok by exact Eenc. erewrite bind_Ok by exact Hrm.
        reflexivity.
      * simpl. split; [exact Hgone|]. split.
        -- intros Hne. exists m', c'.
           rewrite Hrest by (intros E; apply Hne; symmetry; exact E). exact Hmp3.
        -- apply last_snoc.
    + eexists. split.
      * erewrite try_Raise; [reflexivity|].
        erewrite bind_Ok by exact Hlog. erewrite bind_Ok by exact Edec.
        fold mp3. erewrite bind_Raise by exact Eenc. reflexivity.
      * change (fs w1 = fs w) in Hfs1. simpl. rewrite <- Hfs1.
        split; [apply last_snoc|]. split; [exact Henc|].
        apply (export_failure_frame (fs w1) (fs w2) mp3). exact Henc.
  - eexists. split.
    + erewrite try_Raise; [reflexivity|].
      erewrite bind_Ok by exact Hlog. erewrite bind_Raise by exact Edec. reflexivity.
    + simpl. split; [exact Hdec|]. apply last_snoc.
Qed.

(** C6, as stated, fails: when the encoder fails, the folder holds the raw
    file and an empty file under the MP3 name. *)
Lemma failed_encoding_leaves_empty_mp3 :
  let w' := (convert_to_mp3 codecless_env ("s1", "Song.webm") "Song" "s1"
               downloaded_world).2 in
  last (trace w') = Some (EvLog ERROR "Error converting Song to MP3: no codec") /\
  lookup_node ("s1", "Song.mp3") (fs downloaded_world) = None /\
  lookup_node ("s1", "Song.webm") (fs w') = Some (RegularFile 0 "raw") /\
  lookup_node ("s1", "Song.mp3") (fs w') = Some (RegularFile 7 "") /\
  ~ converts_or_leaves_no_mp3 codecless_env ("s1", "Song.webm") "Song" "s1"
      downloaded_world.
Proof.
  repeat split; try (vm_compute; reflexivity).
  intros [[H _] | H]; vm_compute in H; discriminate.
Qed.

(** With a working encoder the raw file is replaced by the MP3; with a
    failing decoder the folder is untouched. *)
Example convert_to_mp3_downloaded :
  let w' := (convert_to_mp3 obliging_env ("s1", "Song.webm") "Song" "s1"
               downloaded_world).2 in
  let w'' := (convert_to_mp3 barren_env ("s1", "Song.webm") "Song" "s1"
                downloaded_world).2 in
  lookup_node ("s1", "Song.webm") (fs w') = None /\
  lookup_node ("s1", "Song.mp3") (fs w') = Some (RegularFile 7 "mp3") /\
  lookup_node ("s1", "Song.webm") (fs w'') = Some (RegularFile 0 "raw") /\
  lookup_node ("s1", "Song.mp3") (fs w'') = None.
Proof. vm_compute. repeat split. Qed.

(** ** The pipeline *)

Section RetryCounting.
Context (env : environment) (retries backoff_factor : Z) (jitter : bool).
Context {A : Type} (func_name : string) (func : prog A).
Context (Hb : 0 <= backoff_factor) (Hj : jitter_in_unit env).

#[local] Abbreviation loop := (retry_loop env retries backoff_factor jitter func_name func).

(** An operation that fails the same way in every world, leaving the same
    events behind, is tried [n] times, each followed by one delay. *)
Lemma retry_loop_constant_failure (e : exn) (evs : list event) :
  (forall w, func w = (Raise e, World (fs w) (trace w ++ evs) (base_dir w) (cwd w))) ->
  forall n attempt w,
  exists w',
    loop n attempt w = (Raise (retries_exhausted retries func_name), w') /\
    fs w' = fs w /\
    (forall c, calls c (trace w') = (calls c (trace w) + n * calls c evs)%nat) /\
    length (delays (trace w'))
    = (length (delays (trace w)) + n * (length (delays evs) + 1))%nat.
Proof.
  intros Hfail. induction n as [|n IH]; intros attempt w.
  - exists w. simpl. repeat split; intros; lia.
  - pose proof (back_off_runs env backoff_factor jitter func_name e (attempt + 1)
                  (World (fs w) (trace w ++ evs) (base_dir w) (cwd w)) Hb Hj) as Hback.
    simpl in Hback.
    match type of Hback with _ = (_, ?w1) => destruct (IH (attempt + 1) w1)
      as (w' & R & Hfs & Hc & Hd) end.
    exists w'. split; [|split; [|split]].
    + simpl. rewrite (try_Raise _ _ _ _ _ (Hfail w)).
      rewrite (bind_Ok _ _ _ _ _ Hback). exact R.
    + exact Hfs.
    + intros c. rewrite Hc. simpl. rewrite !calls_app. simpl. lia.
    + rewrite Hd. simpl. rewrite !delays_app, !length_app. simpl. lia.
Qed.

(** When every invocation of the operation makes the call [c] exactly
    once, a wrapper with [n >= 1] attempts makes it between 1 and [n]
    times. *)
Lemma retry_loop_call_bounds (c : call) :
  (forall w, calls c (trace (func w).2) = S (calls c (trace w))) ->
  forall n attempt w,
    (calls c (trace w) + (if n is O then 0 else 1)
     <= calls c (trace (loop n attempt w).2)
     <= calls c (trace w) + n)%nat.
Proof.
  intros Hone. induction n as [|n IH]; intros attempt w.
  - simpl. lia.
  - simpl. unfold try_except. specialize (Hone w).
    destruct (func w) as [[a|e] w1]; simpl in *; [lia|].
    rewrite (bind_Ok _ _ _ _ _ (back_off_runs env backoff_factor jitter func_name e
                                  (attempt + 1) w1 Hb Hj)).
    match goal with |- context [loop n ?a ?w2] => specialize (IH a w2) end.
    simpl in IH. rewrite !calls_app in IH. simpl in IH.
    destruct n; lia.
Qed.
End RetryCounting.

Lemma search_youtube_api_no_results env query w :
  youtube_search_list env (trace w) query = Ok [] ->
  search_youtube_api_wrapped env query w
  = (Raise (Exn "Exception" ("No YouTube results found for '" ++ query ++ "'")),
     World (fs w) (trace w ++ [EvCall (CallYoutubeSearch query)]) (base_dir w) (cwd w)).
Proof.
  intros H. unfold search_youtube_api_wrapped, history, emit, lift, mbind, prog_bind,
    bind. simpl. rewrite H. reflexivity.
Qed.

Lemma search_youtube_yt_dlp_one_call env query w :
  calls (CallExtractInfo query) (trace (search_youtube_yt_dlp_wrapped env query w).2)
  = S (calls (CallExtractInfo query) (trace w)).
Proof.
  unfold search_youtube_yt_dlp_wrapped, logging, history, emit, lift, raise, mbind,
    prog_bind, bind, mret, prog_ret, ret. simpl.
  destruct (ytdl_extract_info env _ _) as [[|url entries]|e]; simpl;
    rewrite !calls_app; simpl; rewrite ?String.eqb_refl; lia.
Qed.

(** C1 (amended): when the primary search returns no result on every call,
    the primary tier is retried like any other failure: 5 calls and 5
    delays before it raises the exhaustion error.  Control then falls to the
    fallback tier, which is entered exactly once and runs the fallback
    search between 1 and 5 times. *)
Theorem primary_without_results_retries_then_falls_back
    (env : environment) (query : string) (w : world) :
  jitter_in_unit env ->
  (forall t, youtube_search_list env t query = Ok []) ->
  exists w1,
    search_youtube_api env query w
    = (Raise (Exn "Exception" "search_youtube_api failed after 5 retries."), w1) /\
    calls (CallYoutubeSearch query) (trace w1)
    = (calls (CallYoutubeSearch query) (trace w) + 5)%nat /\
    length (delays (trace w1)) = (length (delays (trace w)) + 5)%nat /\
    try_except (search_youtube_api env query) (fun _ => search_youtube_yt_dlp env query) w
    = search_youtube_yt_dlp env query w1 /\
    (calls (CallExtractInfo query) (trace w1) + 1
     <= calls (CallExtractInfo query) (trace (search_youtube_yt_dlp env query w1).2)
     <= calls (CallExtractInfo query) (trace w1) + 5)%nat.
Proof.
  intros Hj Hnone.
  destruct (retry_loop_constant_failure env 5 2 true "search_youtube_api"
              (search_youtube_api_wrapped env query) ltac:(lia) Hj
              (Exn "Exception" ("No YouTube results found for '" ++ query ++ "'"))
              [EvCall (CallYoutubeSearch query)]
              (fun w => search_youtube_api_no_results env query w (Hnone (trace w)))
              5%nat 0 w) as (w1 & R & _ & Hc & Hd).
  exists w1. split; [exact R|]. split; [|split; [|split]].
  - rewrite Hc. simpl. rewrite String.eqb_refl. lia.
  - rewrite Hd. simpl. lia.
  - exact (try_Raise (search_youtube_api env query)
             (fun _ => search_youtube_yt_dlp env query) w _ w1 R).
  - exact (retry_loop_call_bounds env 5 2 true "search_youtube_yt_dlp"
             (search_youtube_yt_dlp_wrapped env query) ltac:(lia) Hj
             (CallExtractInfo query) (search_youtube_yt_dlp_one_call env query)
             5%nat 0 w1).
Qed.

Lemma primary_without_results_retries_then_falls_back_witness :
  exists w1,
    search_youtube_api barren_env "Song A Artist X" empty_world
    = (Raise (Exn "Exception" "search_youtube_api failed after 5 retries."), w1) /\
    calls (CallYoutubeSearch "Song A Artist X") (trace w1) = 5%nat /\
    length (delays (trace w1)) = 5%nat.
Proof.
  destruct (primary_without_results_retries_then_falls_back barren_env
              "Song A Artist X" empty_world barren_jitter (fun _ => eq_refl))
    as (w1 & R & Hc & Hd & _).
  exists w1. split; [exact R|]. split; [exact Hc | exact Hd].
Defined.

(** C1, as stated, fails: a primary search without results is not given up
    at once; it is called again after a delay. *)
Lemma primary_without_results_is_retried :
  ~ fails_without_retrying barren_env "Song A Artist X" empty_world.
Proof.
  intros (e & w1 & R & Hc & Hd). vm_compute in R. injection R as <- <-.
  vm_compute in Hc. discriminate.
Qed.

Lemma split_go_nonempty sep s : forall skip cur, split_go sep skip cur s ≠ [].
Proof.
  induction s as [|c s IH]; intros skip cur; cbn [split_go];
    [intros H; discriminate H|].
  destruct skip; [|apply IH].
  destruct (String.prefix sep (String c s)); [intros H; discriminate H | apply IH].
Qed.

(** A reference fails to parse only by lacking the "/playlist/" part. *)
Lemma playlist_id_of_fails playlist_url :
  is_ok (playlist_id_of playlist_url) = false ->
  py_index (py_split "/playlist/" playlist_url) 1
  = Raise (Exn "IndexError" "list index out of range").
Proof.
  unfold playlist_id_of, py_index.
  destruct (nth_error (py_split "/playlist/" playlist_url) 1) as [rest|];
    [|reflexivity].
  unfold py_split. pose proof (split_go_nonempty "?" rest 0 "") as Hne.
  destruct (split_go "?" 0 "" rest); [contradiction | simpl; intros H; discriminate H].
Qed.

Lemma fetch_unparsable env playlist_url w :
  is_ok (playlist_id_of playlist_url) = false ->
  fetch_spotify_playlist_tracks_wrapped env playlist_url w
  = (Raise (Exn "IndexError" "list index out of range"),
     World (fs w) (trace w ++ []) (base_dir w) (cwd w)).
Proof.
  intros H. unfold fetch_spotify_playlist_tracks_wrapped.
  rewrite (playlist_id_of_fails _ H), app_nil_r. now destruct w.
Qed.

(** C5 (amended): for a playlist URL from which no identifier can be
    extracted, the request calls no collaborator and answers with an error
    envelope, after the extraction has been tried 5 times with a delay each;
    the session folder has been created by then. *)
Theorem unparsable_reference_fails_after_session_created
    (env : environment) (playlist_url : string) (w : world) :
  jitter_in_unit env ->
  fs w !! uuid4 env (trace w) = None ->
  is_ok (playlist_id_of playlist_url) = false ->
  exists w',
    index env "POST" playlist_url w
    = (Ok (error_envelope "fetch_spotify_playlist_tracks failed after 5 retries."), w') /\
    fs w' = <[uuid4 env (trace w) := Folder ∅]> (fs w) /\
    (forall c, calls c (trace w') = calls c (trace w)) /\
    length (delays (trace w')) = (length (delays (trace w)) + 5)%nat.
Proof.
  intros Hj Hfresh Hbad.
  set (user_id := uuid4 env (trace w)).
  set (w0 := World (<[user_id := Folder ∅]> (fs w)) (trace w) (base_dir w) (cwd w)).
  assert (Hmk : os_makedirs user_id w = (Ok tt, w0)).
  { unfold os_makedirs. fold user_id in Hfresh. now rewrite Hfresh. }
  destruct (retry_loop_constant_failure env 5 2 true "fetch_spotify_playlist_tracks"
              (fetch_spotify_playlist_tracks_wrapped env playlist_url) ltac:(lia) Hj
              (Exn "IndexError" "list index out of range") []
              (fun w => fetch_unparsable env playlist_url w Hbad)
              5%nat 0 w0) as (w' & R & Hfs & Hc & Hd).
  exists w'. split; [|split; [|split]].
  - unfold index. change (String.eqb "POST" "POST") with true. cbv iota.
    erewrite bind_Ok by reflexivity. erewrite bind_Ok by exact Hmk.
    erewrite try_Raise by (apply bind_Raise; exact R). reflexivity.
  - exact Hfs.
  - intros c. rewrite Hc. simpl. lia.
  - rewrite Hd. simpl. lia.
Qed.

Lemma unparsable_reference_fails_after_session_created_witness :
  exists w',
    index barren_env "POST" "https://open.spotify.com/album/42" empty_world
    = (Ok (error_envelope "fetch_spotify_playlist_tracks failed after 5 retries."), w') /\
    fs w' = <["session-1" := Folder ∅]> ∅ /\
    (forall c, calls c (trace w') = 0%nat) /\
    length (delays (trace w')) = 5%nat.
Proof.
  exact (unparsable_reference_fails_after_session_created barren_env
           "https://open.spotify.com/album/42" empty_world barren_jitter eq_refl eq_refl).
Defined.

(** C5, as stated, fails: a reference that does not parse still has its
    session folder created. *)
Lemma session_created_before_parsing :
  ~ parses_or_fails_before_io barren_env "https://open.spotify.com/album/42" empty_world.
Proof.
  intros [(playlist_id & Hid & _) | [Hfs _]].
  - vm_compute in Hid. discriminate.
  - apply (f_equal (fun m => bool_decide (is_Some (m !! "session-1")))) in Hfs.
    vm_compute in Hfs. discriminate.
Qed.

(** A reference whose identifier part is empty parses, to the empty
    identifier, and the catalogue is asked for it on each of the 5 attempts. *)
Example empty_identifier_reaches_catalogue :
  playlist_id_of "https://open.spotify.com/playlist/?si=1" = Ok "" /\
  calls (CallPlaylistTracks "")
    (trace (index barren_env "POST" "https://open.spotify.com/playlist/?si=1"
              empty_world).2) = 5%nat.
Proof. split; vm_compute; reflexivity. Qed.

(** ** Histories only grow *)

Lemma grows_ret {A} (a : A) : grows (mret a : prog A).
Proof. intros w. exists []. simpl. now rewrite app_nil_r. Qed.

Lemma grows_raise {A} e : grows (raise e : prog A).
Proof. intros w. exists []. simpl. now rewrite app_nil_r. Qed.

Lemma grows_lift {A} (r : outcome A) : grows (lift r).
Proof. intros w. exists []. simpl. now rewrite app_nil_r. Qed.

Lemma grows_emit ev : grows (emit ev).
Proof. intros w. now exists [ev]. Qed.

Lemma grows_bind {A B} (m : prog A) (k : A -> prog B) :
  grows m -> (forall a, grows (k a)) -> grows (m ≫= k).
Proof.
  intros Hm Hk w. unfold mbind, prog_bind, bind. destruct (Hm w) as [s1 H1].
  destruct (m w) as [[a|e] w1]; simpl in *.
  - destruct (Hk a w1) as [s2 H2]. exists (s1 ++ s2)%list.
    now rewrite H2, H1, app_assoc.
  - now exists s1.
Qed.

Lemma grows_history {B} (k : list event -> prog B) :
  (forall t, grows (k t)) -> grows (history ≫= k).
Proof. intros Hk w. exact (Hk (trace w) w). Qed.

Lemma grows_try {A} (body : prog A) handler :
  grows body -> (forall e, grows (handler e)) -> grows (try_except body handler).
Proof.
  intros Hm Hk w. unfold try_except. destruct (Hm w) as [s1 H1].
  destruct (body w) as [[a|e] w1]; simpl in *.
  - now exists s1.
  - destruct (Hk e w1) as [s2 H2]. exists (s1 ++ s2)%list.
    now rewrite H2, H1, app_assoc.
Qed.

Lemma grows_sleep d : grows (sleep d).
Proof. unfold sleep. destruct (Qle_bool 0 d); [apply grows_emit | apply grows_raise]. Qed.

Lemma grows_silent {A} (m : prog A) :
  (forall w, trace (m w).2 = trace w) -> grows m.
Proof. intros H w. exists []. now rewrite H, app_nil_r. Qed.

Lemma grows_read_file p : grows (read_file p).
Proof.
  apply grows_silent. intros w. unfold read_file.
  now destruct (lookup_node p (fs w)) as [[? ?|]|].
Qed.

Lemma grows_write_file p mtime content : grows (write_file p mtime content).
Proof.
  apply grows_silent. intros w. unfold write_file.
  destruct (fs w !! p.1) as [[files|? ?]|]; try reflexivity.
  now destruct (files !! p.2) as [[? ?|]|].
Qed.

Lemma grows_open_write p mtime content : grows (open_write p mtime content).
Proof.
  intros w. unfold open_write.
  destruct (fs w !! p.1); [apply grows_write_file | apply grows_raise].
Qed.

Lemma grows_os_remove p : grows (os_remove p).
Proof.
  apply grows_silent. intros w. unfold os_remove.
  destruct (fs w !! p.1) as [[files|? ?]|]; try reflexivity.
  now destruct (files !! p.2) as [[? ?|]|].
Qed.

Lemma grows_retry_loop env retries backoff_factor jitter {A} func_name (func : prog A) :
  grows func ->
  forall n attempt, grows (retry_loop env retries backoff_factor jitter func_name func n attempt).
Proof.
  intros Hf. induction n as [|n IH]; intros attempt; simpl.
  - apply grows_raise.
  - apply grows_try; [exact Hf|]. intros e. apply grows_bind; [|intros _; apply IH].
    unfold back_off. apply grows_history. intros t.
    apply grows_bind; [apply grows_emit | intros _; apply grows_sleep].
Qed.

Lemma starts_emit {B} ev (k : unit -> prog B) :
  (forall a, grows (k a)) -> starts_with ev (emit ev ≫= k).
Proof.
  intros Hk w. unfold mbind, prog_bind, bind. simpl.
  destruct (Hk tt (World (fs w) (trace w ++ [ev]) (base_dir w) (cwd w))) as [s H].
  exists s. rewrite H. simpl. now rewrite <- app_assoc.
Qed.

Lemma starts_history {B} ev (k : list event -> prog B) :
  (forall t, starts_with ev (k t)) -> starts_with ev (history ≫= k).
Proof. intros Hk w. exact (Hk (trace w) w). Qed.

Lemma starts_bind {A B} ev (m : prog A) (k : A -> prog B) :
  starts_with ev m -> (forall a, grows (k a)) -> starts_with ev (m ≫= k).
Proof.
  intros Hm Hk w. unfold mbind, prog_bind, bind. destruct (Hm w) as [s1 H1].
  destruct (m w) as [[a|e] w1]; simpl in *.
  - destruct (Hk a w1) as [s2 H2]. exists (s1 ++ s2)%list.
    now rewrite H2, H1, <- app_assoc.
  - now exists s1.
Qed.

Lemma starts_try {A} ev (body : prog A) handler :
  starts_with ev body -> (forall e, grows (handler e)) ->
  starts_with ev (try_except body handler).
Proof.
  intros Hm Hk w. unfold try_except. destruct (Hm w) as [s1 H1].
  destruct (body w) as [[a|e] w1]; simpl in *.
  - now exists s1.
  - destruct (Hk e w1) as [s2 H2]. exists (s1 ++ s2)%list.
    now rewrite H2, H1, <- app_assoc.
Qed.

(** Structural steps shared by the proofs below. *)
Ltac grow :=
  repeat first
    [ apply grows_ret | apply grows_raise | apply grows_lift | apply grows_emit
    | apply grows_sleep | apply grows_read_file | apply grows_write_file
    | apply grows_open_write | apply grows_os_remove
    | apply grows_history; intros ?
    | apply grows_bind; [|intros ?]
    | apply grows_try; [|intros ?]
    | match goal with
      | |- grows (match ?x with _ => _ end) => destruct x
      end ].

Lemma grows_search_youtube_api env query : grows (search_youtube_api env query).
Proof.
  apply grows_retry_loop. unfold search_youtube_api_wrapped, logging. grow.
Qed.

Lemma grows_search_youtube_yt_dlp env query : grows (search_youtube_yt_dlp env query).
Proof.
  apply grows_retry_loop. unfold search_youtube_yt_dlp_wrapped, logging. grow.
Qed.

Lemma grows_convert_to_mp3 env input_file query output_dir :
  grows (convert_to_mp3 env input_file query output_dir).
Proof.
  unfold convert_to_mp3, AudioSegment_from_file, AudioSegment_export, logging. grow.
Qed.

Lemma grows_download_song env video_url query output_dir :
  grows (download_song env video_url query output_dir).
Proof.
  apply grows_retry_loop. unfold download_song_wrapped, logging. grow.
Qed.

Lemma starts_retry_loop env retries backoff_factor jitter {A} func_name
    (func : prog A) ev :
  starts_with ev func -> grows func ->
  forall n attempt,
    starts_with ev
      (retry_loop env retries backoff_factor jitter func_name func (S n) attempt).
Proof.
  intros Hs Hg n attempt. simpl. apply starts_try; [exact Hs|]. intros e.
  apply grows_bind; [|intros _; now apply grows_retry_loop].
  unfold back_off. grow.
Qed.

Lemma starts_search_youtube_api env query :
  starts_with (EvCall (CallYoutubeSearch query)) (search_youtube_api env query).
Proof.
  unfold search_youtube_api, retry_on_failure. change (Z.to_nat 5) with 5%nat.
  apply starts_retry_loop.
  - unfold search_youtube_api_wrapped. apply starts_history. intros t.
    apply starts_emit. intros _. unfold logging. grow.
  - unfold search_youtube_api_wrapped, logging. grow.
Qed.

(** An acquisition never raises, and begins with the primary search for
    the track's query. *)
Lemma acquire_track_runs env user_folder t w :
  exists w' rest,
    acquire_track env user_folder t w = (Ok tt, w') /\
    trace w' = (trace w ++ EvCall (CallYoutubeSearch (query_of t)) :: rest)%list.
Proof.
  unfold acquire_track.
  set (body := (try_except (search_youtube_api env (query_of t))
                  (fun _ => search_youtube_yt_dlp env (query_of t)) ≫= fun video_url =>
                download_song env video_url (query_of t) user_folder)).
  assert (Hs : starts_with (EvCall (CallYoutubeSearch (query_of t))) body).
  { apply starts_bind.
    - apply starts_try; [apply starts_search_youtube_api|].
      intros _. apply grows_search_youtube_yt_dlp.
    - intros url. apply grows_download_song. }
  destruct (Hs w) as [rest Hrest]. unfold try_except.
  destruct (body w) as [[[]|e] w1]; simpl in Hrest.
  - now exists w1, rest.
  - eexists _, _. split; [reflexivity|]. simpl. rewrite Hrest.
    rewrite <- app_assoc. reflexivity.
Qed.

Lemma acquire_all env user_folder tracks : forall w,
  exists w' segs,
    for_each tracks (acquire_track env user_folder) w = (Ok tt, w') /\
    w' = foldl (fun w t => (acquire_track env user_folder t w).2) w tracks /\
    trace w' = (trace w ++ concat segs)%list /\
    Forall2 (fun t seg => exists rest,
                 seg = EvCall (CallYoutubeSearch (query_of t)) :: rest) tracks segs.
Proof.
  induction tracks as [|t tracks IH]; intros w.
  - exists w, []. simpl. rewrite app_nil_r. repeat split. constructor.
  - destruct (acquire_track_runs env user_folder t w) as (w1 & rest & R1 & T1).
    destruct (IH w1) as (w' & segs & R & Hfold & T & Hsegs).
    exists w', ((EvCall (CallYoutubeSearch (query_of t)) :: rest) :: segs).
    split; [|split; [|split]].
    + simpl. erewrite bind_Ok by exact R1. exact R.
    + simpl. rewrite R1. exact Hfold.
    + rewrite T, T1. simpl. now rewrite <- app_assoc.
    + constructor; [eauto | exact Hsegs].
Qed.

(** C2: when the catalogue resolution succeeds with the tracks [tracks],
    [index] runs one acquisition per track, in catalogue order (the history
    after the resolution splits into one segment per track, each beginning
    with the primary search for that track), none of them raises, and the
    answer is the success envelope with the session identifier, whatever
    the acquisitions did. *)
Theorem index_attempts_every_track (env : environment) (playlist_url : string)
    (w w0 w1 : world) (tracks : list track) :
  let user_id := uuid4 env (trace w) in
  os_makedirs user_id w = (Ok tt, w0) ->
  fetch_spotify_playlist_tracks env playlist_url w0 = (Ok tracks, w1) ->
  exists w' segs,
    index env "POST" playlist_url w = (Ok (success_envelope user_id), w') /\
    w' = foldl (fun w t => (acquire_track env user_id t w).2) w1 tracks /\
    Forall (fun t => forall w, (acquire_track env user_id t w).1 = Ok tt) tracks /\
    trace w' = (trace w1 ++ concat segs)%list /\
    Forall2 (fun t seg => exists rest,
                 seg = EvCall (CallYoutubeSearch (query_of t)) :: rest) tracks segs.
Proof.
  intros user_id Hmk Hfetch.
  destruct (acquire_all env user_id tracks w1) as (w' & segs & R & Hfold & T & Hsegs).
  exists w', segs. split; [|split; [|split; [|split]]]; try assumption.
  - unfold index. change (String.eqb "POST" "POST") with true. cbv iota.
    erewrite bind_Ok by reflexivity. fold user_id. erewrite bind_Ok by exact Hmk.
    erewrite try_Ok; [reflexivity|].
    erewrite bind_Ok by exact Hfetch. erewrite bind_Ok by exact R. reflexivity.
  - apply Forall_forall. intros t _ w2.
    destruct (acquire_track_runs env user_id t w2) as (w3 & rest & R3 & _).
    now rewrite R3.
Qed.

Lemma index_attempts_every_track_witness :
  exists w' segs,
    index fruitless_env "POST" playlist_link empty_world
    = (Ok (success_envelope "session-1"), w') /\
    length segs = 2%nat /\
    trace w' = (trace (fetch_spotify_playlist_tracks fruitless_env playlist_link
                         (World (<["session-1" := Folder ∅]> ∅) [] false ∅)).2
                  ++ concat segs)%list /\
    fs w' = <["session-1" := Folder ∅]> ∅.
Proof.
  set (w0 := World (<["session-1" := Folder ∅]> ∅) [] false ∅).
  assert (Hfetch : fetch_spotify_playlist_tracks fruitless_env playlist_link w0
                   = (Ok two_tracks,
                      (fetch_spotify_playlist_tracks fruitless_env playlist_link w0).2))
    by (vm_compute; reflexivity).
  destruct (index_attempts_every_track fruitless_env playlist_link empty_world w0 _
              two_tracks eq_refl Hfetch) as (w' & segs & R & Hfold & _ & T & Hsegs).
  exists w', segs. split; [exact R|]. split; [|split; [exact T|]].
  - apply Forall2_length in Hsegs. now rewrite <- Hsegs.
  - rewrite Hfold. vm_compute. reflexivity.
Defined.

(** The spec's end-to-end scenario: "Song A" is found and transcoded, "Song
    B" is found by neither tier; the request succeeds and the session lists
    the one MP3. *)
Example index_partial_playlist :
  let r := index partial_env "POST" playlist_link empty_world in
  r.1 = Ok (success_envelope "session-1") /\
  (list_files "session-1" r.2).1 = Ok (Jsonify [("files", JList ["Song A Artist X.mp3"])]) /\
  calls (CallYoutubeSearch "Song B Artist Y") (trace r.2) = 5%nat /\
  calls (CallExtractInfo "Song B Artist Y") (trace r.2) = 5%nat.
Proof. vm_compute. repeat split. Qed.


(** * Further properties of the code *)

(** ** The retry decorator, in general *)

Section RetryInGeneral.
Context (env : environment) (retries backoff_factor : Z) (jitter : bool).
Context {A : Type} (func_name : string) (func : prog A).

#[local] Abbreviation wrapped_loop :=
  (retry_loop env retries backoff_factor jitter func_name func).

Lemma retry_loop_after_failures k : forall n attempt w,
  0 <= backoff_factor -> jitter_in_unit env ->
  fails_on_attempts env backoff_factor jitter func_name func k attempt w ->
  exists us : list (option Q),
    wrapped_loop (k + n) attempt w
    = wrapped_loop n (attempt + Z.of_nat k)
        (after_failures env backoff_factor jitter func_name func k attempt w) /\
    length us = k /\
    delays (trace (after_failures env backoff_factor jitter func_name func k attempt w)) =
      (delays (trace w)
         ++ imap (fun i u => delay_with backoff_factor (attempt + Z.of_nat i + 1) u) us)%list /\
    Forall (jitter_ok jitter) us.
Proof.
  induction k as [|k IH]; intros n attempt w Hb Hj Hf.
  - exists []. simpl. rewrite Z.add_0_r, app_nil_r. repeat split. constructor.
  - destruct Hf as (e & w1 & Hfun & Hd & Hrest).
    destruct (IH n _ _ Hb Hj Hrest) as (us & Hrun & Hlen & Hdel & Hus).
    destruct (backoff_delay_with env backoff_factor jitter (attempt + 1) (trace w1) Hj)
      as (u & Hu & Huok).
    exists (u :: us). split; [|split; [|split]].
    + cbn [Nat.add retry_loop after_failures]. rewrite Hfun.
      rewrite (try_Raise _ _ _ _ _ Hfun).
      erewrite bind_Ok by (apply back_off_runs; assumption).
      unfold backed_off in Hrun. rewrite (back_off_runs _ _ _ _ _ _ _ Hb Hj) in Hrun.
      simpl in Hrun. rewrite Hrun. unfold backed_off.
      rewrite (back_off_runs _ _ _ _ _ _ _ Hb Hj). simpl.
      f_equal. lia.
    + simpl. now rewrite Hlen.
    + cbn [after_failures]. rewrite Hfun, Hdel. unfold backed_off.
      rewrite (back_off_runs _ _ _ _ _ _ _ Hb Hj). simpl.
      rewrite delays_app. simpl. rewrite Hd, Hu, <- app_assoc. simpl.
      f_equal. f_equal.
      * f_equal. lia.
      * apply imap_ext. intros i x _. simpl. f_equal. lia.
    + now constructor.
Qed.

(** The back-off records no call, whether the sleep is accepted or not. *)
Lemma back_off_calls c e attempt w :
  calls c (trace (back_off env backoff_factor jitter func_name e attempt w).2)
  = calls c (trace w).
Proof.
  unfold back_off, history, sleep, emit, raise, mbind, prog_bind, bind. simpl.
  destruct (Qle_bool 0 _); simpl; rewrite !calls_app; simpl; lia.
Qed.

Lemma retry_loop_invocations (c : call) :
  (forall w, calls c (trace (func w).2) = S (calls c (trace w))) ->
  forall n attempt w,
    (calls c (trace w) + Nat.min 1 n
     <= calls c (trace (wrapped_loop n attempt w).2)
     <= calls c (trace w) + n)%nat.
Proof.
  intros Hone. induction n as [|n IH]; intros attempt w.
  - simpl. lia.
  - cbn [retry_loop]. unfold try_except. specialize (Hone w).
    destruct (func w) as [[a|e] w1]; simpl in Hone; [simpl; lia|].
    unfold mbind, prog_bind, bind.
    pose proof (back_off_calls c e (attempt + 1) w1) as Hback.
    destruct (back_off env backoff_factor jitter func_name e (attempt + 1) w1)
      as [[[]|e'] w2]; simpl in Hback.
    + specialize (IH (attempt + 1) w2). destruct n; simpl in *; lia.
    + simpl. lia.
Qed.

(** With a sane random source, whatever the wrapper raises is its own
    exhaustion error, and whatever it returns was returned by [func]. *)
Lemma retry_loop_outcome :
  0 <= backoff_factor -> jitter_in_unit env ->
  forall n attempt w,
    match wrapped_loop n attempt w with
    | (Ok v, w') => exists w0, func w0 = (Ok v, w')
    | (Raise e, _) => e = retries_exhausted retries func_name
    end.
Proof.
  intros Hb Hj. induction n as [|n IH]; intros attempt w.
  - reflexivity.
  - cbn [retry_loop]. unfold try_except.
    destruct (func w) as [[v|e] w1] eqn:E; [eauto|].
    erewrite bind_Ok by (apply back_off_runs; assumption). apply IH.
Qed.
End RetryInGeneral.

(** X1: an operation that fails on the first [k] attempts, with [k] less
    than [retries], and succeeds on the next one has its value returned from
    the world it left, after exactly [k] delays, the i-th being
    [backoff_factor ** i] plus the jitter. *)
Theorem retry_returns_first_success
    (env : environment) (retries backoff_factor : Z) (jitter : bool)
    {A : Type} (func_name : string) (func : prog A) (k : nat) (w w' : world) (v : A) :
  0 <= backoff_factor ->
  jitter_in_unit env ->
  (k < Z.to_nat retries)%nat ->
  fails_on_attempts env backoff_factor jitter func_name func k 0 w ->
  func (after_failures env backoff_factor jitter func_name func k 0 w) = (Ok v, w') ->
  retry_on_failure env retries backoff_factor jitter func_name func w = (Ok v, w') /\
  exists us : list (option Q),
    length us = k /\
    delays (trace (after_failures env backoff_factor jitter func_name func k 0 w)) =
      (delays (trace w)
         ++ imap (fun i u => delay_with backoff_factor (Z.of_nat i + 1) u) us)%list /\
    Forall (jitter_ok jitter) us.
Proof.
  intros Hb Hj Hk Hf Hok.
  destruct (retry_loop_after_failures env retries backoff_factor jitter func_name func
              k (Z.to_nat retries - k) 0 w Hb Hj Hf) as (us & Hrun & Hlen & Hdel & Hus).
  split.
  - unfold retry_on_failure.
    replace (Z.to_nat retries) with (k + (Z.to_nat retries - k))%nat by lia.
    rewrite Hrun. destruct (Z.to_nat retries - k)%nat as [|m] eqn:E; [lia|].
    cbn [retry_loop]. now apply try_Ok.
  - exists us. repeat split; assumption.
Qed.

Lemma retry_returns_first_success_witness :
  retry_on_failure barren_env 5 2 true "op" third_time_lucky empty_world
  = (Ok 42,
     (third_time_lucky
        (after_failures barren_env 2 true "op" third_time_lucky 2 0 empty_world)).2) /\
  length (delays (trace (after_failures barren_env 2 true "op" third_time_lucky 2 0
                           empty_world))) = 2%nat.
Proof.
  destruct (retry_returns_first_success barren_env 5 2 true "op" third_time_lucky 2
              empty_world
              (third_time_lucky
                 (after_failures barren_env 2 true "op" third_time_lucky 2 0
                    empty_world)).2
              42 ltac:(lia) barren_jitter ltac:(vm_compute; lia))
    as (R & us & Hlen & Hdel & _).
  - simpl. eexists _, _. split; [reflexivity|]. split; [reflexivity|].
    eexists _, _. split; [reflexivity|]. split; [reflexivity|]. exact I.
  - reflexivity.
  - split; [exact R|]. rewrite Hdel. simpl. rewrite length_imap. exact Hlen.
Defined.

(** X2: when every invocation of the wrapped operation records one call,
    the wrapper makes at least one call if [retries] is positive and never
    more than [retries]; with [retries <= 0] it raises the exhaustion error
    at once, without calling the operation. *)
Theorem retry_invocations_bounded
    (env : environment) (retries backoff_factor : Z) (jitter : bool)
    {A : Type} (func_name : string) (func : prog A) (c : call) (w : world) :
  (forall w, calls c (trace (func w).2) = S (calls c (trace w))) ->
  let after := retry_on_failure env retries backoff_factor jitter func_name func w in
  (calls c (trace w) + (if (0 <? retries)%Z then 1 else 0)
   <= calls c (trace after.2)
   <= calls c (trace w) + Z.to_nat retries)%nat /\
  (retries <= 0 -> after = (Raise (retries_exhausted retries func_name), w)).
Proof.
  intros Hone after. subst after. unfold retry_on_failure. split.
  - pose proof (retry_loop_invocations env retries backoff_factor jitter func_name func
                  c Hone (Z.to_nat retries) 0 w) as H.
    destruct (0 <? retries) eqn:E; lia.
  - intros Hle. replace (Z.to_nat retries) with 0%nat by lia. reflexivity.
Qed.

Lemma retry_invocations_bounded_witness :
  (0 + 1 <= calls (CallOp "op")
              (trace (retry_on_failure barren_env 5 2 true "op" boom empty_world).2)
   <= 0 + 5)%nat /\
  retry_on_failure barren_env 0 2 true "op" boom empty_world
  = (Raise (retries_exhausted 0 "op"), empty_world).
Proof.
  assert (Hone : forall w, calls (CallOp "op") (trace (boom w).2)
                           = S (calls (CallOp "op") (trace w))).
  { intros w. unfold boom. rewrite scripted_runs. simpl. apply calls_snoc_same. }
  split.
  - exact (proj1 (retry_invocations_bounded barren_env 5 2 true "op" boom
                    (CallOp "op") empty_world Hone)).
  - apply (proj2 (retry_invocations_bounded barren_env 0 2 true "op" boom
                    (CallOp "op") empty_world Hone)). lia.
Defined.

(** X3: with a non-negative backoff factor and a random source in [[0,1)],
    the only exception the wrapper ever raises is its own exhaustion error
    (the failures of the operation never escape), and a value it returns is
    one the operation returned, from the world the operation left. *)
Theorem retry_masks_failures
    (env : environment) (retries backoff_factor : Z) (jitter : bool)
    {A : Type} (func_name : string) (func : prog A) (w : world) :
  0 <= backoff_factor ->
  jitter_in_unit env ->
  match retry_on_failure env retries backoff_factor jitter func_name func w with
  | (Ok v, w') => exists w0, func w0 = (Ok v, w')
  | (Raise e, _) =>
      e = Exn "Exception" (func_name ++ " failed after " ++ str_int retries ++ " retries.")
  end.
Proof.
  intros Hb Hj. unfold retry_on_failure.
  exact (retry_loop_outcome env retries backoff_factor jitter func_name func Hb Hj
           (Z.to_nat retries) 0 w).
Qed.

Lemma retry_masks_failures_witness :
  (retry_on_failure barren_env 3 2 true "op" boom empty_world).1
  = Raise (Exn "Exception" "op failed after 3 retries.").
Proof.
  pose proof (retry_masks_failures barren_env 3 2 true "op" boom empty_world
                ltac:(lia) barren_jitter) as H.
  destruct (retry_on_failure barren_env 3 2 true "op" boom empty_world) as [[v|e] w'] eqn:E.
  - vm_compute in E. discriminate E.
  - simpl. rewrite H. reflexivity.
Defined.

(** ** Parsing the playlist reference *)

Lemma append_nil_r (s : string) : s ++ "" = s.
Proof. induction s as [|c s IH]; [reflexivity | exact (f_equal (String c) IH)]. Qed.

Lemma append_assoc (a b c : string) : (a ++ b) ++ c = a ++ (b ++ c).
Proof. induction a as [|x a IH]; [reflexivity | exact (f_equal (String x) IH)]. Qed.

Lemma append_cons c (s r : string) : String c s ++ r = String c (s ++ r).
Proof. reflexivity. Qed.

Lemma prefix_append (sep rest : string) : String.prefix sep (sep ++ rest) = true.
Proof.
  induction sep as [|c sep IH]; [now destruct rest|].
  rewrite append_cons. cbn [String.prefix].
  destruct (ascii_dec c c); [exact IH | contradiction].
Qed.

Lemma split_go_skip sep (x : string) : forall rest cur,
  split_go sep (String.length x) cur (x ++ rest) = split_go sep 0 cur rest.
Proof.
  induction x as [|c x IH]; intros rest cur; [reflexivity|].
  rewrite append_cons. cbn [String.length split_go]. apply IH.
Qed.

(** A separator at the head closes the current piece. *)
Lemma split_go_match c sep rest cur :
  split_go (String c sep) 0 cur (String c sep ++ rest)
  = cur :: split_go (String c sep) 0 "" rest.
Proof.
  pose proof (prefix_append (String c sep) rest) as Hp.
  rewrite append_cons in *. cbn [split_go]. rewrite Hp. f_equal.
  cbn [String.length].
  replace (S (String.length sep) - 1)%nat with (String.length sep) by lia.
  apply split_go_skip.
Qed.

(** A stretch in which no separator starts is added to the current piece. *)
Lemma split_go_no_match sep base : forall rest cur,
  no_match_within sep base rest = true ->
  split_go sep 0 cur (base ++ rest) = split_go sep 0 (cur ++ base) rest.
Proof.
  induction base as [|c base IH]; intros rest cur H.
  - now rewrite append_nil_r.
  - cbn [no_match_within] in H. apply andb_true_iff in H as [Hc Hrest].
    apply negb_true_iff in Hc. rewrite append_cons. cbn [split_go]. rewrite Hc.
    rewrite (IH rest _ Hrest), append_assoc. reflexivity.
Qed.

Lemma avoids_no_match c sep id rest :
  avoids c id = true -> no_match_within (String c sep) id rest = true.
Proof.
  induction id as [|x id IH]; intros H; [reflexivity|].
  cbn [avoids] in H. apply andb_true_iff in H as [Hx Hid].
  cbn [no_match_within]. rewrite (IH Hid), andb_true_r.
  apply negb_true_iff in Hx. apply Ascii.eqb_neq in Hx.
  cbn [String.prefix]. now destruct (ascii_dec c x).
Qed.

(** The first piece begins with what has been read so far. *)
Lemma split_go_head sep s : forall cur,
  exists x pieces, split_go sep 0 cur s = (cur ++ x) :: pieces.
Proof.
  induction s as [|c s IH]; intros cur.
  - exists "", []. simpl. now rewrite append_nil_r.
  - cbn [split_go]. destruct (String.prefix sep (String c s)).
    + exists "". eexists. now rewrite append_nil_r.
    + destruct (IH (cur ++ String c "")) as (x & pieces & H).
      exists (String c x), pieces. rewrite H, append_assoc. reflexivity.
Qed.

(** There are two pieces or more exactly when the separator occurs. *)
Lemma split_go_two_pieces sep s :
  String.prefix sep "" = false ->
  forall cur, (2 <=? length (split_go sep 0 cur s))%nat = contains s sep.
Proof.
  intros Hsep. induction s as [|c s IH]; intros cur.
  - change (contains "" sep) with (String.prefix sep "" || false).
    now rewrite Hsep.
  - cbn [split_go contains]. destruct (String.prefix sep (String c s)) eqn:E.
    + pose proof (split_go_nonempty sep s (String.length sep - 1) "") as Hne.
      destruct (split_go sep (String.length sep - 1) "" s); [contradiction|reflexivity].
    + simpl. apply IH.
Qed.

Lemma grows_collect_pages : forall (results : page) tracks,
  grows (collect_pages results tracks).
Proof.
  fix IH 1. intros [items next] tracks. cbn [collect_pages].
  apply grows_bind; [apply grows_lift|]. intros acc.
  destruct next as [[p|e]|].
  - apply grows_bind; [apply grows_emit|]. intros _. apply IH.
  - apply grows_bind; [apply grows_emit|]. intros _. apply grows_raise.
  - apply grows_ret.
Qed.

(** X4: the playlist reference parses exactly when the URL contains
    "/playlist/".  Without it the fetch raises [IndexError] before anything
    is called; with it the first thing the fetch does is to ask the
    catalogue for the identifier parsed. *)
Theorem playlist_reference_parses_iff_marked
    (env : environment) (playlist_url : string) (w : world) :
  is_ok (playlist_id_of playlist_url) = contains playlist_url "/playlist/" /\
  (contains playlist_url "/playlist/" = false ->
   fetch_spotify_playlist_tracks_wrapped env playlist_url w
   = (Raise (Exn "IndexError" "list index out of range"), w)) /\
  (contains playlist_url "/playlist/" = true ->
   exists playlist_id rest,
     playlist_id_of playlist_url = Ok playlist_id /\
     trace (fetch_spotify_playlist_tracks_wrapped env playlist_url w).2
     = (trace w ++ EvCall (CallPlaylistTracks playlist_id) :: rest)%list).
Proof.
  assert (Hok : is_ok (playlist_id_of playlist_url) = contains playlist_url "/playlist/").
  { rewrite <- (split_go_two_pieces "/playlist/" playlist_url eq_refl "").
    unfold playlist_id_of, py_index, py_split.
    destruct (split_go "/playlist/" 0 "" playlist_url) as [|a [|b l]]; try reflexivity.
    simpl. pose proof (split_go_nonempty "?" b 0 "") as Hne.
    destruct (split_go "?" 0 "" b); [contradiction | reflexivity]. }
  split; [exact Hok|]. split.
  - intros Hno. rewrite Hno in Hok.
    rewrite (fetch_unparsable env playlist_url w Hok), app_nil_r. now destruct w.
  - intros Hyes. rewrite Hyes in Hok. unfold playlist_id_of in *.
    destruct (py_index (py_split "/playlist/" playlist_url) 1) as [rest|e] eqn:E1;
      [|discriminate Hok].
    destruct (py_index (py_split "?" rest) 0) as [playlist_id|e] eqn:E2;
      [|discriminate Hok].
    assert (Hs : starts_with (EvCall (CallPlaylistTracks playlist_id))
                   (history ≫= fun t =>
                    emit (EvCall (CallPlaylistTracks playlist_id)) ≫= fun _ =>
                    lift (sp_playlist_tracks env t playlist_id) ≫= fun results =>
                    collect_pages results [] ≫= fun tracks =>
                    logging INFO ("Fetched " ++ str_int (Z.of_nat (length tracks))
                                   ++ " tracks from Spotify.") ≫= fun _ =>
                    mret tracks)).
    { apply starts_history. intros t. apply starts_emit. intros _.
      apply grows_bind; [apply grows_lift|]. intros results.
      apply grows_bind; [apply grows_collect_pages|]. intros tracks.
      unfold logging. grow. }
    destruct (Hs w) as [tail Htail]. exists playlist_id, tail. split; [reflexivity|].
    unfold fetch_spotify_playlist_tracks_wrapped. rewrite E1.
    rewrite (bind_Ok (lift (Ok rest)) _ w rest w eq_refl). rewrite E2.
    rewrite (bind_Ok (lift (Ok playlist_id)) _ w playlist_id w eq_refl).
    exact Htail.
Qed.

(** X5: for a URL made of a part in which "/playlist/" does not start,
    then "/playlist/", then an identifier without slash or question mark,
    then either nothing or a question mark and a query, the identifier
    parsed is that identifier. *)
Theorem playlist_id_of_share_link (base playlist_id rest : string) :
  no_match_within "/playlist/" base ("/playlist/" ++ playlist_id ++ rest) = true ->
  avoids "/" playlist_id = true ->
  avoids "?" playlist_id = true ->
  rest = "" \/ (exists query, rest = "?" ++ query) ->
  playlist_id_of (base ++ "/playlist/" ++ playlist_id ++ rest) = Ok playlist_id.
Proof.
  intros Hbase Hslash Hmark Hrest. unfold playlist_id_of, py_split.
  rewrite (split_go_no_match "/playlist/" base _ "" Hbase).
  change ("" ++ base) with base.
  change "/playlist/" with (String "/" "playlist/") at 1 2.
  rewrite split_go_match. cbn [py_index nth_error].
  assert (Hhead : exists x pieces,
             split_go (String "/" "playlist/") 0 "" (playlist_id ++ rest)
             = (playlist_id ++ x) :: pieces /\
             (x = "" \/ exists y, x = "?" ++ y)).
  { rewrite (split_go_no_match _ playlist_id rest ""
               (avoids_no_match "/" "playlist/" playlist_id rest Hslash)).
    change ("" ++ playlist_id) with playlist_id.
    destruct Hrest as [->|[query ->]].
    - exists "", []. split; [now rewrite append_nil_r | now left].
    - change ("?" ++ query) with (String "?" query). cbn [split_go String.prefix].
      destruct (ascii_dec "/" "?") as [E|_]; [discriminate E|].
      destruct (split_go_head (String "/" "playlist/") query (playlist_id ++ "?"))
        as (x & pieces & H).
      exists ("?" ++ x), pieces. rewrite H, append_assoc. split; [reflexivity|eauto]. }
  destruct Hhead as (x & pieces & -> & Hx). cbn [py_index nth_error].
  rewrite (split_go_no_match "?" playlist_id x ""
             (avoids_no_match "?" "" playlist_id x Hmark)).
  change ("" ++ playlist_id) with playlist_id.
  destruct Hx as [->|[y ->]]; [reflexivity|].
  change "?" with (String "?" "") at 1 2. now rewrite split_go_match.
Qed.

Lemma playlist_id_of_share_link_witness :
  playlist_id_of ("https://open.spotify.com" ++ "/playlist/" ++ "37i9dQ" ++ "?si=1")
  = Ok "37i9dQ".
Proof.
  apply (playlist_id_of_share_link "https://open.spotify.com" "37i9dQ" "?si=1").
  - reflexivity.
  - reflexivity.
  - reflexivity.
  - right. exists "si=1". reflexivity.
Defined.

(** ** Resolving the catalogue *)

Lemma project_items_all items : forall tracks acc,
  Forall2 gives items tracks ->
  project_items items acc = Ok (acc ++ tracks)%list.
Proof.
  induction items as [|item items IH]; intros tracks acc H.
  - apply Forall2_nil_inv_l in H as ->. simpl. now rewrite app_nil_r.
  - apply Forall2_cons_inv_l in H as (t & tracks' & (title & a & others & -> & ->) & H & ->).
    simpl. rewrite (IH tracks' _ H), <- app_assoc. reflexivity.
Qed.

Lemma collect_pages_all : forall (results : page) items tracks acc w,
  page_items results = Some items ->
  Forall2 gives items tracks ->
  collect_pages results acc w
  = (Ok (acc ++ tracks)%list,
     World (fs w) (trace w ++ replicate (page_links results) (EvCall CallNext)) (base_dir w) (cwd w)).
Proof.
  fix IH 1. intros [its next] items tracks acc w Hitems Hgives.
  cbn [page_items] in Hitems. cbn [collect_pages page_links].
  destruct next as [[p|e]|].
  - destruct (page_items p) as [more|] eqn:Hmore; [|discriminate].
    injection Hitems as <-.
    apply Forall2_app_inv_l in Hgives as (t1 & t2 & H1 & H2 & ->).
    erewrite bind_Ok by (unfold lift; rewrite (project_items_all its t1 acc H1); reflexivity).
    erewrite bind_Ok by reflexivity.
    rewrite (IH p more t2 (acc ++ t1)%list _ Hmore H2). simpl.
    rewrite <- !app_assoc. reflexivity.
  - discriminate.
  - injection Hitems as <-.
    erewrite bind_Ok by (unfold lift; rewrite (project_items_all its tracks acc Hgives);
                         reflexivity).
    simpl. rewrite app_nil_r. now destruct w.
Qed.

Lemma calls_replicate c c' n :
  calls c (replicate n (EvCall c')) = if call_eqb c c' then n else 0%nat.
Proof.
  induction n as [|n IH]; simpl; [now destruct (call_eqb c c')|].
  rewrite IH. destruct (call_eqb c c'); lia.
Qed.

Lemma delays_replicate c n : delays (replicate n (EvCall c)) = [].
Proof. induction n as [|n IH]; simpl; [reflexivity | exact IH]. Qed.

(** X6: when the reference parses and the catalogue answers the first call
    with a chain of pages whose items all have a track with at least one
    artist, the fetch succeeds at the first attempt: it returns one track
    per item, in page order, each with the item's title and its first
    artist only; it asks the catalogue once for the identifier, follows
    every next link once, sleeps not at all and leaves the folder alone.
    An empty playlist gives the empty list. *)
Theorem fetch_returns_items_in_page_order
    (env : environment) (playlist_url playlist_id : string) (w : world)
    (results : page) (items : list (option track_obj)) (tracks : list track) :
  playlist_id_of playlist_url = Ok playlist_id ->
  sp_playlist_tracks env (trace w) playlist_id = Ok results ->
  page_items results = Some items ->
  Forall2 gives items tracks ->
  exists w',
    fetch_spotify_playlist_tracks env playlist_url w = (Ok tracks, w') /\
    fs w' = fs w /\
    delays (trace w') = delays (trace w) /\
    calls (CallPlaylistTracks playlist_id) (trace w')
    = S (calls (CallPlaylistTracks playlist_id) (trace w)) /\
    calls CallNext (trace w') = (calls CallNext (trace w) + page_links results)%nat.
Proof.
  intros Hid Hpage Hitems Hgives. unfold playlist_id_of in Hid.
  destruct (py_index (py_split "/playlist/" playlist_url) 1) as [rest|e] eqn:E1;
    [|discriminate Hid].
  eexists. split; [|split; [|split; [|split]]].
  - unfold fetch_spotify_playlist_tracks, retry_on_failure.
    change (Z.to_nat 5) with 5%nat. cbn [retry_loop]. apply try_Ok.
    unfold fetch_spotify_playlist_tracks_wrapped. rewrite E1.
    rewrite (bind_Ok (lift (Ok rest)) _ w rest w eq_refl). rewrite Hid.
    rewrite (bind_Ok (lift (Ok playlist_id)) _ w playlist_id w eq_refl).
    erewrite bind_Ok by reflexivity. erewrite bind_Ok by reflexivity.
    erewrite bind_Ok by (unfold lift; cbn [trace]; rewrite Hpage; reflexivity).
    erewrite bind_Ok by (apply (collect_pages_all results items tracks []); assumption).
    erewrite bind_Ok by reflexivity. reflexivity.
  - reflexivity.
  - cbn [trace]. rewrite !delays_app, delays_replicate. simpl.
    now rewrite !app_nil_r.
  - cbn [trace]. rewrite !calls_app, calls_replicate. simpl.
    rewrite String.eqb_refl. lia.
  - cbn [trace]. rewrite !calls_app, calls_replicate. simpl. lia.
Qed.

Lemma fetch_returns_items_in_page_order_witness :
  exists w',
    fetch_spotify_playlist_tracks fruitless_env playlist_link empty_world
    = (Ok two_tracks, w') /\
    fs w' = fs empty_world /\
    delays (trace w') = delays (trace empty_world) /\
    calls (CallPlaylistTracks "37i9dQ") (trace w') = 1%nat /\
    calls CallNext (trace w') = 1%nat.
Proof.
  apply (fetch_returns_items_in_page_order fruitless_env playlist_link "37i9dQ"
           empty_world
           (Page [Some (TrackObj "Song A" ["Artist X"])]
              (Some (Ok (Page [Some (TrackObj "Song B" ["Artist Y"; "Artist Z"])] None))))
           [Some (TrackObj "Song A" ["Artist X"]);
            Some (TrackObj "Song B" ["Artist Y"; "Artist Z"])]
           two_tracks).
  - reflexivity.
  - reflexivity.
  - reflexivity.
  - repeat constructor; eexists _, _, _; split; reflexivity.
Defined.

Lemma project_items_unusable items :
  Exists unusable items -> forall acc, exists e, project_items items acc = Raise e.
Proof.
  induction 1 as [item items [->|[title ->]]|item items _ IH]; intros acc.
  - eexists. reflexivity.
  - eexists. reflexivity.
  - simpl. destruct (project_item item) as [t|e]; [apply IH | eauto].
Qed.

(** X7: one item without track, or with a track without artists, on the
    first page makes every attempt of the fetch fail after its catalogue
    call: with a catalogue that keeps answering so, the fetch asks it 5
    times, follows no next link and raises the exhaustion error. *)
Theorem fetch_fails_on_unusable_item
    (env : environment) (playlist_url playlist_id : string) (w : world)
    (items : list (option track_obj)) (next : option (outcome page)) :
  jitter_in_unit env ->
  playlist_id_of playlist_url = Ok playlist_id ->
  (forall t, sp_playlist_tracks env t playlist_id = Ok (Page items next)) ->
  Exists unusable items ->
  exists w',
    fetch_spotify_playlist_tracks env playlist_url w
    = (Raise (Exn "Exception" "fetch_spotify_playlist_tracks failed after 5 retries."),
       w') /\
    fs w' = fs w /\
    calls (CallPlaylistTracks playlist_id) (trace w')
    = (calls (CallPlaylistTracks playlist_id) (trace w) + 5)%nat /\
    calls CallNext (trace w') = calls CallNext (trace w) /\
    length (delays (trace w')) = (length (delays (trace w)) + 5)%nat.
Proof.
  intros Hj Hid Hpage Hbad. unfold playlist_id_of in Hid.
  destruct (py_index (py_split "/playlist/" playlist_url) 1) as [rest|e0] eqn:E1;
    [|discriminate Hid].
  destruct (project_items_unusable items Hbad []) as [e He].
  assert (Hfail : forall w0,
             fetch_spotify_playlist_tracks_wrapped env playlist_url w0
             = (Raise e, World (fs w0)
                           (trace w0 ++ [EvCall (CallPlaylistTracks playlist_id)]) (base_dir w0) (cwd w0))).
  { intros w0. unfold fetch_spotify_playlist_tracks_wrapped. rewrite E1.
    rewrite (bind_Ok (lift (Ok rest)) _ w0 rest w0 eq_refl). rewrite Hid.
    rewrite (bind_Ok (lift (Ok playlist_id)) _ w0 playlist_id w0 eq_refl).
    erewrite bind_Ok by reflexivity. erewrite bind_Ok by reflexivity.
    erewrite bind_Ok by (unfold lift; rewrite Hpage; reflexivity).
    apply bind_Raise. cbn [collect_pages]. apply bind_Raise.
    unfold lift. now rewrite He. }
  destruct (retry_loop_constant_failure env 5 2 true "fetch_spotify_playlist_tracks"
              (fetch_spotify_playlist_tracks_wrapped env playlist_url) ltac:(lia) Hj
              e [EvCall (CallPlaylistTracks playlist_id)] Hfail 5%nat 0 w)
    as (w' & R & Hfs & Hc & Hd).
  exists w'. split; [exact R|]. split; [exact Hfs|]. split; [|split].
  - rewrite Hc. simpl. rewrite String.eqb_refl. lia.
  - rewrite Hc. simpl. lia.
  - rewrite Hd. simpl. lia.
Qed.

Lemma fetch_fails_on_unusable_item_witness :
  exists w',
    fetch_spotify_playlist_tracks broken_env playlist_link empty_world
    = (Raise (Exn "Exception" "fetch_spotify_playlist_tracks failed after 5 retries."),
       w') /\
    fs w' = fs empty_world /\
    calls (CallPlaylistTracks "37i9dQ") (trace w') = 5%nat /\
    calls CallNext (trace w') = 0%nat /\
    length (delays (trace w')) = 5%nat.
Proof.
  apply (fetch_fails_on_unusable_item broken_env playlist_link "37i9dQ" empty_world
           [Some (TrackObj "Song A" ["Artist X"]); None] None).
  - intros t. simpl. split; [discriminate | reflexivity].
  - reflexivity.
  - intros t. reflexivity.
  - right. left. now left.
Defined.

(** *** Programs that leave the folder alone *)

Lemma keeps_ret {A} (a : A) : keeps_folder (mret a : prog A).
Proof. now intros w. Qed.

Lemma keeps_raise {A} e : keeps_folder (raise e : prog A).
Proof. now intros w. Qed.

Lemma keeps_lift {A} (r : outcome A) : keeps_folder (lift r).
Proof. now intros w. Qed.

Lemma keeps_emit ev : keeps_folder (emit ev).
Proof. now intros w. Qed.

Lemma keeps_sleep d : keeps_folder (sleep d).
Proof. unfold sleep. destruct (Qle_bool 0 d); [apply keeps_emit | apply keeps_raise]. Qed.

Lemma keeps_bind {A B} (m : prog A) (k : A -> prog B) :
  keeps_folder m -> (forall a, keeps_folder (k a)) -> keeps_folder (m ≫= k).
Proof.
  intros Hm Hk w. unfold mbind, prog_bind, bind. specialize (Hm w).
  destruct (m w) as [[a|e] w1]; simpl in *; [|exact Hm].
  now rewrite (Hk a w1).
Qed.

Lemma keeps_history {B} (k : list event -> prog B) :
  (forall t, keeps_folder (k t)) -> keeps_folder (history ≫= k).
Proof. intros Hk w. exact (Hk (trace w) w). Qed.

Lemma keeps_try {A} (body : prog A) handler :
  keeps_folder body -> (forall e, keeps_folder (handler e)) ->
  keeps_folder (try_except body handler).
Proof.
  intros Hm Hk w. unfold try_except. specialize (Hm w).
  destruct (body w) as [[a|e] w1]; simpl in *; [exact Hm|].
  now rewrite (Hk e w1).
Qed.

Ltac keep :=
  repeat first
    [ apply keeps_ret | apply keeps_raise | apply keeps_lift | apply keeps_emit
    | apply keeps_sleep
    | apply keeps_history; intros ?
    | apply keeps_bind; [|intros ?]
    | apply keeps_try; [|intros ?]
    | match goal with
      | |- keeps_folder (match ?x with _ => _ end) => destruct x
      end ].

Lemma keeps_retry_loop env retries backoff_factor jitter {A} func_name (func : prog A) :
  keeps_folder func ->
  forall n attempt,
    keeps_folder (retry_loop env retries backoff_factor jitter func_name func n attempt).
Proof.
  intros Hf. induction n as [|n IH]; intros attempt; simpl.
  - apply keeps_raise.
  - apply keeps_try; [exact Hf|]. intros e. apply keeps_bind; [|intros _; apply IH].
    unfold back_off. keep.
Qed.

Lemma keeps_collect_pages : forall (results : page) tracks,
  keeps_folder (collect_pages results tracks).
Proof.
  fix IH 1. intros [items next] tracks. cbn [collect_pages].
  apply keeps_bind; [apply keeps_lift|]. intros acc.
  destruct next as [[p|e]|].
  - apply keeps_bind; [apply keeps_emit|]. intros _. apply IH.
  - apply keeps_bind; [apply keeps_emit|]. intros _. apply keeps_raise.
  - apply keeps_ret.
Qed.

Lemma keeps_fetch env playlist_url :
  keeps_folder (fetch_spotify_playlist_tracks env playlist_url).
Proof.
  apply keeps_retry_loop. unfold fetch_spotify_playlist_tracks_wrapped, logging.
  keep. apply keeps_collect_pages.
Qed.

Lemma keeps_search_youtube_api env query : keeps_folder (search_youtube_api env query).
Proof. apply keeps_retry_loop. unfold search_youtube_api_wrapped, logging. keep. Qed.

Lemma keeps_search_youtube_yt_dlp env query :
  keeps_folder (search_youtube_yt_dlp env query).
Proof. apply keeps_retry_loop. unfold search_youtube_yt_dlp_wrapped, logging. keep. Qed.

(** X8: once the session folder is made, a POST to [index] never raises
    (with a random source in [[0,1)]) and has exactly two answers.  If the
    fetch returns, the answer is the success envelope with the session
    identifier.  If the fetch raises, the answer is the error envelope whose
    message is always "fetch_spotify_playlist_tracks failed after 5
    retries.", the world is the one the fetch left (no search, no download),
    and the download folder is as the creation of the session folder left
    it, the session folder included. *)
Theorem index_post_answers
    (env : environment) (playlist_url : string) (w w0 : world) :
  let user_id := uuid4 env (trace w) in
  jitter_in_unit env ->
  os_makedirs user_id w = (Ok tt, w0) ->
  exists w',
    (index env "POST" playlist_url w = (Ok (success_envelope user_id), w') /\
     exists tracks w1,
       fetch_spotify_playlist_tracks env playlist_url w0 = (Ok tracks, w1)) \/
    (index env "POST" playlist_url w
     = (Ok (error_envelope "fetch_spotify_playlist_tracks failed after 5 retries."), w') /\
     fetch_spotify_playlist_tracks env playlist_url w0
     = (Raise (Exn "Exception" "fetch_spotify_playlist_tracks failed after 5 retries."),
        w') /\
     fs w' = fs w0 /\
     exists files, fs w' !! user_id = Some (Folder files)).
Proof.
  intros user_id Hj Hmk.
  assert (Hstart : index env "POST" playlist_url w
                   = try_except
                       (fetch_spotify_playlist_tracks env playlist_url ≫= fun tracks =>
                        for_each tracks (acquire_track env user_id) ≫= fun _ =>
                        mret (success_envelope user_id))
                       (fun e => mret (error_envelope (exn_msg e))) w0).
  { unfold index. change (String.eqb "POST" "POST") with true. cbv iota.
    erewrite bind_Ok by reflexivity. fold user_id. erewrite bind_Ok by exact Hmk.
    reflexivity. }
  pose proof (retry_loop_outcome env 5 2 true "fetch_spotify_playlist_tracks"
                (fetch_spotify_playlist_tracks_wrapped env playlist_url) ltac:(lia) Hj
                5%nat 0 w0) as Hout.
  change (retry_loop env 5 2 true "fetch_spotify_playlist_tracks"
            (fetch_spotify_playlist_tracks_wrapped env playlist_url) 5 0 w0)
    with (fetch_spotify_playlist_tracks env playlist_url w0) in Hout.
  destruct (fetch_spotify_playlist_tracks env playlist_url w0) as [[tracks|e] w1] eqn:E.
  - destruct (acquire_all env user_id tracks w1) as (w' & segs & R & _).
    exists w'. left. split; [|eauto]. rewrite Hstart.
    erewrite try_Ok; [reflexivity|].
    erewrite bind_Ok by exact E. erewrite bind_Ok by exact R. reflexivity.
  - exists w1. right. subst e.
    assert (Hkeep : fs w1 = fs w0).
    { pose proof (keeps_fetch env playlist_url w0) as H. now rewrite E in H. }
    split; [|split; [reflexivity|split; [exact Hkeep|]]].
    + rewrite Hstart. erewrite try_Raise by (apply bind_Raise; exact E). reflexivity.
    + rewrite Hkeep. unfold os_makedirs in Hmk.
      destruct (fs w !! user_id) as [[files|m c]|] eqn:Hu.
      * injection Hmk as <-. eauto.
      * discriminate Hmk.
      * injection Hmk as <-. exists ∅. simpl. apply lookup_insert_eq.
Qed.

Lemma index_post_answers_witness :
  exists w',
    index broken_env "POST" playlist_link empty_world
    = (Ok (error_envelope "fetch_spotify_playlist_tracks failed after 5 retries."), w') /\
    calls (CallYoutubeSearch "Song A Artist X") (trace w') = 0%nat.
Proof.
  destruct (index_post_answers broken_env playlist_link empty_world
              (World (<["session-1" := Folder ∅]> ∅) [] false ∅))
    as (w' & [[_ (tracks & w1 & Hf)] | (R & Hf & _ & _)]).
  - intros t. simpl. split; [discriminate | reflexivity].
  - reflexivity.
  - vm_compute in Hf. discriminate Hf.
  - exists w'. split; [exact R|]. vm_compute in Hf. injection Hf as <-. reflexivity.
Defined.

(** ** Locating a source *)

Lemma source_located_by_primary
    (env : environment) (query video_id : string) (more : list (option string))
    (w : world) :
  youtube_search_list env (trace w) query = Ok (Some video_id :: more) ->
  let video_url := "https://www.youtube.com/watch?v=" ++ video_id in
  try_except (search_youtube_api env query) (fun _ => search_youtube_yt_dlp env query) w
  = (Ok video_url,
     World (fs w)
       (trace w ++ [EvCall (CallYoutubeSearch query);
                    EvLog INFO ("Found video for '" ++ query ++ "' using YouTube API: "
                                 ++ video_url)]) (base_dir w) (cwd w)).
Proof.
  intros Hhit video_url. apply try_Ok.
  unfold search_youtube_api, retry_on_failure. change (Z.to_nat 5) with 5%nat.
  cbn [retry_loop]. apply try_Ok. unfold search_youtube_api_wrapped.
  erewrite bind_Ok by reflexivity. erewrite bind_Ok by reflexivity.
  erewrite bind_Ok by (unfold lift; cbn [trace]; rewrite Hhit; reflexivity).
  cbv beta iota. erewrite bind_Ok by reflexivity.
  cbn [trace fs]. rewrite <- app_assoc. reflexivity.
Qed.

(** X9: when the first call of the primary search finds something, the
    source is the watch URL of the first item, the only things recorded are
    that call and the log line, and the fallback tier is not entered. *)
Theorem primary_hit_skips_fallback
    (env : environment) (query video_id : string) (more : list (option string))
    (w : world) :
  youtube_search_list env (trace w) query = Ok (Some video_id :: more) ->
  let video_url := "https://www.youtube.com/watch?v=" ++ video_id in
  try_except (search_youtube_api env query) (fun _ => search_youtube_yt_dlp env query) w
  = (Ok video_url,
     World (fs w)
       (trace w ++ [EvCall (CallYoutubeSearch query);
                    EvLog INFO ("Found video for '" ++ query ++ "' using YouTube API: "
                                 ++ video_url)]) (base_dir w) (cwd w)).
Proof.
  exact (source_located_by_primary env query video_id more w).
Qed.

Lemma primary_hit_skips_fallback_witness :
  try_except (search_youtube_api obliging_env "Song A Artist X")
    (fun _ => search_youtube_yt_dlp obliging_env "Song A Artist X") empty_world
  = (Ok "https://www.youtube.com/watch?v=dQw4",
     World ∅
       [EvCall (CallYoutubeSearch "Song A Artist X");
        EvLog INFO
          "Found video for 'Song A Artist X' using YouTube API: https://www.youtube.com/watch?v=dQw4"] false ∅).
Proof.
  exact (primary_hit_skips_fallback obliging_env "Song A Artist X" "dQw4" []
           empty_world eq_refl).
Defined.

Lemma search_youtube_yt_dlp_no_results env query w :
  ytdl_extract_info env
    (trace w ++ [EvLog INFO ("Searching for '" ++ query ++ "' on YouTube using yt-dlp...")])
    ("ytsearch:" ++ query) = Ok [] ->
  search_youtube_yt_dlp_wrapped env query w
  = (Raise (Exn "Exception" ("No results found for '" ++ query ++ "'")),
     World (fs w)
       (trace w ++ [EvLog INFO ("Searching for '" ++ query
                                 ++ "' on YouTube using yt-dlp...");
                    EvCall (CallExtractInfo query)]) (base_dir w) (cwd w)).
Proof.
  intros H. unfold search_youtube_yt_dlp_wrapped.
  erewrite bind_Ok by reflexivity. erewrite bind_Ok by reflexivity.
  erewrite bind_Ok by reflexivity.
  erewrite bind_Ok by (unfold lift; cbn [trace]; rewrite H; reflexivity).
  cbv beta iota. cbn [trace fs]. rewrite <- app_assoc. reflexivity.
Qed.

Lemma acquire_track_unlocated
    (env : environment) (user_folder : string) (t : track) (w : world) :
  jitter_in_unit env ->
  (forall h, youtube_search_list env h (query_of t) = Ok []) ->
  (forall h, ytdl_extract_info env h ("ytsearch:" ++ query_of t) = Ok []) ->
  exists w',
    acquire_track env user_folder t w = (Ok tt, w') /\
    fs w' = fs w /\
    calls (CallYoutubeSearch (query_of t)) (trace w')
    = (calls (CallYoutubeSearch (query_of t)) (trace w) + 5)%nat /\
    calls (CallExtractInfo (query_of t)) (trace w')
    = (calls (CallExtractInfo (query_of t)) (trace w) + 5)%nat /\
    (forall video_url output_path,
        calls (CallDownload video_url output_path) (trace w')
        = calls (CallDownload video_url output_path) (trace w)) /\
    length (delays (trace w')) = (length (delays (trace w)) + 10)%nat /\
    last (trace w')
    = Some (EvLog ERROR ("Failed to download " ++ query_of t
                          ++ ": search_youtube_yt_dlp failed after 5 retries.")).
Proof.
  intros Hj Hprimary Hfallback. set (query := query_of t).
  destruct (retry_loop_constant_failure env 5 2 true "search_youtube_api"
              (search_youtube_api_wrapped env query) ltac:(lia) Hj _ _
              (fun w => search_youtube_api_no_results env query w (Hprimary (trace w)))
              5%nat 0 w) as (w1 & R1 & Hfs1 & Hc1 & Hd1).
  destruct (retry_loop_constant_failure env 5 2 true "search_youtube_yt_dlp"
              (search_youtube_yt_dlp_wrapped env query) ltac:(lia) Hj _ _
              (fun w => search_youtube_yt_dlp_no_results env query w (Hfallback _))
              5%nat 0 w1) as (w2 & R2 & Hfs2 & Hc2 & Hd2).
  eexists. split; [|split; [|split; [|split; [|split; [|split]]]]].
  - unfold acquire_track. fold query. erewrite try_Raise; [reflexivity|].
    apply bind_Raise.
    rewrite (try_Raise (search_youtube_api env query)
               (fun _ => search_youtube_yt_dlp env query) w _ w1 R1).
    exact R2.
  - cbn [fs logging emit]. now rewrite Hfs2, Hfs1.
  - cbn [trace logging emit]. rewrite calls_app, Hc2, Hc1. simpl.
    rewrite String.eqb_refl. lia.
  - cbn [trace logging emit]. rewrite calls_app, Hc2, Hc1. simpl.
    rewrite String.eqb_refl. lia.
  - intros video_url [d f]. cbn [trace logging emit].
    rewrite calls_app, Hc2, Hc1. simpl. lia.
  - cbn [trace logging emit]. rewrite delays_app, length_app, Hd2, Hd1. simpl. lia.
  - cbn [trace logging emit]. apply last_snoc.
Qed.

(** X10: when neither tier finds anything on any call, the acquisition of
    the track ends normally: 5 primary and 5 fallback searches with a delay
    after each, no download, the folder untouched, and one error line that
    names the fallback's exhaustion. *)
Theorem unlocated_track_is_skipped
    (env : environment) (user_folder : string) (t : track) (w : world) :
  jitter_in_unit env ->
  (forall h, youtube_search_list env h (query_of t) = Ok []) ->
  (forall h, ytdl_extract_info env h ("ytsearch:" ++ query_of t) = Ok []) ->
  exists w',
    acquire_track env user_folder t w = (Ok tt, w') /\
    fs w' = fs w /\
    calls (CallYoutubeSearch (query_of t)) (trace w')
    = (calls (CallYoutubeSearch (query_of t)) (trace w) + 5)%nat /\
    calls (CallExtractInfo (query_of t)) (trace w')
    = (calls (CallExtractInfo (query_of t)) (trace w) + 5)%nat /\
    (forall video_url output_path,
        calls (CallDownload video_url output_path) (trace w')
        = calls (CallDownload video_url output_path) (trace w)) /\
    length (delays (trace w')) = (length (delays (trace w)) + 10)%nat /\
    last (trace w')
    = Some (EvLog ERROR ("Failed to download " ++ query_of t
                          ++ ": search_youtube_yt_dlp failed after 5 retries.")).
Proof.
  exact (acquire_track_unlocated env user_folder t w).
Qed.

Lemma unlocated_track_is_skipped_witness :
  exists w',
    acquire_track barren_env "session-1" (Track "Song B" "Artist Y") empty_world
    = (Ok tt, w') /\
    fs w' = fs empty_world /\
    calls (CallYoutubeSearch "Song B Artist Y") (trace w') = 5%nat /\
    calls (CallExtractInfo "Song B Artist Y") (trace w') = 5%nat.
Proof.
  destruct (unlocated_track_is_skipped barren_env "session-1" (Track "Song B" "Artist Y")
              empty_world barren_jitter (fun _ => eq_refl) (fun _ => eq_refl))
    as (w' & R & Hfs & Hp & Hf & _).
  exists w'. repeat split; assumption.
Defined.

(** ** Downloading and transcoding a track *)

Lemma append_inj_l (q a b : string) : q ++ a = q ++ b -> a = b.
Proof.
  induction q as [|c q IH]; intros H; [exact H|].
  rewrite !append_cons in H. injection H as H. now apply IH.
Qed.

Lemma webm_is_not_mp3 (query : string) : query ++ ".webm" ≠ query ++ ".mp3".
Proof. intros H. apply append_inj_l in H. discriminate H. Qed.

Lemma write_file_ok d f mtime content w files :
  fs w !! d = Some (Folder files) ->
  files !! f ≠ Some SubDirectory ->
  write_file (d, f) mtime content w
  = (Ok tt, World (<[d := Folder (<[f := RegularFile mtime content]> files)]> (fs w))
              (trace w) (base_dir w) (cwd w)).
Proof.
  intros Hd Hf. unfold write_file. cbn [fst snd]. rewrite Hd.
  destruct (files !! f) as [[m c|]|]; try reflexivity. contradiction.
Qed.

Lemma from_file_runs env d f w files mtime content :
  fs w !! d = Some (Folder files) ->
  files !! f = Some (RegularFile mtime content) ->
  AudioSegment_from_file env (d, f) w
  = (audio_from_file env (trace w) content,
     World (fs w) (trace w ++ [EvCall (CallFromFile (d, f))]) (base_dir w) (cwd w)).
Proof.
  intros Hd Hf. unfold AudioSegment_from_file, history, emit, read_file, lift,
    lookup_node, mbind, prog_bind, bind. cbn [fst snd fs trace]. rewrite Hd, Hf.
  reflexivity.
Qed.

Lemma open_write_ok d f mtime content w files :
  fs w !! d = Some (Folder files) ->
  files !! f ≠ Some SubDirectory ->
  open_write (d, f) mtime content w
  = (Ok tt, World (<[d := Folder (<[f := RegularFile mtime content]> files)]> (fs w))
              (trace w) (base_dir w) (cwd w)).
Proof.
  intros Hd Hf. unfold open_write. cbn [fst]. rewrite Hd. now apply write_file_ok.
Qed.

Lemma export_runs env audio d f w files encoded :
  audio_export env (trace w) audio = Ok encoded ->
  fs w !! d = Some (Folder files) ->
  files !! f ≠ Some SubDirectory ->
  AudioSegment_export env audio (d, f) w
  = (Ok tt,
     World (<[d := Folder (<[f := RegularFile (clock env (trace w)) encoded]> files)]> (fs w))
       (trace w ++ [EvCall (CallExport (d, f))]) (base_dir w) (cwd w)).
Proof.
  intros He Hd Hf. unfold AudioSegment_export.
  erewrite bind_Ok by reflexivity. erewrite bind_Ok by reflexivity.
  erewrite bind_Ok by (apply (open_write_ok d f _ _ _ files); assumption).
  erewrite bind_Ok by (unfold lift; cbn [trace]; rewrite He; reflexivity).
  erewrite write_file_ok;
    [| apply lookup_insert_eq | rewrite lookup_insert_eq; discriminate].
  cbn [fs trace base_dir cwd]. now rewrite !insert_insert_eq.
Qed.

Lemma export_fails env audio d f w files e :
  audio_export env (trace w) audio = Raise e ->
  fs w !! d = Some (Folder files) ->
  files !! f ≠ Some SubDirectory ->
  AudioSegment_export env audio (d, f) w
  = (Raise e,
     World (<[d := Folder (<[f := RegularFile (clock env (trace w)) ""]> files)]> (fs w))
       (trace w ++ [EvCall (CallExport (d, f))]) (base_dir w) (cwd w)).
Proof.
  intros He Hd Hf. unfold AudioSegment_export.
  erewrite bind_Ok by reflexivity. erewrite bind_Ok by reflexivity.
  erewrite bind_Ok by (apply (open_write_ok d f _ _ _ files); assumption).
  apply bind_Raise. unfold lift. cbn [trace]. now rewrite He.
Qed.

Lemma os_remove_ok d f w files mtime content :
  fs w !! d = Some (Folder files) ->
  files !! f = Some (RegularFile mtime content) ->
  os_remove (d, f) w
  = (Ok tt, World (<[d := Folder (delete f files)]> (fs w)) (trace w) (base_dir w) (cwd w)).
Proof. intros Hd Hf. unfold os_remove. cbn [fst snd]. now rewrite Hd, Hf. Qed.

(** The download step of [download_song], when the download works and the
    folder holds no raw file of the track yet. *)
Lemma download_step env video_url query output_dir w files media :
  fs w !! output_dir = Some (Folder files) ->
  files !! (query ++ ".webm") = None ->
  (forall h, ytdl_download env h video_url = Ok media) ->
  exists mtime,
    download_song_wrapped env video_url query output_dir w
    = convert_to_mp3 env (output_dir, query ++ ".webm") query output_dir
        (World (<[output_dir :=
                    Folder (<[query ++ ".webm" := RegularFile mtime media]> files)]> (fs w))
           (trace w ++ [EvLog INFO ("Downloading " ++ query ++ "...");
                        EvCall (CallDownload video_url (output_dir, query ++ ".webm"));
                        EvLog INFO ("Downloaded " ++ query ++ " successfully.")])
           (base_dir w) (cwd w)).
Proof.
  intros Hd Hf Hdl. eexists. unfold download_song_wrapped, path_join.
  erewrite bind_Ok by reflexivity. erewrite bind_Ok by reflexivity.
  erewrite bind_Ok by reflexivity.
  erewrite bind_Ok by (unfold lift; rewrite Hdl; reflexivity).
  erewrite bind_Ok by
    (apply (write_file_ok output_dir _ _ _ _ files); [assumption | now rewrite Hf]).
  erewrite bind_Ok by reflexivity.
  cbn [trace fs]. rewrite <- !app_assoc. reflexivity.
Qed.

Lemma download_song_runs
    (env : environment) (video_url query output_dir : string) (w : world)
    (files : gmap string node) (media audio encoded : string) :
  fs w !! output_dir = Some (Folder files) ->
  files !! (query ++ ".webm") = None ->
  files !! (query ++ ".mp3") ≠ Some SubDirectory ->
  (forall h, ytdl_download env h video_url = Ok media) ->
  (forall h, audio_from_file env h media = Ok audio) ->
  (forall h, audio_export env h audio = Ok encoded) ->
  exists w' mtime,
    download_song env video_url query output_dir w = (Ok tt, w') /\
    fs w' = <[output_dir :=
                Folder (<[query ++ ".mp3" := RegularFile mtime encoded]> files)]> (fs w) /\
    calls (CallDownload video_url (output_dir, query ++ ".webm")) (trace w')
    = S (calls (CallDownload video_url (output_dir, query ++ ".webm")) (trace w)) /\
    calls (CallFromFile (output_dir, query ++ ".webm")) (trace w')
    = S (calls (CallFromFile (output_dir, query ++ ".webm")) (trace w)) /\
    calls (CallExport (output_dir, query ++ ".mp3")) (trace w')
    = S (calls (CallExport (output_dir, query ++ ".mp3")) (trace w)) /\
    delays (trace w') = delays (trace w).
Proof.
  intros Hd Hwebm Hmp3 Hdl Hdec Henc.
  destruct (download_step env video_url query output_dir w files media Hd Hwebm Hdl)
    as [m1 Hstep].
  set (raw := query ++ ".webm") in *. set (mp3 := query ++ ".mp3") in *.
  assert (Hne : raw ≠ mp3) by apply webm_is_not_mp3.
  set (files1 := <[raw := RegularFile m1 media]> files) in *.
  eexists _, _. split; [|split; [|split; [|split; [|split]]]].
  - unfold download_song, retry_on_failure. change (Z.to_nat 5) with 5%nat.
    cbn [retry_loop]. apply try_Ok. rewrite Hstep.
    unfold convert_to_mp3, path_join. fold raw mp3. apply try_Ok.
    erewrite bind_Ok by reflexivity.
    erewrite bind_Ok by
      (erewrite (from_file_runs env output_dir raw _ files1 m1 media);
       [rewrite Hdec; reflexivity | apply lookup_insert_eq | apply lookup_insert_eq]).
    erewrite bind_Ok by
      (apply (export_runs env audio output_dir mp3 _ files1 encoded);
       [apply Henc | apply lookup_insert_eq
       | unfold files1; rewrite lookup_insert_ne by exact Hne; exact Hmp3]).
    erewrite bind_Ok by
      (eapply (os_remove_ok output_dir raw _ _ m1 media);
       [apply lookup_insert_eq
       | rewrite lookup_insert_ne by (intros E; apply Hne; now symmetry);
         unfold files1; apply lookup_insert_eq]).
    reflexivity.
  - cbn [fs logging emit]. rewrite !insert_insert_eq. f_equal. f_equal.
    unfold files1. rewrite delete_insert_ne by (intros E; apply Hne; now symmetry).
    now rewrite delete_insert_id by exact Hwebm.
  - cbn [trace logging emit]. rewrite !calls_app. simpl.
    rewrite !String.eqb_refl. simpl. lia.
  - cbn [trace logging emit]. rewrite !calls_app. simpl.
    rewrite !String.eqb_refl. simpl. lia.
  - cbn [trace logging emit]. rewrite !calls_app. simpl.
    rewrite !String.eqb_refl. simpl. lia.
  - cbn [trace logging emit]. rewrite !delays_app. simpl. now rewrite !app_nil_r.
Qed.

(** X11: take a track name without "/" (which would lead into a
    sub-directory) and without "%" (which the downloader reads as a
    template), and a session folder that holds no raw file of the track yet
    and no directory under its MP3 name.  With a download that works and a
    transcoder that works, [download_song] succeeds at the first attempt:
    the one change to the folder is the file "<query>.mp3" with the encoded
    bytes, no "<query>.webm" is left, and the download, the decoder and the
    encoder are each called once, without any delay. *)
Theorem download_song_leaves_only_the_mp3
    (env : environment) (video_url query output_dir : string) (w : world)
    (files : gmap string node) (media audio encoded : string) :
  avoids "/" query = true ->
  avoids "%" query = true ->
  fs w !! output_dir = Some (Folder files) ->
  files !! (query ++ ".webm") = None ->
  files !! (query ++ ".mp3") ≠ Some SubDirectory ->
  (forall h, ytdl_download env h video_url = Ok media) ->
  (forall h, audio_from_file env h media = Ok audio) ->
  (forall h, audio_export env h audio = Ok encoded) ->
  exists w' mtime,
    download_song env video_url query output_dir w = (Ok tt, w') /\
    fs w' = <[output_dir :=
                Folder (<[query ++ ".mp3" := RegularFile mtime encoded]> files)]> (fs w) /\
    lookup_node (output_dir, query ++ ".webm") (fs w') = None /\
    calls (CallDownload video_url (output_dir, query ++ ".webm")) (trace w')
    = S (calls (CallDownload video_url (output_dir, query ++ ".webm")) (trace w)) /\
    calls (CallFromFile (output_dir, query ++ ".webm")) (trace w')
    = S (calls (CallFromFile (output_dir, query ++ ".webm")) (trace w)) /\
    calls (CallExport (output_dir, query ++ ".mp3")) (trace w')
    = S (calls (CallExport (output_dir, query ++ ".mp3")) (trace w)) /\
    delays (trace w') = delays (trace w).
Proof.
  intros _ _ Hd Hwebm Hmp3 Hdl Hdec Henc.
  destruct (download_song_runs env video_url query output_dir w files media audio encoded
              Hd Hwebm Hmp3 Hdl Hdec Henc) as (w' & mtime & R & Hfs & Hrest).
  exists w', mtime. split; [exact R|]. split; [exact Hfs|]. split; [|exact Hrest].
  unfold lookup_node. cbn [fst snd]. rewrite Hfs, lookup_insert_eq.
  rewrite lookup_insert_ne by (intros E; symmetry in E; now apply webm_is_not_mp3 in E).
  exact Hwebm.
Qed.

Lemma download_song_leaves_only_the_mp3_witness :
  exists w' mtime,
    download_song obliging_env "https://media.example/1" "Song" "s1" fresh_session_world
    = (Ok tt, w') /\
    fs w' = <["s1" := Folder (<["Song.mp3" := RegularFile mtime "mp3"]> ∅)]> ∅.
Proof.
  destruct (download_song_leaves_only_the_mp3 obliging_env "https://media.example/1"
              "Song" "s1" fresh_session_world ∅ "raw" "pcm" "mp3" eq_refl eq_refl eq_refl)
    as (w' & mtime & R & Hfs & _).
  - reflexivity.
  - discriminate.
  - reflexivity.
  - reflexivity.
  - reflexivity.
  - exists w', mtime. split; [exact R|]. rewrite Hfs. vm_compute. reflexivity.
Defined.

(** X12: a transcoding failure is not a failure of [download_song].  For a
    track name without "/" and "%" and a session folder that holds no raw
    file of the track yet and no directory under its MP3 name: when the
    download works and the decoder or the encoder raises, the wrapper
    returns normally after a single attempt, the download is called once,
    nothing is slept, the error is logged and the raw "<query>.webm" stays
    in the folder.  After a decoder failure that is the one change to the
    folder; after an encoder failure the folder also holds an empty
    "<query>.mp3", which the encoder had opened for writing. *)
Theorem download_song_keeps_raw_file_when_transcoding_fails
    (env : environment) (video_url query output_dir : string) (w : world)
    (files : gmap string node) (media : string) (e : exn) :
  avoids "/" query = true ->
  avoids "%" query = true ->
  fs w !! output_dir = Some (Folder files) ->
  files !! (query ++ ".webm") = None ->
  files !! (query ++ ".mp3") ≠ Some SubDirectory ->
  (forall h, ytdl_download env h video_url = Ok media) ->
  (forall h, audio_from_file env h media = Raise e) \/
  (exists audio, (forall h, audio_from_file env h media = Ok audio) /\
                 (forall h, audio_export env h audio = Raise e)) ->
  exists w' mtime,
    download_song env video_url query output_dir w = (Ok tt, w') /\
    lookup_node (output_dir, query ++ ".webm") (fs w') = Some (RegularFile mtime media) /\
    ((forall h, audio_from_file env h media = Raise e) ->
     fs w' = <[output_dir :=
                 Folder (<[query ++ ".webm" := RegularFile mtime media]> files)]> (fs w)) /\
    (forall audio, (forall h, audio_from_file env h media = Ok audio) ->
     exists mtime',
       fs w' = <[output_dir :=
                   Folder (<[query ++ ".mp3" := RegularFile mtime' ""]>
                             (<[query ++ ".webm" := RegularFile mtime media]> files))]>
                 (fs w)) /\
    calls (CallDownload video_url (output_dir, query ++ ".webm")) (trace w')
    = S (calls (CallDownload video_url (output_dir, query ++ ".webm")) (trace w)) /\
    delays (trace w') = delays (trace w) /\
    last (trace w')
    = Some (EvLog ERROR ("Error converting " ++ query ++ " to MP3: " ++ exn_msg e)).
Proof.
  intros _ _ Hd Hwebm Hmp3 Hdl Hfail.
  destruct (download_step env video_url query output_dir w files media Hd Hwebm Hdl)
    as [m1 Hstep].
  set (raw := query ++ ".webm") in *. set (mp3 := query ++ ".mp3") in *.
  assert (Hne : raw ≠ mp3) by apply webm_is_not_mp3.
  set (files1 := <[raw := RegularFile m1 media]> files) in *.
  assert (Hrun : exists w',
             convert_to_mp3 env (output_dir, raw) query output_dir
               (World (<[output_dir := Folder files1]> (fs w))
                  (trace w ++ [EvLog INFO ("Downloading " ++ query ++ "...");
                               EvCall (CallDownload video_url (output_dir, raw));
                               EvLog INFO ("Downloaded " ++ query ++ " successfully.")])
                  (base_dir w) (cwd w))
             = (Ok tt, w') /\
             ((forall h, audio_from_file env h media = Raise e) ->
              fs w' = <[output_dir := Folder files1]> (fs w)) /\
             (forall audio, (forall h, audio_from_file env h media = Ok audio) ->
              exists mtime',
                fs w' = <[output_dir := Folder (<[mp3 := RegularFile mtime' ""]> files1)]>
                          (fs w)) /\
             calls (CallDownload video_url (output_dir, raw)) (trace w')
             = S (calls (CallDownload video_url (output_dir, raw)) (trace w)) /\
             delays (trace w') = delays (trace w) /\
             last (trace w')
             = Some (EvLog ERROR ("Error converting " ++ query ++ " to MP3: "
                                   ++ exn_msg e))).
  { destruct Hfail as [Hdec | (audio & Hdec & Henc)].
    - eexists. split; [|split; [|split; [|split; [|split]]]].
      + unfold convert_to_mp3. erewrite try_Raise; [reflexivity|].
        erewrite bind_Ok by reflexivity. apply bind_Raise.
        erewrite (from_file_runs env output_dir raw _ files1 m1 media);
          [rewrite Hdec; reflexivity | apply lookup_insert_eq | apply lookup_insert_eq].
      + reflexivity.
      + intros audio Ha. specialize (Hdec []). rewrite Ha in Hdec. discriminate.
      + cbn [trace logging emit]. rewrite !calls_app. simpl.
        rewrite !String.eqb_refl. simpl. lia.
      + cbn [trace logging emit]. rewrite !delays_app. simpl. now rewrite !app_nil_r.
      + cbn [trace logging emit]. apply last_snoc.
    - eexists. split; [|split; [|split; [|split; [|split]]]].
      + unfold convert_to_mp3, path_join. fold mp3.
        erewrite try_Raise; [reflexivity|].
        erewrite bind_Ok by reflexivity.
        erewrite bind_Ok by
          (erewrite (from_file_runs env output_dir raw _ files1 m1 media);
           [rewrite Hdec; reflexivity | apply lookup_insert_eq | apply lookup_insert_eq]).
        apply bind_Raise.
        apply (export_fails env audio output_dir mp3 _ files1 e);
          [apply Henc | apply lookup_insert_eq
          | unfold files1; rewrite lookup_insert_ne by exact Hne; exact Hmp3].
      + intros Ha. specialize (Hdec []). rewrite Ha in Hdec. discriminate.
      + intros _ _. eexists. cbn [fs logging emit]. now rewrite insert_insert_eq.
      + cbn [trace logging emit]. rewrite !calls_app. simpl.
        rewrite !String.eqb_refl. simpl. lia.
      + cbn [trace logging emit]. rewrite !delays_app. simpl. now rewrite !app_nil_r.
      + cbn [trace logging emit]. apply last_snoc. }
  destruct Hrun as (w' & R & Hfs1 & Hfs2 & Hc & Hdl' & Hlast).
  exists w', m1. split; [|split; [|repeat split; assumption]].
  - unfold download_song, retry_on_failure. change (Z.to_nat 5) with 5%nat.
    cbn [retry_loop]. apply try_Ok. now rewrite Hstep.
  - unfold lookup_node. cbn [fst snd].
    destruct Hfail as [Hdec | (audio & Hdec & _)].
    + rewrite (Hfs1 Hdec), lookup_insert_eq. apply lookup_insert_eq.
    + destruct (Hfs2 audio Hdec) as [m2 ->]. rewrite lookup_insert_eq.
      rewrite lookup_insert_ne by (intros E; apply Hne; now symmetry).
      apply lookup_insert_eq.
Qed.

Lemma download_song_keeps_raw_file_when_transcoding_fails_witness :
  exists w' mtime mtime',
    download_song codecless_env "https://media.example/1" "Song" "s1"
      fresh_session_world = (Ok tt, w') /\
    fs w' = <["s1" := Folder (<["Song.mp3" := RegularFile mtime' ""]>
                                (<["Song.webm" := RegularFile mtime "raw"]> ∅))]> ∅ /\
    delays (trace w') = [].
Proof.
  destruct (download_song_keeps_raw_file_when_transcoding_fails codecless_env
              "https://media.example/1" "Song" "s1" fresh_session_world
              ∅ "raw" (Exn "CouldntEncodeError" "no codec") eq_refl eq_refl)
    as (w' & mtime & R & _ & _ & Hfs & _ & Hd & _).
  - reflexivity.
  - reflexivity.
  - discriminate.
  - reflexivity.
  - right. exists "pcm". split; reflexivity.
  - destruct (Hfs "pcm" (fun _ => eq_refl)) as [mtime' Hfs'].
    exists w', mtime, mtime'. split; [exact R|]. split; [|exact Hd].
    rewrite Hfs'. vm_compute. reflexivity.
Defined.

Lemma download_song_wrapped_fails env video_url query output_dir w e :
  (forall h, ytdl_download env h video_url = Raise e) ->
  download_song_wrapped env video_url query output_dir w
  = (Raise e,
     World (fs w)
       (trace w ++ [EvLog INFO ("Downloading " ++ query ++ "...");
                    EvCall (CallDownload video_url (output_dir, query ++ ".webm"))]) (base_dir w) (cwd w)).
Proof.
  intros Hdl. unfold download_song_wrapped, path_join.
  erewrite bind_Ok by reflexivity. erewrite bind_Ok by reflexivity.
  erewrite bind_Ok by reflexivity.
  erewrite bind_Raise by (unfold lift; rewrite Hdl; reflexivity).
  cbn [trace fs]. rewrite <- app_assoc. reflexivity.
Qed.

(** X13: when the download raises on every call, [download_song] tries it 5
    times, with a delay after each failure, and raises the exhaustion error;
    the folder is untouched and the transcoder is never called. *)
Theorem download_song_gives_up_after_five_downloads
    (env : environment) (video_url query output_dir : string) (w : world) (e : exn) :
  jitter_in_unit env ->
  (forall h, ytdl_download env h video_url = Raise e) ->
  exists w',
    download_song env video_url query output_dir w
    = (Raise (Exn "Exception" "download_song failed after 5 retries."), w') /\
    fs w' = fs w /\
    calls (CallDownload video_url (output_dir, query ++ ".webm")) (trace w')
    = (calls (CallDownload video_url (output_dir, query ++ ".webm")) (trace w) + 5)%nat /\
    (forall input_file,
        calls (CallFromFile input_file) (trace w')
        = calls (CallFromFile input_file) (trace w)) /\
    length (delays (trace w')) = (length (delays (trace w)) + 5)%nat.
Proof.
  intros Hj Hdl.
  destruct (retry_loop_constant_failure env 5 2 true "download_song"
              (download_song_wrapped env video_url query output_dir) ltac:(lia) Hj _ _
              (fun w => download_song_wrapped_fails env video_url query output_dir w e Hdl)
              5%nat 0 w) as (w' & R & Hfs & Hc & Hd).
  exists w'. split; [exact R|]. split; [exact Hfs|]. split; [|split].
  - rewrite Hc. simpl. rewrite !String.eqb_refl. simpl. lia.
  - intros [d f]. rewrite Hc. simpl. lia.
  - rewrite Hd. simpl. lia.
Qed.

Lemma download_song_gives_up_after_five_downloads_witness :
  exists w',
    download_song barren_env "https://media.example/1" "Song" "s1" fresh_session_world
    = (Raise (Exn "Exception" "download_song failed after 5 retries."), w') /\
    fs w' = fs fresh_session_world /\
    calls (CallDownload "https://media.example/1" ("s1", "Song" ++ ".webm")) (trace w')
    = 5%nat.
Proof.
  destruct (download_song_gives_up_after_five_downloads barren_env
              "https://media.example/1" "Song" "s1" fresh_session_world
              (Exn "DownloadError" "unavailable") barren_jitter (fun _ => eq_refl))
    as (w' & R & Hfs & Hc & _).
  exists w'. split; [exact R|]. split; [exact Hfs | exact Hc].
Defined.

(** X14: take a track whose name and artist hold neither "/" nor "%", and a
    session folder that holds no raw file of the track yet and no directory
    under its MP3 name.  When the primary search finds something at once
    and the download and the transcoding work, the track is acquired
    without any delay, and the one change to the session folder is the
    file "<name> <artist>.mp3" with the encoded bytes. *)
Theorem acquired_track_is_named_after_name_and_artist
    (env : environment) (user_folder : string) (t : track) (w : world)
    (files : gmap string node) (video_id media audio encoded : string)
    (more : list (option string)) :
  let stem := name t ++ " " ++ artist t in
  let video_url := "https://www.youtube.com/watch?v=" ++ video_id in
  avoids "/" stem = true ->
  avoids "%" stem = true ->
  fs w !! user_folder = Some (Folder files) ->
  files !! (stem ++ ".webm") = None ->
  files !! (stem ++ ".mp3") ≠ Some SubDirectory ->
  youtube_search_list env (trace w) stem = Ok (Some video_id :: more) ->
  (forall h, ytdl_download env h video_url = Ok media) ->
  (forall h, audio_from_file env h media = Ok audio) ->
  (forall h, audio_export env h audio = Ok encoded) ->
  exists w' mtime,
    acquire_track env user_folder t w = (Ok tt, w') /\
    fs w' = <[user_folder :=
                Folder (<[stem ++ ".mp3" := RegularFile mtime encoded]> files)]> (fs w) /\
    delays (trace w') = delays (trace w).
Proof.
  intros stem video_url _ _ Hd Hwebm Hmp3 Hhit Hdl Hdec Henc.
  pose proof (source_located_by_primary env stem video_id more w Hhit) as Hloc.
  cbv zeta in Hloc. fold video_url in Hloc.
  match type of Hloc with _ = (_, ?x) => set (w1 := x) in * end.
  destruct (download_song_runs env video_url stem user_folder w1 files
              media audio encoded Hd Hwebm Hmp3 Hdl Hdec Henc)
    as (w' & mtime & R & Hfs & _ & _ & _ & Hdelays).
  exists w', mtime. split; [|split].
  - unfold acquire_track, query_of. fold stem. apply try_Ok.
    erewrite bind_Ok by exact Hloc. exact R.
  - exact Hfs.
  - rewrite Hdelays. unfold w1. cbn [trace]. rewrite delays_app. simpl.
    apply app_nil_r.
Qed.

Lemma acquired_track_is_named_after_name_and_artist_witness :
  exists w' mtime,
    acquire_track obliging_env "s1" (Track "Song A" "Artist X") fresh_session_world
    = (Ok tt, w') /\
    fs w' = <["s1" := Folder (<["Song A Artist X.mp3" := RegularFile mtime "mp3"]> ∅)]> ∅ /\
    delays (trace w') = [].
Proof.
  destruct (acquired_track_is_named_after_name_and_artist obliging_env "s1"
              (Track "Song A" "Artist X") fresh_session_world ∅ "dQw4" "raw" "pcm" "mp3" []
              eq_refl eq_refl)
    as (w' & mtime & R & Hfs & Hd).
  - reflexivity.
  - reflexivity.
  - discriminate.
  - reflexivity.
  - reflexivity.
  - reflexivity.
  - reflexivity.
  - exists w', mtime. split; [exact R|]. split; [|exact Hd].
    rewrite Hfs. vm_compute. reflexivity.
Defined.

(** ** The retention sweeper, over time *)

Lemma expired_later now now' n :
  now <= now' -> expired now n = true -> expired now' n = true.
Proof.
  intros Hle. destruct n as [m c|]; simpl; [|discriminate].
  rewrite !Z.ltb_lt. lia.
Qed.

Lemma keep_later now now' (o : option node) :
  now <= now' -> (o ≫= keep now) ≫= keep now' = o ≫= keep now'.
Proof.
  intros Hle. destruct o as [n|]; [|reflexivity]. simpl. unfold keep.
  destruct (expired now n) eqn:E; simpl.
  - now rewrite (expired_later now now' n Hle E).
  - reflexivity.
Qed.

Lemma swept_later now now' files :
  now <= now' -> swept now' (swept now files) = swept now' files.
Proof.
  intros Hle. apply map_eq. intros k. unfold swept. rewrite !lookup_omap.
  now apply keep_later.
Qed.

Lemma swept_empty now : swept now ∅ = ∅.
Proof. unfold swept. apply omap_empty. Qed.

Lemma sweep_entry_later now now' o :
  now <= now' -> sweep_entry now' (sweep_entry now o) = sweep_entry now' o.
Proof.
  intros Hle. destruct o as [[files|m c]|]; try reflexivity. simpl.
  destruct (decide (swept now files = ∅)) as [He|He]; simpl.
  - rewrite <- (swept_later now now' files Hle), He, swept_empty.
    now destruct (decide (∅ = ∅)).
  - now rewrite (swept_later now now' files Hle).
Qed.

(** X15: two sweeper cycles, the second not earlier than the first, leave
    the download folder exactly as a single cycle at the later time would;
    in particular a second cycle at the same time changes nothing. *)
Theorem cleanup_cycles_compose (now now' : Z) (w : world) :
  now <= now' ->
  fs (cleanup_cycle now' (cleanup_cycle now w).2).2 = fs (cleanup_cycle now' w).2 /\
  fs (cleanup_cycle now (cleanup_cycle now w).2).2 = fs (cleanup_cycle now w).2.
Proof.
  intros Hle. split; apply map_eq; intros k; rewrite !cleanup_cycle_lookup;
    apply sweep_entry_later; lia.
Qed.

Lemma cleanup_cycles_compose_witness :
  fs (cleanup_cycle (timedelta_days 12) (cleanup_cycle ten_days aged_world).2).2
  = fs (cleanup_cycle (timedelta_days 12) aged_world).2.
Proof.
  apply (cleanup_cycles_compose ten_days (timedelta_days 12) aged_world).
  vm_compute. discriminate.
Defined.

(** X16: after a sweeper cycle no session folder is empty and no regular
    file in a session folder is older than five days. *)
Theorem cleanup_cycle_leaves_nothing_expired (now : Z) (w : world)
    (folder : string) (files' : gmap string node) :
  fs (cleanup_cycle now w).2 !! folder = Some (Folder files') ->
  files' ≠ ∅ /\
  forall file mtime content,
    files' !! file = Some (RegularFile mtime content) ->
    now - mtime <= timedelta_days 5.
Proof.
  rewrite cleanup_cycle_lookup.
  intros H. destruct (fs w !! folder) as [[files|m c]|]; try discriminate.
  simpl in H. destruct (decide (swept now files = ∅)) as [He|He]; [discriminate|].
  injection H as <-. split; [exact He|].
  intros file mtime content Hfile. unfold swept in Hfile. rewrite lookup_omap in Hfile.
  destruct (files !! file) as [n|]; [|discriminate]. simpl in Hfile. unfold keep in Hfile.
  destruct (expired now n) eqn:E; [discriminate|]. injection Hfile as ->.
  simpl in E. apply Z.ltb_ge in E. exact E.
Qed.

Lemma cleanup_cycle_leaves_nothing_expired_witness :
  <["new.mp3" := RegularFile (ten_days - timedelta_days 4) "new"]> (∅ : gmap string node)
  ≠ ∅ /\
  forall file mtime content,
    <["new.mp3" := RegularFile (ten_days - timedelta_days 4) "new"]> (∅ : gmap string node)
      !! file = Some (RegularFile mtime content) ->
    ten_days - mtime <= timedelta_days 5.
Proof.
  apply (cleanup_cycle_leaves_nothing_expired ten_days aged_world "s1"
           (<["new.mp3" := RegularFile (ten_days - timedelta_days 4) "new"]> ∅)).
  vm_compute. reflexivity.
Defined.

(** X17: a sweeper cycle only removes.  Plain files lying directly in the
    download folder are never touched, and a session folder that survives
    holds a subset of what it held, each surviving entry unchanged. *)
Theorem cleanup_cycle_only_removes (now : Z) (w : world) (k : string) :
  (forall mtime content,
      fs w !! k = Some (PlainFile mtime content) <->
      fs (cleanup_cycle now w).2 !! k = Some (PlainFile mtime content)) /\
  (forall files',
      fs (cleanup_cycle now w).2 !! k = Some (Folder files') ->
      exists files, fs w !! k = Some (Folder files) /\ files' ⊆ files).
Proof.
  rewrite cleanup_cycle_lookup. split.
  - intros mtime content. destruct (fs w !! k) as [[files|m c]|]; simpl; try tauto.
    destruct (decide (swept now files = ∅)); split; discriminate.
  - intros files' H. destruct (fs w !! k) as [[files|m c]|]; try discriminate.
    simpl in H. destruct (decide (swept now files = ∅)); [discriminate|].
    injection H as <-. exists files. split; [reflexivity|].
    apply map_subseteq_spec. intros f nd Hn. unfold swept in Hn.
    rewrite lookup_omap in Hn. destruct (files !! f) as [n0|]; [|discriminate].
    simpl in Hn. unfold keep in Hn. destruct (expired now n0); [discriminate|].
    congruence.
Qed.
















(** The sweeper started before any request: the download folder is not
    there, and the loop ends in its first cycle. *)
Example cleanup_old_files_before_first_request :
  cleanup_old_files barren_env 3 empty_world = (Raise FileNotFoundError, empty_world).
Proof. reflexivity. Qed.

(** ** The session store, at its edges *)

(** X19: when the path of the session identifier is a plain file in the
    download folder, neither handler answers with the not-found envelope:
    the path exists, listing it raises [NotADirectoryError], and the
    exception leaves the handler. *)
Theorem handlers_raise_on_plain_file (w : world) (user_id : string)
    (mtime : Z) (content : string) :
  fs w !! user_id = Some (PlainFile mtime content) ->
  list_files user_id w = (Raise NotADirectoryError, w) /\
  download_all user_id w = (Raise NotADirectoryError, w).
Proof.
  intros Hf. apply locate_plain_file in Hf.
  unfold list_files, download_all, os_path_exists, os_listdir, mbind, prog_bind, bind.
  rewrite Hf. simpl. rewrite Hf. split; reflexivity.
Qed.

Lemma handlers_raise_on_plain_file_witness :
  list_files "notes.txt" (World (<["notes.txt" := PlainFile 0 "hello"]> ∅) [] true ∅)
  = (Raise NotADirectoryError, World (<["notes.txt" := PlainFile 0 "hello"]> ∅) [] true ∅) /\
  download_all "notes.txt" (World (<["notes.txt" := PlainFile 0 "hello"]> ∅) [] true ∅)
  = (Raise NotADirectoryError, World (<["notes.txt" := PlainFile 0 "hello"]> ∅) [] true ∅).
Proof.
  apply (handlers_raise_on_plain_file (World (<["notes.txt" := PlainFile 0 "hello"]> ∅) [] true ∅)
           "notes.txt" 0 "hello").
  reflexivity.
Defined.

Lemma list_files_runs w user_id files :
  fs w !! user_id = Some (Folder files) ->
  list_files user_id w
  = (Ok (Jsonify [("files",
                   JList (List.filter (fun f => endswith f ".mp3")
                            (map_to_list files).*1))]), w).
Proof.
  intros Hf. apply list_files_at. now apply locate_folder.
Qed.

(** X20: for a session folder that holds regular files only, the archive
    sent by [download_all] has exactly the members that [list_files] lists,
    under the same names and in the same order. *)
Theorem archive_members_are_the_listed_files (w : world) (user_id : string)
    (files : gmap string node) :
  fs w !! user_id = Some (Folder files) ->
  (forall f n, files !! f = Some n -> exists mtime content, n = RegularFile mtime content) ->
  exists names zip,
    list_files user_id w = (Ok (Jsonify [("files", JList names)]), w) /\
    download_all user_id w
    = (Ok (SendFile zip true (user_id ++ "_songs.zip") "application/zip"), w) /\
    zip.*1 = names /\
    forall f content, (f, content) ∈ zip ->
                      exists mtime, files !! f = Some (RegularFile mtime content).
Proof.
  intros Hf Hreg. eexists _, _.
  split; [exact (list_files_runs w user_id files Hf)|].
  split; [exact (download_all_runs w user_id files Hf)|].
  assert (Hall : forall names,
             (forall f, f ∈ names -> is_Some (files !! f)) ->
             (omap (archive_member files) names).*1
             = List.filter (fun f => endswith f ".mp3") names).
  { induction names as [|f names IH]; intros Hin; [reflexivity|].
    assert (Hrest : forall g, g ∈ names -> is_Some (files !! g))
      by (intros g Hg; apply Hin; now right).
    destruct (Hin f) as [n Hn]; [now left|].
    destruct (Hreg f n Hn) as (m & c & ->).
    cbn [omap list_omap List.filter]. unfold archive_member at 1.
    destruct (endswith f ".mp3"); [|now apply IH].
    rewrite Hn. cbn [fmap list_fmap fst]. f_equal. now apply IH. }
  split.
  - apply Hall. intros f. apply elem_of_listing.
  - intros f content Hin. apply list_elem_of_omap in Hin as (g & _ & Hm).
    unfold archive_member in Hm. destruct (endswith g ".mp3"); [|discriminate].
    destruct (files !! g) as [n|] eqn:Hg; [|discriminate].
    destruct (Hreg g n Hg) as (m & c & ->). injection Hm as <- <-. eauto.
Qed.

Lemma archive_members_are_the_listed_files_witness :
  exists names zip,
    list_files "s1" mixed_world = (Ok (Jsonify [("files", JList names)]), mixed_world) /\
    download_all "s1" mixed_world
    = (Ok (SendFile zip true ("s1" ++ "_songs.zip") "application/zip"), mixed_world) /\
    zip.*1 = names.
Proof.
  destruct (archive_members_are_the_listed_files mixed_world "s1" mixed_files)
    as (names & zip & L & D & Hnames & _).
  - reflexivity.
  - intros f n Hn. unfold mixed_files in Hn.
    repeat (apply lookup_insert_Some in Hn as [[_ <-]|[_ Hn]]; [eauto|]).
    rewrite lookup_empty in Hn. discriminate Hn.
  - exists names, zip. repeat split; assumption.
Defined.

(** X21: once a sweeper cycle has found every entry of a session folder to
    be a regular file older than five days, the session is gone: both
    handlers answer with the not-found envelope.  The session identifier is
    the name of the folder, so, as every name of a directory entry, it has
    no slash and is neither empty nor "." nor "..". *)
Theorem expired_session_is_not_found (now : Z) (w : world) (user_id : string)
    (files : gmap string node) :
  entry_name user_id = true ->
  fs w !! user_id = Some (Folder files) ->
  (forall f n, files !! f = Some n ->
               exists mtime content,
                 n = RegularFile mtime content /\ timedelta_days 5 < now - mtime) ->
  let w' := (cleanup_cycle now w).2 in
  list_files user_id w' = (Ok session_not_found, w') /\
  download_all user_id w' = (Ok session_not_found, w').
Proof.
  intros Hname Hf Hold w'.
  assert (Hgone : fs w' !! user_id = None).
  { unfold w'. rewrite cleanup_cycle_lookup, Hf. simpl.
    assert (He : swept now files = ∅).
    { apply map_eq. intros f. unfold swept. rewrite lookup_omap, lookup_empty.
      destruct (files !! f) as [n|] eqn:Hn; [|reflexivity].
      destruct (Hold f n Hn) as (m & c & -> & Hage). simpl. unfold keep. simpl.
      apply Z.ltb_lt in Hage. now rewrite Hage. }
    now destruct (decide (swept now files = ∅)). }
  pose proof (locate_missing w' user_id Hgone Hname) as Hloc.
  split; [now apply list_files_missing | now apply download_all_missing].
Qed.

Lemma expired_session_is_not_found_witness :
  list_files "s1" (cleanup_cycle (timedelta_days 20) aged_world).2
  = (Ok session_not_found, (cleanup_cycle (timedelta_days 20) aged_world).2).
Proof.
  apply (expired_session_is_not_found (timedelta_days 20) aged_world "s1" aged_files).
  - reflexivity.
  - reflexivity.
  - intros f n Hn. unfold aged_files in Hn.
    repeat (apply lookup_insert_Some in Hn as [[_ <-]|[_ Hn]];
            [eexists _, _; split; [reflexivity | vm_compute; reflexivity]|]).
    rewrite lookup_empty in Hn. discriminate Hn.
Defined.

(** ** Listing what was acquired *)

Lemma length_append (a b : string) :
  String.length (a ++ b) = (String.length a + String.length b)%nat.
Proof.
  induction a as [|c a IH]; [reflexivity|].
  rewrite append_cons. cbn [String.length]. now rewrite IH.
Qed.

Lemma substring_all (s : string) : substring 0 (String.length s) s = s.
Proof.
  induction s as [|c s IH]; [reflexivity|].
  cbn [String.length substring]. now rewrite IH.
Qed.

Lemma substring_append_skip (p s : string) m :
  substring (String.length p) m (p ++ s) = substring 0 m s.
Proof.
  induction p as [|c p IH]; [reflexivity|].
  rewrite append_cons. cbn [String.length substring]. exact IH.
Qed.

Lemma substring_split (s : string) : forall k,
  (k <= String.length s)%nat ->
  s = substring 0 k s ++ substring k (String.length s - k) s.
Proof.
  induction s as [|c s IH]; intros k Hk.
  - cbn [String.length] in Hk. now replace k with 0%nat by lia.
  - destruct k as [|k].
    + cbn [substring]. change ("" ++ ?x) with x.
      rewrite Nat.sub_0_r. symmetry. exact (substring_all (String c s)).
    + cbn [String.length] in *. cbn [substring Nat.sub]. rewrite append_cons.
      f_equal. apply IH. lia.
Qed.

Lemma endswith_append (stem suffix : string) : endswith (stem ++ suffix) suffix = true.
Proof.
  unfold endswith. rewrite length_append. apply andb_true_iff. split.
  - apply Nat.leb_le. lia.
  - replace (String.length stem + String.length suffix - String.length suffix)%nat
      with (String.length stem) by lia.
    rewrite substring_append_skip, substring_all. apply String.eqb_refl.
Qed.

(** X22: [endswith] holds exactly of the strings made of something
    followed by the suffix; so a name passes the MP3 filter of the handlers
    exactly when it is some stem followed by ".mp3". *)
Theorem endswith_iff_suffix (s suffix : string) :
  endswith s suffix = true <-> exists stem, s = stem ++ suffix.
Proof.
  unfold endswith. split.
  - intros H. apply andb_true_iff in H as [Hle Heq].
    apply Nat.leb_le in Hle. apply String.eqb_eq in Heq.
    exists (substring 0 (String.length s - String.length suffix) s).
    pose proof (substring_split s (String.length s - String.length suffix)
                  ltac:(lia)) as Hsplit.
    replace (String.length s - (String.length s - String.length suffix))%nat
      with (String.length suffix) in Hsplit by lia.
    now rewrite Heq in Hsplit.
  - intros [stem ->]. fold (endswith (stem ++ suffix) suffix). apply endswith_append.
Qed.

Lemma for_each_unlocated env user_folder tracks :
  jitter_in_unit env ->
  (forall h q, youtube_search_list env h q = Ok []) ->
  (forall h q, ytdl_extract_info env h q = Ok []) ->
  forall w, exists w',
    for_each tracks (acquire_track env user_folder) w = (Ok tt, w') /\ fs w' = fs w.
Proof.
  intros Hj Hp Hf. induction tracks as [|t tracks IH]; intros w.
  - now exists w.
  - destruct (acquire_track_unlocated env user_folder t w Hj
                (fun h => Hp h _) (fun h => Hf h _)) as (w1 & R1 & Hfs1 & _).
    destruct (IH w1) as (w' & R & Hfs). exists w'. split.
    + simpl. erewrite bind_Ok by exact R1. exact R.
    + now rewrite Hfs, Hfs1.
Qed.

(** X23: a playlist that resolves but for which no search ever finds
    anything still gets the success envelope; the session folder exists and
    is empty, and listing the session afterwards returns no file. *)
Theorem playlist_without_sources_gives_empty_session
    (env : environment) (playlist_url : string) (w w1 : world) (tracks : list track) :
  let user_id := uuid4 env (trace w) in
  jitter_in_unit env ->
  fs w !! user_id = None ->
  fetch_spotify_playlist_tracks env playlist_url
    (World (<[user_id := Folder ∅]> (fs w)) (trace w) (base_dir w) (cwd w)) = (Ok tracks, w1) ->
  (forall h q, youtube_search_list env h q = Ok []) ->
  (forall h q, ytdl_extract_info env h q = Ok []) ->
  exists w',
    index env "POST" playlist_url w = (Ok (success_envelope user_id), w') /\
    fs w' = <[user_id := Folder ∅]> (fs w) /\
    list_files user_id w' = (Ok (Jsonify [("files", JList [])]), w').
Proof.
  intros user_id Hj Hfresh Hfetch Hp Hf.
  set (w0 := World (<[user_id := Folder ∅]> (fs w)) (trace w) (base_dir w) (cwd w)) in *.
  assert (Hmk : os_makedirs user_id w = (Ok tt, w0)).
  { unfold os_makedirs. now rewrite Hfresh. }
  assert (Hfs1 : fs w1 = fs w0).
  { pose proof (keeps_fetch env playlist_url w0) as H. now rewrite Hfetch in H. }
  destruct (for_each_unlocated env user_id tracks Hj Hp Hf w1) as (w' & R & Hfs).
  assert (Hfs' : fs w' = <[user_id := Folder ∅]> (fs w)) by now rewrite Hfs, Hfs1.
  exists w'. split; [|split; [exact Hfs'|]].
  - unfold index. change (String.eqb "POST" "POST") with true. cbv iota.
    erewrite bind_Ok by reflexivity. fold user_id. erewrite bind_Ok by exact Hmk.
    erewrite try_Ok; [reflexivity|].
    erewrite bind_Ok by exact Hfetch. erewrite bind_Ok by exact R. reflexivity.
  - rewrite (list_files_runs w' user_id ∅) by (rewrite Hfs'; apply lookup_insert_eq).
    now rewrite map_to_list_empty.
Qed.

Lemma playlist_without_sources_gives_empty_session_witness :
  exists w',
    index fruitless_env "POST" playlist_link empty_world
    = (Ok (success_envelope "session-1"), w') /\
    fs w' = <["session-1" := Folder ∅]> ∅ /\
    list_files "session-1" w' = (Ok (Jsonify [("files", JList [])]), w').
Proof.
  apply (playlist_without_sources_gives_empty_session fruitless_env playlist_link
           empty_world
           (fetch_spotify_playlist_tracks fruitless_env playlist_link
              (World (<["session-1" := Folder ∅]> ∅) [] false ∅)).2
           two_tracks).
  - intros t. simpl. split; [discriminate | reflexivity].
  - reflexivity.
  - vm_compute. reflexivity.
  - reflexivity.
  - reflexivity.
Defined.

(** X24: take a track name without "/" and "%", and a session folder that
    holds no raw file of the track yet and no directory under its MP3 name.
    After [download_song] has succeeded for the track, listing the session
    folder shows "<query>.mp3" and not "<query>.webm", and shows any other
    name exactly if the folder held it before and it ends in ".mp3". *)
Theorem downloaded_track_is_listed
    (env : environment) (video_url query output_dir : string) (w : world)
    (files : gmap string node) (media audio encoded : string) :
  avoids "/" query = true ->
  avoids "%" query = true ->
  fs w !! output_dir = Some (Folder files) ->
  files !! (query ++ ".webm") = None ->
  files !! (query ++ ".mp3") ≠ Some SubDirectory ->
  (forall h, ytdl_download env h video_url = Ok media) ->
  (forall h, audio_from_file env h media = Ok audio) ->
  (forall h, audio_export env h audio = Ok encoded) ->
  exists w' names,
    download_song env video_url query output_dir w = (Ok tt, w') /\
    list_files output_dir w' = (Ok (Jsonify [("files", JList names)]), w') /\
    (query ++ ".mp3") ∈ names /\
    ((query ++ ".webm") ∉ names) /\
    forall f, f ≠ query ++ ".mp3" ->
              (f ∈ names <-> is_Some (files !! f) /\ endswith f ".mp3" = true).
Proof.
  intros _ _ Hd Hwebm Hmp3 Hdl Hdec Henc.
  destruct (download_song_runs env video_url query output_dir w files media audio encoded
              Hd Hwebm Hmp3 Hdl Hdec Henc) as (w' & mtime & R & Hfs & _).
  set (files' := <[query ++ ".mp3" := RegularFile mtime encoded]> files) in *.
  assert (Hd' : fs w' !! output_dir = Some (Folder files'))
    by (rewrite Hfs; apply lookup_insert_eq).
  exists w', (List.filter (fun f => endswith f ".mp3") (map_to_list files').*1).
  split; [exact R|]. split; [exact (list_files_runs w' output_dir files' Hd')|].
  assert (Hmem : forall f,
             f ∈ List.filter (fun f => endswith f ".mp3") (map_to_list files').*1
             <-> is_Some (files' !! f) /\ endswith f ".mp3" = true).
  { intros f. now rewrite filter_mp3_spec, elem_of_listing. }
  split; [|split].
  - apply Hmem. split; [|apply endswith_append].
    unfold files'. rewrite lookup_insert_eq. eauto.
  - intros Hin. apply Hmem in Hin as [[n Hn] _]. unfold files' in Hn.
    rewrite lookup_insert_ne in Hn by (intros E; symmetry in E;
                                       exact (webm_is_not_mp3 query E)).
    rewrite Hwebm in Hn. discriminate Hn.
  - intros f Hne1. rewrite Hmem. unfold files'.
    rewrite lookup_insert_ne by congruence. reflexivity.
Qed.

Lemma downloaded_track_is_listed_witness :
  exists w' names,
    download_song obliging_env "https://media.example/1" "Song" "s1" fresh_session_world
    = (Ok tt, w') /\
    list_files "s1" w' = (Ok (Jsonify [("files", JList names)]), w') /\
    ("Song" ++ ".mp3") ∈ names /\
    (("Song" ++ ".webm") ∉ names).
Proof.
  destruct (downloaded_track_is_listed obliging_env "https://media.example/1" "Song" "s1"
              fresh_session_world ∅ "raw" "pcm" "mp3" eq_refl eq_refl)
    as (w' & names & R & L & Hin & Hout & _).
  - reflexivity.
  - reflexivity.
  - discriminate.
  - reflexivity.
  - reflexivity.
  - reflexivity.
  - exists w', names. repeat split; assumption.
Defined.

(** ** Identifiers that are not names of entries *)

Lemma locate_dot w :
  base_exists w = true -> fs w !! "." = None ->
  locate "." w = Directory (as_node <$> fs w).
Proof. intros Hbase Hdot. unfold locate. now rewrite Hdot, Hbase. Qed.

(** X25: the identifier "." is not the name of a session, yet once the
    download folder exists [list_files] does not answer with the not-found
    envelope for it: the path is the download folder itself, and the answer
    lists the entries of the download folder whose names end in ".mp3". *)
Theorem dot_identifier_lists_the_download_folder (w : world) :
  base_exists w = true ->
  fs w !! "." = None ->
  exists names,
    list_files "." w = (Ok (Jsonify [("files", JList names)]), w) /\
    forall f, f ∈ names <-> is_Some (fs w !! f) /\ endswith f ".mp3" = true.
Proof.
  intros Hbase Hdot. eexists. split.
  - apply list_files_at. now apply locate_dot.
  - intros f. rewrite filter_mp3_spec, elem_of_listing, lookup_fmap, fmap_is_Some.
    reflexivity.
Qed.

Lemma dot_identifier_lists_the_download_folder_witness :
  exists names,
    list_files "." (World (<["stray.mp3" := PlainFile 0 "x"]> (<["s1" := Folder ∅]> ∅))
                      [] true ∅)
    = (Ok (Jsonify [("files", JList names)]),
       World (<["stray.mp3" := PlainFile 0 "x"]> (<["s1" := Folder ∅]> ∅)) [] true ∅) /\
    "stray.mp3" ∈ names.
Proof.
  destruct (dot_identifier_lists_the_download_folder
              (World (<["stray.mp3" := PlainFile 0 "x"]> (<["s1" := Folder ∅]> ∅))
                 [] true ∅)) as (names & R & Hmem).
  - reflexivity.
  - reflexivity.
  - exists names. split; [exact R|]. apply Hmem. split; [|reflexivity].
    cbn [fs]. rewrite lookup_insert_eq. eauto.
Defined.
